(** * processador-nfe: a shallow embedding of [processador_nfe.py]

    The program watches a directory for NF-e XML files, extracts a header
    and an item list from each parsed document, stores both in SQLite and
    moves the file to a "processados" or "erros" directory.

    The embedding follows the methods of [ProcessadorNFe]:
    - the tree returned by [xmltodict.parse] is the inductive [valor];
    - raising code returns [resultado A] (an exception or a value);
    - the file system, the database and the trace of log lines and
      observer calls are the fields of [mundo], threaded through the
      methods that touch them ([acao mundo A]);
    - a [sqlite3] connection is a state of its own, with what is on disk
      apart from what the open transaction has done.

    The first part holds the program, the second the vocabulary of the
    statements and the example data, the third the properties. *)

From Stdlib Require Import ZArith Ascii String DecimalString Decimal DecimalNat.
From stdpp Require Import base option list gmap strings.

Set Warnings "-register-all".

Local Open Scope Z_scope.
Local Open Scope string_scope.
Local Open Scope list_scope.

(** ** Python values and exceptions *)

(** What [xmltodict.parse] builds: [None] for an empty element, [str] for
    text and attributes, an insertion-ordered [dict] with distinct keys for
    an element with children, a [list] for repeated siblings.  [VInt] is
    the Python [int] of the literal defaults ([.get('vNF', 0)]). *)
Inductive valor : Type :=
  | VNone
  | VStr (s : string)
  | VInt (z : Z)
  | VDict (campos : list (string * valor))
  | VList (elementos : list valor).

Inductive excecao : Type :=
  | AttributeError
  | TypeError
  | ValueError
  | OverflowError
  | SqliteError
  | ExpatError
  | UnicodeDecodeError
  | FileNotFoundError
  | IsADirectoryError
  | NotADirectoryError
  | FileExistsError
  | ShutilError.

Definition resultado (A : Type) : Type := excecao + A.

Definition retorna {A} (a : A) : resultado A := inr a.
Definition levanta {A} (e : excecao) : resultado A := inl e.

Definition liga {A B} (r : resultado A) (k : A -> resultado B) : resultado B :=
  match r with
  | inl e => inl e
  | inr a => k a
  end.

Declare Scope res_scope.
Delimit Scope res_scope with res.
Notation "x <- r ;; k" := (liga r (fun x => k))
  (at level 100, r at next level, right associativity) : res_scope.
Local Open Scope res_scope.

(** [for x in l: ys.append(f(x))] where [f] may raise. *)
Fixpoint para_cada {A B} (f : A -> resultado B) (l : list A) : resultado (list B) :=
  match l with
  | [] => retorna []
  | x :: l' =>
      y <- f x ;;
      ys <- para_cada f l' ;;
      retorna (y :: ys)
  end.

(** Code that raises and also changes a state [S] (the connection, or
    the world outside the process): the state reached is kept when an
    exception leaves the code. *)
Definition acao (S A : Type) : Type := S -> resultado A * S.

Definition puro {S A} (a : A) : acao S A := fun s => (inr a, s).

Definition eleva {S A} (r : resultado A) : acao S A := fun s => (r, s).

Definition encadeia {S A B} (m : acao S A) (k : A -> acao S B) : acao S B :=
  fun s =>
    match m s with
    | (inl e, s') => (inl e, s')
    | (inr a, s') => k a s'
    end.

(** [try: m except Exception as e: h e] *)
Definition tenta {S A} (m : acao S A) (h : excecao -> acao S A) : acao S A :=
  fun s =>
    match m s with
    | (inl e, s') => h e s'
    | (inr a, s') => (inr a, s')
    end.

Definition obtem {S} : acao S S := fun s => (inr s, s).

Definition altera {S} (f : S -> S) : acao S unit := fun s => (inr tt, f s).

Notation "x <~ m ;; k" := (encadeia m (fun x => k))
  (at level 100, m at next level, right associativity) : res_scope.
Notation "m ;;; k" := (encadeia m (fun _ => k))
  (at level 100, right associativity) : res_scope.

(** [for x in l: f(x)] *)
Fixpoint para_cada_acao {S A} (f : A -> acao S unit) (l : list A) : acao S unit :=
  match l with
  | [] => puro tt
  | x :: l' => f x ;;; para_cada_acao f l'
  end.

(** [d.get(k, default)]: only a dict has the method. *)
Fixpoint procura (k : string) (campos : list (string * valor)) : option valor :=
  match campos with
  | [] => None
  | (k', v) :: resto => if String.eqb k k' then Some v else procura k resto
  end.

Definition py_get (d : valor) (k : string) (padrao : valor) : resultado valor :=
  match d with
  | VDict campos => retorna (default padrao (procura k campos))
  | _ => levanta AttributeError
  end.

(** Truth value of [if x]. *)
Definition verdadeiro (v : valor) : bool :=
  match v with
  | VNone => false
  | VStr s => negb (String.eqb s "")
  | VInt z => negb (z =? 0)%Z
  | VDict campos => match campos with [] => false | _ => true end
  | VList l => match l with [] => false | _ => true end
  end.

(** [next(iter(d.values()))] for a non-empty [d]. *)
Definition primeiro_valor (d : valor) : resultado valor :=
  match d with
  | VDict ((_, v) :: _) => retorna v
  | VDict [] => levanta ValueError (* StopIteration; never reached: guarded by [if d] *)
  | _ => levanta AttributeError
  end.

(** ** [str.replace] *)

Fixpoint comeca_com (prefixo s : string) : bool :=
  match prefixo, s with
  | EmptyString, _ => true
  | String a p', String b s' => Ascii.eqb a b && comeca_com p' s'
  | String _ _, EmptyString => false
  end.

(** Left to right, non-overlapping: after a match the scan resumes behind
    it; [pular] counts the characters of the match still to be skipped. *)
Fixpoint substitui (antigo novo : string) (pular : nat) (s : string) : string :=
  match s with
  | EmptyString => EmptyString
  | String c s' =>
      match pular with
      | S k => substitui antigo novo k s'
      | O =>
          if comeca_com antigo s
          then novo +:+ substitui antigo novo (Nat.pred (String.length antigo)) s'
          else String c (substitui antigo novo O s')
      end
  end.

Fixpoint intercala (novo s : string) : string :=
  match s with
  | EmptyString => novo
  | String c s' => novo +:+ String c (intercala novo s')
  end.

Definition str_replace (s antigo novo : string) : string :=
  match antigo with
  | EmptyString => intercala novo s
  | _ => substitui antigo novo O s
  end.

Definition py_replace (v : valor) (antigo novo : string) : resultado string :=
  match v with
  | VStr s => retorna (str_replace s antigo novo)
  | _ => levanta AttributeError
  end.

(** ** [float(x)], [int(x)] and [datetime.strptime(s, '%Y-%m-%d')]

    Strings are byte strings here: the Unicode digits and spaces that
    Python also accepts are outside the model, as is the digit limit of
    [int] in recent interpreters. *)

(** A Python float is kept as the decimal it was read from, [m * 10^e]
    with [m] not divisible by ten (and [e = 0] when [m = 0]); the rounding
    to binary64 is not modelled.  Nothing below computes with floats: they
    are read, stored and compared with zero. *)
Inductive pyfloat : Type :=
  | FDec (m e : Z)
  | FInf (negativo : bool)
  | FNaN.

Definition zero_float : pyfloat := FDec 0 0.

Fixpoint normaliza (passos : nat) (m e : Z) : pyfloat :=
  match passos with
  | O => FDec m e
  | S p =>
      if (m =? 0)%Z then FDec 0 0
      else if (m mod 10 =? 0)%Z then normaliza p (m / 10) (e + 1)
      else FDec m e
  end.

Definition digito (c : ascii) : option Z := Z.of_nat <$> Ascii.is_nat c.

Definition eh_espaco (c : ascii) : bool :=
  let n := nat_of_ascii c in
  ((9 <=? n) && (n <=? 13) || (28 <=? n) && (n <=? 32))%nat.

Fixpoint tira_esquerda (s : string) : string :=
  match s with
  | String c s' => if eh_espaco c then tira_esquerda s' else s
  | EmptyString => EmptyString
  end.

Definition strip (s : string) : string :=
  String.rev (tira_esquerda (String.rev (tira_esquerda s))).

Definition minuscula (c : ascii) : ascii :=
  let n := nat_of_ascii c in
  if ((65 <=? n) && (n <=? 90))%nat then ascii_of_nat (n + 32) else c.

Fixpoint lower (s : string) : string :=
  match s with
  | EmptyString => EmptyString
  | String c s' => String (minuscula c) (lower s')
  end.

(** [digit (["_"] digit)*] after its first digit: value so far, digits
    read, and what follows. *)
Fixpoint digitos_cont (acc : Z) (n : nat) (s : string) : Z * nat * string :=
  match s with
  | String c s' =>
      match digito c with
      | Some d => digitos_cont (10 * acc + d) (S n) s'
      | None =>
          if Ascii.eqb c "_" then
            match s' with
            | String c2 s'' =>
                match digito c2 with
                | Some d => digitos_cont (10 * acc + d) (S n) s''
                | None => (acc, n, s)
                end
            | EmptyString => (acc, n, s)
            end
          else (acc, n, s)
      end
  | EmptyString => (acc, n, s)
  end.

Definition digitpart (s : string) : option (Z * nat * string) :=
  match s with
  | String c s' => (fun d => digitos_cont d 1 s') <$> digito c
  | EmptyString => None
  end.

Definition le_sinal (s : string) : bool * string :=
  match s with
  | String "-" s' => (true, s')
  | String "+" s' => (false, s')
  | _ => (false, s)
  end.

Definition com_sinal (negativo : bool) (z : Z) : Z := if negativo then - z else z.

(** [[sign] digitpart]: the whole string of [int(s)], the exponent of a float. *)
Definition le_inteiro (s : string) : option (Z * string) :=
  let '(neg, s1) := le_sinal s in
  '(v, _, resto) ← digitpart s1;
  Some (com_sinal neg v, resto).

Definition str_para_int (s : string) : option Z :=
  '(z, resto) ← le_inteiro (strip s);
  if String.eqb resto "" then Some z else None.

(** [[digitpart] "." digitpart | digitpart ["."]] then an optional exponent. *)
Definition le_decimal (s : string) : option (Z * nat * Z) :=
  let '(inteira, s1) :=
    match digitpart s with
    | Some (v, n, r) => (Some (v, n), r)
    | None => (None, s)
    end in
  let '(ponto, s2) :=
    match s1 with
    | String "." r => (true, r)
    | _ => (false, s1)
    end in
  let '(fracao, s3) :=
    if ponto then
      match digitpart s2 with
      | Some (v, n, r) => (Some (v, n), r)
      | None => (None, s2)
      end
    else (None, s2) in
  '(m, n, casas) ←
    match inteira, fracao with
    | None, None => None
    | Some (vi, ni), None => Some (vi, ni, O)
    | None, Some (vf, nf) => Some (vf, nf, nf)
    | Some (vi, ni), Some (vf, nf) => Some (vi * 10 ^ Z.of_nat nf + vf, (ni + nf)%nat, nf)
    end;
  match s3 with
  | EmptyString => Some (m, n, - Z.of_nat casas)
  | String c r =>
      if Ascii.eqb (minuscula c) "e" then
        '(e, resto) ← le_inteiro r;
        if String.eqb resto "" then Some (m, n, e - Z.of_nat casas) else None
      else None
  end.

Definition str_para_float (s : string) : option pyfloat :=
  let '(neg, s1) := le_sinal (strip s) in
  let nome := lower s1 in
  if String.eqb nome "inf" || String.eqb nome "infinity" then Some (FInf neg)
  else if String.eqb nome "nan" then Some FNaN
  else
    '(m, n, e) ← le_decimal s1;
    Some (normaliza n (com_sinal neg m) e).

Definition py_float (v : valor) : resultado pyfloat :=
  match v with
  | VStr s => from_option retorna (levanta ValueError) (str_para_float s)
  | VInt z => retorna (normaliza (Z.to_nat (Z.log2_up (Z.abs z))) z 0)
  | _ => levanta TypeError
  end.

Definition py_int (v : valor) : resultado Z :=
  match v with
  | VStr s => from_option retorna (levanta ValueError) (str_para_int s)
  | VInt z => retorna z
  | _ => levanta TypeError
  end.

Record data : Type := Data { ano : Z; mes : Z; dia : Z }.

Definition bissexto (y : Z) : bool :=
  ((y mod 4 =? 0) && (negb (y mod 100 =? 0) || (y mod 400 =? 0)))%Z.

Definition dias_no_mes (y m : Z) : Z :=
  if (m =? 2)%Z then (if bissexto y then 29 else 28)
  else if ((m =? 4) || (m =? 6) || (m =? 9) || (m =? 11))%Z then 30
  else 31.

Definition le_digito (s : string) : option (Z * string) :=
  match s with
  | String c r => (fun d => (d, r)) <$> digito c
  | EmptyString => None
  end.

Definition espera (c : ascii) (s : string) : option string :=
  match s with
  | String c' r => if Ascii.eqb c c' then Some r else None
  | EmptyString => None
  end.

(** [%m] is [1[0-2]|0[1-9]|[1-9]]; a shorter alternative can only succeed
    where a longer one did not, because a ['-'] must follow. *)
Definition le_mes (s : string) : option (Z * string) :=
  '(a, r1) ← le_digito s;
  match le_digito r1 with
  | Some (b, r2) =>
      if ((a =? 1) && (b <=? 2))%Z then Some (10 + b, r2)
      else if ((a =? 0) && (1 <=? b))%Z then Some (b, r2)
      else if (1 <=? a)%Z then Some (a, r1) else None
  | None => if (1 <=? a)%Z then Some (a, r1) else None
  end.

(** [%d] is [3[01]|[12]\d|0[1-9]|[1-9]| [1-9]], first alternative that
    matches; the pattern ends there. *)
Definition le_dia (s : string) : option (Z * string) :=
  match s with
  | String " " r => '(b, r2) ← le_digito r; if (1 <=? b)%Z then Some (b, r2) else None
  | _ =>
      '(a, r1) ← le_digito s;
      match le_digito r1 with
      | Some (b, r2) =>
          if ((a =? 3) && (b <=? 1))%Z then Some (30 + b, r2)
          else if ((1 <=? a) && (a <=? 2))%Z then Some (10 * a + b, r2)
          else if ((a =? 0) && (1 <=? b))%Z then Some (b, r2)
          else if (1 <=? a)%Z then Some (a, r1) else None
      | None => if (1 <=? a)%Z then Some (a, r1) else None
      end
  end.

Definition strptime_ymd (s : string) : option data :=
  '(y1, s1) ← le_digito s;
  '(y2, s2) ← le_digito s1;
  '(y3, s3) ← le_digito s2;
  '(y4, s4) ← le_digito s3;
  s5 ← espera "-" s4;
  '(m, s6) ← le_mes s5;
  s7 ← espera "-" s6;
  '(d, s8) ← le_dia s7;
  let y := (1000 * y1 + 100 * y2 + 10 * y3 + y4)%Z in
  if String.eqb s8 "" && (1 <=? y)%Z && (d <=? dias_no_mes y m)%Z
  then Some (Data y m d) else None.

(** [converter_data]: the bare [except] turns every failure into [None]. *)
Definition converter_data (data_str : valor) : option data :=
  if verdadeiro data_str then
    match data_str with
    | VStr s => strptime_ymd s
    | _ => None
    end
  else None.

(** ** [extrair_dados_nfe] *)

(** The [cabecalho] dict built by the extraction.  The text fields hold
    whatever [.get] returned, which is a [str] only when the element has
    no children. *)
Record cabecalho : Type := Cabecalho {
  cab_chave_acesso : string;
  cab_numero_nf : valor;
  cab_serie : valor;
  cab_data_emissao : option data;
  cab_data_saida_entrada : option data;
  cab_tipo_operacao : valor;
  cab_cnpj_emitente : valor;
  cab_nome_emitente : valor;
  cab_cnpj_destinatario : valor;
  cab_nome_destinatario : valor;
  cab_valor_total : pyfloat;
  cab_valor_icms : pyfloat;
  cab_valor_pis : pyfloat;
  cab_valor_cofins : pyfloat
}.

(** One [item_data] dict. *)
Record item : Type := Item {
  item_chave_acesso : string;
  item_numero_item : Z;
  item_codigo_produto : valor;
  item_descricao_produto : valor;
  item_cfop : valor;
  item_unidade_comercial : valor;
  item_quantidade_comercial : pyfloat;
  item_valor_unitario_comercial : pyfloat;
  item_valor_total_produto : pyfloat;
  item_valor_icms : pyfloat;
  item_valor_pis : pyfloat;
  item_valor_cofins : pyfloat
}.

Definition dict_vazio : valor := VDict [].

(** [x_tipo = next(iter(x.values())) if x else {}] *)
Definition tipo_do_imposto (x : valor) : resultado valor :=
  if verdadeiro x then primeiro_valor x else retorna dict_vazio.

(** [float(d.get(k, 0))] *)
Definition campo_float (d : valor) (k : string) : resultado pyfloat :=
  v <- py_get d k (VInt 0) ;;
  py_float v.

(** The three steps the loop body takes for one tax, put together:
    [imposto.get(nome, {})], its first variant, and [float] of the field
    [campo] of that variant.  Lemma [extrair_item_inr] below shows that
    [extrair_item] stores exactly this for ICMS, PIS and COFINS. *)
Definition valor_do_imposto (imposto : valor) (nome campo : string) : resultado pyfloat :=
  x <- py_get imposto nome dict_vazio ;;
  x_tipo <- tipo_do_imposto x ;;
  campo_float x_tipo campo.

(** The body of the [for item in det] loop. *)
Definition extrair_item (chave_acesso : string) (it : valor) : resultado item :=
  prod <- py_get it "prod" dict_vazio ;;
  imposto <- py_get it "imposto" dict_vazio ;;
  icms <- py_get imposto "ICMS" dict_vazio ;;
  icms_tipo <- tipo_do_imposto icms ;;
  pis <- py_get imposto "PIS" dict_vazio ;;
  pis_tipo <- tipo_do_imposto pis ;;
  cofins <- py_get imposto "COFINS" dict_vazio ;;
  cofins_tipo <- tipo_do_imposto cofins ;;
  n_item <- py_get it "@nItem" (VInt 0) ;;
  numero_item <- py_int n_item ;;
  codigo_produto <- py_get prod "cProd" (VStr "") ;;
  descricao_produto <- py_get prod "xProd" (VStr "") ;;
  cfop <- py_get prod "CFOP" (VStr "") ;;
  unidade_comercial <- py_get prod "uCom" (VStr "") ;;
  quantidade_comercial <- campo_float prod "qCom" ;;
  valor_unitario_comercial <- campo_float prod "vUnCom" ;;
  valor_total_produto <- campo_float prod "vProd" ;;
  valor_icms <- campo_float icms_tipo "vICMS" ;;
  valor_pis <- campo_float pis_tipo "vPIS" ;;
  valor_cofins <- campo_float cofins_tipo "vCOFINS" ;;
  retorna (Item chave_acesso numero_item codigo_produto descricao_produto cfop
             unidade_comercial quantidade_comercial valor_unitario_comercial
             valor_total_produto valor_icms valor_pis valor_cofins).

(** [if not isinstance(det, list): det = [det]] *)
Definition normaliza_det (det : valor) : list valor :=
  match det with
  | VList l => l
  | _ => [det]
  end.

(** The [try] block of [extrair_dados_nfe]. *)
Definition extrair_dados_nfe_try (xml_dict : valor) : resultado (cabecalho * list item) :=
  nfe <- py_get xml_dict "NFe" dict_vazio ;;
  inf_nfe <- py_get nfe "infNFe" dict_vazio ;;
  ide <- py_get inf_nfe "ide" dict_vazio ;;
  emit <- py_get inf_nfe "emit" dict_vazio ;;
  dest <- py_get inf_nfe "dest" dict_vazio ;;
  total <- py_get inf_nfe "total" dict_vazio ;;
  icms_tot <- py_get total "ICMSTot" dict_vazio ;;
  det0 <- py_get inf_nfe "det" (VList []) ;;
  let det := normaliza_det det0 in
  id <- py_get inf_nfe "@Id" (VStr "") ;;
  chave_acesso <- py_replace id "NFe" "" ;;
  numero_nf <- py_get ide "nNF" (VStr "") ;;
  serie <- py_get ide "serie" (VStr "") ;;
  d_emi <- py_get ide "dEmi" (VStr "") ;;
  d_sai_ent <- py_get ide "dSaiEnt" (VStr "") ;;
  tipo_operacao <- py_get ide "natOp" (VStr "") ;;
  cnpj_emitente <- py_get emit "CNPJ" (VStr "") ;;
  nome_emitente <- py_get emit "xNome" (VStr "") ;;
  cnpj_destinatario <- py_get dest "CNPJ" (VStr "") ;;
  nome_destinatario <- py_get dest "xNome" (VStr "") ;;
  valor_total <- campo_float icms_tot "vNF" ;;
  valor_icms <- campo_float icms_tot "vICMS" ;;
  valor_pis <- campo_float icms_tot "vPIS" ;;
  valor_cofins <- campo_float icms_tot "vCOFINS" ;;
  let cab :=
    Cabecalho chave_acesso numero_nf serie (converter_data d_emi)
      (converter_data d_sai_ent) tipo_operacao cnpj_emitente nome_emitente
      cnpj_destinatario nome_destinatario valor_total valor_icms valor_pis
      valor_cofins in
  itens <- para_cada (extrair_item chave_acesso) det ;;
  retorna (cab, itens).

(** ** Paths and the file system *)

(** A resolved absolute [Path], as its components. *)
Abbreviation caminho := (list string) (only parsing).

(** [Path.name] *)
Definition nome (p : caminho) : string := List.last p "".

(** [Path.parent] *)
Definition pai (p : caminho) : caminho := removelast p.

(** [pasta / nome] *)
Definition barra (pasta : caminho) (n : string) : caminho := pasta ++ [n].

(** [name.rfind('.')] *)
Fixpoint rfind_ponto (s : string) : option nat :=
  match s with
  | EmptyString => None
  | String c s' =>
      match rfind_ponto s' with
      | Some i => Some (S i)
      | None => if Ascii.eqb c "." then Some O else None
      end
  end.

(** Where [Path.suffix] starts: the last dot, unless it is the first or
    the last character of the name. *)
Definition corte (n : string) : nat :=
  match rfind_ponto n with
  | Some i => if ((0 <? i) && (i <? String.length n - 1))%nat then i else String.length n
  | None => String.length n
  end.

(** [Path.stem] and [Path.suffix], as [pathlib] has them up to Python 3.13 *)
Definition stem (p : caminho) : string := substring 0 (corte (nome p)) (nome p).
Definition suffix (p : caminho) : string :=
  substring (corte (nome p)) (String.length (nome p) - corte (nome p)) (nome p).

(** [p.relative_to(base)]: [None] stands for the [ValueError]. *)
Fixpoint relative_to (p base : caminho) : option caminho :=
  match base, p with
  | [], _ => Some p
  | b :: base', x :: p' => if String.eqb b x then relative_to p' base' else None
  | _ :: _, [] => None
  end.

Fixpoint junta (l : caminho) : string :=
  match l with
  | [] => ""
  | [x] => x
  | x :: l' => x +:+ "/" +:+ junta l'
  end.

(** [str(p)] for a relative path. *)
Definition str_relativo (l : caminho) : string :=
  match l with [] => "." | _ => junta l end.

(** A file is known by what reading it as UTF-8 and handing the text to
    [xmltodict.parse] gives. *)
Inductive texto : Type :=
  | Malformado
  | BemFormado (arvore : valor).

Inductive conteudo : Type :=
  | BytesInvalidos
  | Texto (t : texto).

Inductive no : Type :=
  | Arquivo (c : conteudo)
  | Pasta.

Abbreviation sistema_arquivos := (gmap (list string) no) (only parsing).

Definition existe (fs : sistema_arquivos) (p : caminho) : bool :=
  match fs !! p with Some _ => true | None => false end.

Definition eh_pasta (fs : sistema_arquivos) (p : caminho) : bool :=
  match fs !! p with Some Pasta => true | _ => false end.

Definition eh_arquivo (fs : sistema_arquivos) (p : caminho) : bool :=
  match fs !! p with Some (Arquivo _) => true | _ => false end.

(** [open(p, 'r', encoding='utf-8').read()] *)
Definition ler (fs : sistema_arquivos) (p : caminho) : resultado texto :=
  match fs !! p with
  | None => levanta FileNotFoundError
  | Some Pasta => levanta IsADirectoryError
  | Some (Arquivo BytesInvalidos) => levanta UnicodeDecodeError
  | Some (Arquivo (Texto t)) => retorna t
  end.

Definition xmltodict_parse (t : texto) : resultado valor :=
  match t with
  | Malformado => levanta ExpatError
  | BemFormado arvore => retorna arvore
  end.

(** Renaming a directory renames every path below it. *)
Definition troca_prefixo (src dst p : caminho) : caminho :=
  match relative_to p src with
  | Some resto => dst ++ resto
  | None => p
  end.

(** [shutil.move(src, dst)].  A [dst] that is a directory receives the
    source under its own name; otherwise the source is renamed to [dst],
    which needs the source to exist and the parent of [dst] to be a
    directory. *)
Definition shutil_move (fs : sistema_arquivos) (src dst : caminho)
  : resultado sistema_arquivos :=
  let real_dst := if eh_pasta fs dst then barra dst (nome src) else dst in
  if eh_pasta fs dst && existe fs real_dst then levanta ShutilError
  else
    match fs !! src with
    | None => levanta FileNotFoundError
    | Some (Arquivo c) =>
        if eh_pasta fs (pai real_dst)
        then retorna (<[real_dst := Arquivo c]> (delete src fs))
        else levanta FileNotFoundError
    | Some Pasta =>
        if negb (eh_pasta fs (pai real_dst)) then levanta FileNotFoundError
        else if existe fs real_dst then levanta NotADirectoryError
        else if bool_decide (is_Some (relative_to real_dst src)) then levanta ShutilError
        else retorna (kmap (troca_prefixo src real_dst) fs)
    end.

(** ** [gerar_nome_unico] *)

(** [f'{contador:03d}'] *)
Fixpoint preenche (faltam : nat) (d : uint) : uint :=
  match faltam with
  | O => d
  | S k => preenche k (D0 d)
  end.

Definition formata_03d (contador : nat) : string :=
  let d := Nat.to_uint contador in
  NilEmpty.string_of_uint (preenche (3 - Decimal.nb_digits d) d).

Definition novo_nome (arquivo_original : caminho) (contador : nat) : string :=
  stem arquivo_original +:+ "_" +:+ formata_03d contador +:+ "-" +:+ suffix arquivo_original.

(** The [while nome_destino.exists()] loop, run for at most [voltas]
    iterations: [None] when the loop has not left by then. *)
Fixpoint gerar_nome_unico_laco (voltas : nat) (fs : sistema_arquivos)
    (arquivo_original pasta_destino : caminho) (contador : nat) (nome_destino : caminho)
  : option caminho :=
  if existe fs nome_destino then
    match voltas with
    | O => None
    | S v =>
        gerar_nome_unico_laco v fs arquivo_original pasta_destino (S contador)
          (barra pasta_destino (novo_nome arquivo_original contador))
    end
  else Some nome_destino.

Definition gerar_nome_unico_em (voltas : nat) (fs : sistema_arquivos)
    (arquivo_original pasta_destino : caminho) : option caminho :=
  gerar_nome_unico_laco voltas fs arquivo_original pasta_destino 1
    (barra pasta_destino (nome arquivo_original)).

(** The loop leaves within [S (size fs)] iterations (lemma
    [gerar_nome_unico_laco_termina] below), so the default is never used. *)
Definition gerar_nome_unico (fs : sistema_arquivos)
    (arquivo_original pasta_destino : caminho) : caminho :=
  default (barra pasta_destino (nome arquivo_original))
    (gerar_nome_unico_em (S (size fs)) fs arquivo_original pasta_destino).

(** ** The database *)

(** A row of [nfe_cabecalho]: the [AUTOINCREMENT] id and the sixteen
    columns the program writes.  [data_processamento] is filled in by
    SQLite with the time of the write and is left out. *)
Record linha_cabecalho : Type := LinhaCabecalho {
  lc_id : Z;
  lc_cab : cabecalho;
  lc_arquivo_xml : string;
  lc_caminho_original : string
}.

Record linha_item : Type := LinhaItem {
  li_id : Z;
  li_item : item
}.

(** The two tables in rowid order, and the largest id each table has
    ever used ([sqlite_sequence]). *)
Record banco : Type := Banco {
  nfe_cabecalho : list linha_cabecalho;
  nfe_itens : list linha_item;
  seq_cabecalho : Z;
  seq_itens : Z
}.

(** A [sqlite3] connection in its default mode: the first data-changing
    statement opens a transaction, whose effects stay in [transacao]
    until [commit] writes them to [disco]. *)
Record conexao : Type := Conexao {
  disco : banco;
  transacao : option banco
}.

(** [sqlite3.connect]; opening the database file is taken to succeed. *)
Definition connect (b : banco) : conexao := Conexao b None.

Definition vista (c : conexao) : banco := default (disco c) (transacao c).

Definition commit (c : conexao) : conexao := Conexao (vista c) None.

(** What is on disk once the connection is gone: closing it, or dropping
    it with the frame of a raising call, rolls an open transaction back. *)
Definition close (c : conexao) : banco := disco c.

(** What [sqlite3] can bind to a [?]. *)
Definition vinculavel (v : valor) : bool :=
  match v with
  | VNone | VStr _ => true
  | VInt z => ((- 2 ^ 63 <=? z) && (z <? 2 ^ 63))%Z
  | VDict _ | VList _ => false
  end.

(** The parameters are bound in order; the first that does not bind
    raises. *)
Fixpoint vincula (parametros : list valor) : resultado unit :=
  match parametros with
  | [] => retorna tt
  | v :: resto =>
      if vinculavel v then vincula resto
      else
        match v with
        | VInt _ => levanta OverflowError
        | _ => levanta SqliteError
        end
  end.

(** [cursor.execute(sql, parametros)] for a statement that changes data:
    nothing is executed when a parameter does not bind. *)
Definition execute (parametros : list valor) (efeito : banco -> banco) : acao conexao unit :=
  eleva (vincula parametros) ;;;
  altera (fun c => Conexao (disco c) (Some (efeito (vista c)))).

(** [INSERT OR REPLACE INTO nfe_cabecalho]: rows in conflict on the
    [UNIQUE] column [chave_acesso] are deleted, the new row gets the next
    id. *)
Definition insert_or_replace_cabecalho (cab : cabecalho) (arquivo_xml caminho_original : string)
    (b : banco) : banco :=
  let outras :=
    filter (fun l => cab_chave_acesso (lc_cab l) ≠ cab_chave_acesso cab) (nfe_cabecalho b) in
  let id := (seq_cabecalho b + 1)%Z in
  Banco (outras ++ [LinhaCabecalho id cab arquivo_xml caminho_original])
        (nfe_itens b) id (seq_itens b).

(** [DELETE FROM nfe_itens WHERE chave_acesso = ?] *)
Definition delete_itens (chave : string) (b : banco) : banco :=
  Banco (nfe_cabecalho b)
        (filter (fun l => item_chave_acesso (li_item l) ≠ chave) (nfe_itens b))
        (seq_cabecalho b) (seq_itens b).

(** [INSERT INTO nfe_itens] *)
Definition insert_item (it : item) (b : banco) : banco :=
  let id := (seq_itens b + 1)%Z in
  Banco (nfe_cabecalho b) (nfe_itens b ++ [LinhaItem id it]) (seq_cabecalho b) id.

(** The parameters of the two [INSERT]s that may fail to bind.  Floats,
    dates and the two file-name strings always bind and are not listed; a
    Python [int] binds when it fits 64 bits. *)
Definition parametros_cabecalho (cab : cabecalho) : list valor :=
  [VStr (cab_chave_acesso cab); cab_numero_nf cab; cab_serie cab; cab_tipo_operacao cab;
   cab_cnpj_emitente cab; cab_nome_emitente cab; cab_cnpj_destinatario cab;
   cab_nome_destinatario cab].

Definition parametros_item (it : item) : list valor :=
  [VStr (item_chave_acesso it); VInt (item_numero_item it); item_codigo_produto it;
   item_descricao_produto it; item_cfop it; item_unidade_comercial it].

(** The statements of [salvar_no_banco] between [connect] and [close]. *)
Definition salvar_na_conexao (cab : cabecalho) (itens : list item)
    (nome_arquivo caminho_original : string) : acao conexao unit :=
  execute (parametros_cabecalho cab)
    (insert_or_replace_cabecalho cab nome_arquivo caminho_original) ;;;
  execute [VStr (cab_chave_acesso cab)] (delete_itens (cab_chave_acesso cab)) ;;;
  para_cada_acao (fun it => execute (parametros_item it) (insert_item it)) itens ;;;
  altera commit.

(** ** The world outside the process *)

Inductive nivel : Type := DEBUG | INFO | ERROR.

(** The messages of the [logging] calls, by the text they format. *)
Inductive mensagem : Type :=
  (* Erro ao extrair dados da NFe: {e} *)
  | MsgErroExtrair (e : excecao)
  (* NFe salva no banco: {numero_nf} - {n} itens *)
  | MsgNFeSalva (numero_nf : valor) (n_itens : nat)
  (* Erro ao salvar no banco de dados: {e} *)
  | MsgErroSalvar (e : excecao)
  (* Processando arquivo: {caminho_relativo} *)
  | MsgProcessando (relativo : string)
  (* Arquivo processado com sucesso: {name} *)
  | MsgProcessado (n : string)
  (* Erro ao processar {caminho_relativo}: {e} *)
  | MsgErroProcessar (relativo : string) (e : excecao)
  (* Arquivo movido para pasta de erros: {name} *)
  | MsgMovidoParaErros (n : string)
  (* Erro ao mover arquivo para pasta de erros: {e2} *)
  | MsgErroMover (e : excecao)
  (* Arquivo ignorado (nao e XML): {name} *)
  | MsgIgnorado (n : string)
  (* Arquivo fora da pasta monitorada: {arquivo} *)
  | MsgForaDaPasta (arquivo : list string)
  (* Arquivo nao existe mais: {name} *)
  | MsgNaoExisteMais (n : string)
  (* Novo arquivo XML detectado: {caminho_relativo} *)
  | MsgNovoArquivo (relativo : string)
  (* Processando arquivos XML existentes... *)
  | MsgProcessandoExistentes
  (* Processando arquivo existente: {caminho_relativo} *)
  | MsgProcessandoExistente (relativo : string)
  (* Processamento inicial concluido! {n} arquivos processados *)
  | MsgInicialConcluido (n : nat)
  (* Pasta criada: {pasta} *)
  | MsgPastaCriada (pasta : list string)
  (* Banco de dados inicializado com sucesso *)
  | MsgBancoInicializado
  (* Processador de NFe inicializado, and the lines after it *)
  | MsgInicializado
  (* Iniciando processador de NFe... *)
  | MsgIniciando
  (* Diretorio base: ..., and the lines after it *)
  | MsgDiretorios
  (* '=' * 60 *)
  | MsgSeparador
  (* Monitoramento ativo! Pressione Ctrl+C para parar. *)
  | MsgMonitoramentoAtivo
  (* Erro inesperado: {e} *)
  | MsgErroInesperado (e : excecao)
  (* Processador de NFe finalizado com sucesso! *)
  | MsgFinalizado.

(** What the process does besides touching files and the database, in
    the order it does it. *)
Inductive evento : Type :=
  | EvLog (n : nivel) (m : mensagem)
  | EvSleep (segundos : nat)
  | EvObserver                                       (* Observer() *)
  | EvSchedule (pasta : list string) (recursive : bool) (* observer.schedule(...) *)
  | EvStart.                                         (* observer.start() *)

Record mundo : Type := Mundo {
  fs : gmap (list string) no;
  bd : banco;
  rastro : list evento
}.

Definition com_fs (f : sistema_arquivos) (w : mundo) : mundo := Mundo f (bd w) (rastro w).
Definition com_bd (b : banco) (w : mundo) : mundo := Mundo (fs w) b (rastro w).

Definition emite (ev : evento) : acao mundo unit :=
  altera (fun w => Mundo (fs w) (bd w) (rastro w ++ [ev])).

Definition registra (n : nivel) (m : mensagem) : acao mundo unit := emite (EvLog n m).

(** Code that works on a fresh connection to the database file; nothing
    but what was committed is there once the connection is gone. *)
Definition na_conexao {A} (m : acao conexao A) : acao mundo A :=
  fun w => let '(r, c) := m (connect (bd w)) in (r, com_bd (close c) w).

Definition mover (src dst : caminho) : acao mundo unit :=
  fun w =>
    match shutil_move (fs w) src dst with
    | inl e => (inl e, w)
    | inr f => (inr tt, com_fs f w)
    end.

(** ** The methods of [ProcessadorNFe] *)

(** The attributes of [self] that the methods read. *)
Record processador : Type := Processador {
  pasta_xml : list string;
  pasta_processados : list string;
  pasta_erros : list string;
  busca_recursiva : bool
}.

Definition extrair_dados_nfe (xml_dict : valor) : acao mundo (cabecalho * list item) :=
  tenta (eleva (extrair_dados_nfe_try xml_dict))
        (fun e => registra ERROR (MsgErroExtrair e) ;;; eleva (levanta e)).

Definition salvar_no_banco (cab : cabecalho) (itens : list item)
    (nome_arquivo caminho_original : string) : acao mundo unit :=
  tenta (na_conexao (salvar_na_conexao cab itens nome_arquivo caminho_original) ;;;
         registra INFO (MsgNFeSalva (cab_numero_nf cab) (length itens)))
        (fun e => registra ERROR (MsgErroSalvar e) ;;; eleva (levanta e)).

(** [arquivo.relative_to(self.pasta_xml)], or [arquivo.name] on [ValueError],
    as the text that is logged and stored. *)
Definition caminho_relativo (self : processador) (arquivo : caminho) : string :=
  match relative_to arquivo (pasta_xml self) with
  | Some rel => str_relativo rel
  | None => nome arquivo
  end.

(** The [try] block of [processar_xml]. *)
Definition processar_xml_try (self : processador) (arquivo_xml : caminho) : acao mundo unit :=
  registra INFO (MsgProcessando (caminho_relativo self arquivo_xml)) ;;;
  w <~ obtem ;;
  xml_content <~ eleva (ler (fs w) arquivo_xml) ;;
  xml_dict <~ eleva (xmltodict_parse xml_content) ;;
  extraido <~ extrair_dados_nfe xml_dict ;;
  salvar_no_banco (fst extraido) (snd extraido) (nome arquivo_xml)
    (caminho_relativo self arquivo_xml) ;;;
  w <~ obtem ;;
  mover arquivo_xml (gerar_nome_unico (fs w) arquivo_xml (pasta_processados self)) ;;;
  registra INFO (MsgProcessado (nome arquivo_xml)).

(** The inner [try] of the handler: the move to [pasta_erros]. *)
Definition mover_para_erros (self : processador) (arquivo_xml : caminho) : acao mundo unit :=
  tenta (w <~ obtem ;;
         mover arquivo_xml (gerar_nome_unico (fs w) arquivo_xml (pasta_erros self)) ;;;
         registra INFO (MsgMovidoParaErros (nome arquivo_xml)))
        (fun e2 => registra ERROR (MsgErroMover e2)).

Definition processar_xml (self : processador) (arquivo_xml : caminho) : acao mundo unit :=
  tenta (processar_xml_try self arquivo_xml)
        (fun e =>
           registra ERROR (MsgErroProcessar (caminho_relativo self arquivo_xml) e) ;;;
           mover_para_erros self arquivo_xml).

(** ** Live events and the backlog sweep *)

(** The event object handed to [on_created]. *)
Record evento_criacao : Type := EventoCriacao {
  is_directory : bool;
  src_path : list string
}.

(** [on_created].  The world it runs in is the one found when the
    [time.sleep(1)] is over. *)
Definition on_created (self : processador) (event : evento_criacao) : acao mundo unit :=
  if negb (is_directory event) then
    let arquivo := src_path event in
    if negb (String.eqb (lower (suffix arquivo)) ".xml")
    then registra DEBUG (MsgIgnorado (nome arquivo))
    else
      match relative_to arquivo (pasta_xml self) with
      | None => registra DEBUG (MsgForaDaPasta arquivo)
      | Some rel =>
          emite (EvSleep 1) ;;;
          w <~ obtem ;;
          if negb (existe (fs w) arquivo)
          then registra DEBUG (MsgNaoExisteMais (nome arquivo))
          else
            registra INFO (MsgNovoArquivo (str_relativo rel)) ;;;
            processar_xml self arquivo
      end
  else puro tt.

(** Matching of a name against a pattern of literal characters, [*] and
    [?], case-sensitive as on POSIX (the patterns of the program have no
    bracket expression). *)
Fixpoint fnmatch (padrao s : string) : bool :=
  match padrao with
  | EmptyString => match s with EmptyString => true | _ => false end
  | String "*" padrao' =>
      (fix estrela (s : string) : bool :=
         fnmatch padrao' s
         || match s with
            | String _ s' => estrela s'
            | EmptyString => false
            end) s
  | String "?" padrao' =>
      match s with
      | String _ s' => fnmatch padrao' s'
      | EmptyString => false
      end
  | String c padrao' =>
      match s with
      | String d s' => Ascii.eqb c d && fnmatch padrao' s'
      | EmptyString => false
      end
  end.

(** [p] is strictly below [raiz]. *)
Definition abaixo_de (raiz p : caminho) : bool :=
  match relative_to p raiz with
  | Some (_ :: _) => true
  | _ => false
  end.

(** [list(raiz.glob(padrao))]: the entries directly in [raiz] whose name
    matches, in the order the file system lists them. *)
Definition glob (f : sistema_arquivos) (raiz : caminho) (padrao : string) : list caminho :=
  filter (fun p => pai p = raiz ∧ abaixo_de raiz p = true ∧ fnmatch padrao (nome p) = true)
         (map fst (map_to_list f)).

(** [list(raiz.rglob(padrao))]: the same at any depth below [raiz]. *)
Definition rglob (f : sistema_arquivos) (raiz : caminho) (padrao : string) : list caminho :=
  filter (fun p => abaixo_de raiz p = true ∧ fnmatch padrao (nome p) = true)
         (map fst (map_to_list f)).

(** The files the sweep is going to look at. *)
Definition arquivos_existentes (self : processador) (f : sistema_arquivos) : list caminho :=
  if busca_recursiva self
  then rglob f (pasta_xml self) "*.xml"
  else glob f (pasta_xml self) "*xml".

(** The [for arquivo in arquivos_xml] loop; [is_file] is asked when the
    turn of the file comes.  Returns [arquivos_processados]. *)
Fixpoint processar_lista (self : processador) (arquivos : list caminho) (processados : nat)
  : acao mundo nat :=
  match arquivos with
  | [] => puro processados
  | arquivo :: resto =>
      w <~ obtem ;;
      if eh_arquivo (fs w) arquivo then
        registra INFO (MsgProcessandoExistente (caminho_relativo self arquivo)) ;;;
        processar_xml self arquivo ;;;
        processar_lista self resto (S processados)
      else processar_lista self resto processados
  end.

Definition processar_arquivos_existentes (self : processador) : acao mundo unit :=
  registra INFO MsgProcessandoExistentes ;;;
  w <~ obtem ;;
  n <~ processar_lista self (arquivos_existentes self (fs w)) O ;;
  registra INFO (MsgInicialConcluido n).

(** ** Start-up *)

(** [Path.mkdir(parents=True, exist_ok=True)] *)
Fixpoint mkdir_p (f : sistema_arquivos) (feito resto : caminho) : resultado sistema_arquivos :=
  match resto with
  | [] => retorna f
  | x :: resto' =>
      let p := barra feito x in
      match f !! p with
      | Some Pasta => mkdir_p f p resto'
      | Some (Arquivo _) =>
          match resto' with
          | [] => levanta FileExistsError
          | _ => levanta NotADirectoryError
          end
      | None => mkdir_p (<[p := Pasta]> f) p resto'
      end
  end.

Definition criar_pasta (pasta : caminho) : acao mundo unit :=
  w <~ obtem ;;
  if negb (existe (fs w) pasta) then
    f <~ eleva (mkdir_p (fs w) [] pasta) ;;
    altera (com_fs f) ;;;
    registra INFO (MsgPastaCriada pasta)
  else puro tt.

Definition criar_pastas (self : processador) : acao mundo unit :=
  para_cada_acao criar_pasta [pasta_xml self; pasta_processados self; pasta_erros self].

(** [inicializar_banco] creates the two tables when they are missing;
    in [banco] they are always there. *)
Definition inicializar_banco : acao mundo unit :=
  registra INFO MsgBancoInicializado.

(** [ProcessadorNFe.__init__] on the resolved configuration. *)
Definition init (self : processador) : acao mundo processador :=
  criar_pastas self ;;;
  inicializar_banco ;;;
  registra INFO MsgInicializado ;;;
  puro self.

(** The [try] block of [main] from the creation of the processor to the
    endless [while True: time.sleep(1)]. *)
Definition main_try (configuracao : processador) : acao mundo unit :=
  registra INFO MsgIniciando ;;;
  processador <~ init configuracao ;;
  registra INFO MsgDiretorios ;;;
  registra INFO MsgSeparador ;;;
  processar_arquivos_existentes processador ;;;
  registra INFO MsgSeparador ;;;
  emite EvObserver ;;;
  emite (EvSchedule (pasta_xml processador) true) ;;;
  emite EvStart ;;;
  registra INFO MsgMonitoramentoAtivo ;;;
  registra INFO MsgSeparador.

(** [main] up to the endless loop; the handler of [Exception] logs, and
    has an observer to stop only when one was created. *)
Definition main (configuracao : processador) : acao mundo unit :=
  tenta (main_try configuracao)
        (fun e => registra ERROR (MsgErroInesperado e) ;;;
                  registra INFO MsgFinalizado).

(** ** The vocabulary of the properties, and example data *)

(** The value under key [k], when [d] is a mapping that has the key. *)
Definition campo (d : valor) (k : string) : option valor :=
  match d with
  | VDict campos => procura k campos
  | _ => None
  end.

Definition navega (d : valor) (k : string) (padrao : valor) : valor :=
  default padrao (campo d k).

(** The [infNFe] block of a document. *)
Definition bloco_inf_nfe (xml_dict : valor) : valor :=
  navega (navega xml_dict "NFe" dict_vazio) "infNFe" dict_vazio.

(** The number of line items a document holds: none when the field is
    missing, the length of the sequence when it is one, one for a lone
    structure. *)
Definition numero_de_itens (det : option valor) : nat :=
  match det with
  | None => 0
  | Some (VList l) => length l
  | Some _ => 1
  end.

(** The identifier attribute, empty when it is missing. *)
Definition identificador (xml_dict : valor) : valor :=
  navega (bloco_inf_nfe xml_dict) "@Id" (VStr "").

(** Removal of a prefix, in the words of the specification. *)
Fixpoint sem_prefixo (prefixo s : string) : string :=
  match prefixo, s with
  | EmptyString, _ => s
  | String a p', String b s' =>
      if comeca_com prefixo s then sem_prefixo p' s' else s
  | String _ _, EmptyString => s
  end.

(** [sub] occurs somewhere in [s]. *)
Fixpoint ocorre (sub s : string) : bool :=
  comeca_com sub s
  || match s with
     | String _ s' => ocorre sub s'
     | EmptyString => false
     end.

Definition texto_de (pares : list (string * string)) : valor :=
  VDict (map (fun p => (fst p, VStr (snd p))) pares).

(** A line item with the given [imposto] block. *)
Definition det_exemplo (n_item : string) (imposto : valor) : valor :=
  VDict [("@nItem", VStr n_item);
         ("prod", texto_de [("cProd", "0001"); ("xProd", "PAPEL A4"); ("CFOP", "5102");
                            ("uCom", "CX"); ("qCom", "2.0000"); ("vUnCom", "50.00");
                            ("vProd", "100.00")]);
         ("imposto", imposto)].

Definition imposto_exemplo : valor :=
  VDict [("ICMS", VDict [("ICMS00", texto_de [("orig", "0"); ("CST", "00"); ("vICMS", "18.00")])]);
         ("PIS", VDict [("PISAliq", texto_de [("CST", "01"); ("vPIS", "1.65")])]);
         ("COFINS", VDict [("COFINSAliq", texto_de [("CST", "01"); ("vCOFINS", "7.60")])])].

(** A document with the given identifier and, when given, [det] field. *)
Definition documento (id : string) (det : option valor) : valor :=
  VDict [("NFe",
    VDict [("infNFe",
      VDict ([("@Id", VStr id); ("@versao", VStr "4.00");
              ("ide", texto_de [("natOp", "VENDA"); ("serie", "1"); ("nNF", "4");
                                ("dEmi", "2020-07-14")]);
              ("emit", texto_de [("CNPJ", "14200166000187"); ("xNome", "EMITENTE LTDA")]);
              ("dest", texto_de [("CNPJ", "04350564000130"); ("xNome", "DESTINATARIO SA")])]
             ++ match det with Some d => [("det", d)] | None => [] end
             ++ [("total",
                  VDict [("ICMSTot", texto_de [("vICMS", "18.00"); ("vPIS", "1.65");
                                               ("vCOFINS", "7.60"); ("vNF", "100.00")])])]))])].

Definition id_exemplo : string := "NFe35200714200166000187550010000000046550010466".

(** One line item, as a lone structure. *)
Definition doc_exemplo : valor := documento id_exemplo (Some (det_exemplo "1" imposto_exemplo)).

(** Two line items, as a sequence. *)
Definition doc_dois_itens : valor :=
  documento id_exemplo
    (Some (VList [det_exemplo "1" imposto_exemplo; det_exemplo "2" (VDict [])])).

Definition banco_vazio : banco := Banco [] [] 0 0.
Definition mundo_vazio : mundo := Mundo ∅ banco_vazio [].

Definition extraido_de (xml_dict : valor) : cabecalho * list item :=
  match extrair_dados_nfe_try xml_dict with
  | inr r => r
  | inl _ => (Cabecalho "" VNone VNone None None VNone VNone VNone VNone VNone
                zero_float zero_float zero_float zero_float, [])
  end.

Definition cab_exemplo : cabecalho := Eval vm_compute in fst (extraido_de doc_exemplo).
Definition itens_exemplo : list item := Eval vm_compute in snd (extraido_de doc_exemplo).
Definition cab_dois_itens : cabecalho := Eval vm_compute in fst (extraido_de doc_dois_itens).
Definition itens_dois_itens : list item := Eval vm_compute in snd (extraido_de doc_dois_itens).

(** An item whose only variant of ICMS is an empty element. *)
Definition imposto_variante_vazia : valor := VDict [("ICMS", VDict [("ICMS40", VNone)])].

(** The same with a variant that has fields, but not [vICMS]. *)
Definition imposto_variante_isenta : valor :=
  VDict [("ICMS", VDict [("ICMS40", texto_de [("orig", "0"); ("CST", "40")])])].

Definition item_nulo : item :=
  Item "" 0 VNone VNone VNone VNone zero_float zero_float zero_float zero_float zero_float
       zero_float.

Definition item_exemplo : item := Eval vm_compute in hd item_nulo itens_exemplo.

(** The [contador]-th candidate name of the loop of [gerar_nome_unico]. *)
Definition candidato (arquivo pasta : caminho) (contador : nat) : caminho :=
  barra pasta (novo_nome arquivo contador).

(** A file system with a name taken twice in [processados]. *)
Definition fs_exemplo : gmap (list string) no :=
  list_to_map
    [(["xml_nfe"], Pasta); (["processados"], Pasta); (["erros"], Pasta);
     (["xml_nfe"; "nota.xml"], Arquivo (Texto (BemFormado doc_exemplo)));
     (["processados"; "nota.xml"], Arquivo (Texto (BemFormado doc_dois_itens)));
     (["processados"; "nota_001-.xml"], Arquivo (Texto Malformado))].

(** The rows of a key, as a reader of the store sees them. *)
Definition cabecalhos_de (chave : string) (b : banco) : list linha_cabecalho :=
  filter (fun l => cab_chave_acesso (lc_cab l) = chave) (nfe_cabecalho b).

Definition itens_de (chave : string) (b : banco) : list item :=
  filter (fun i => item_chave_acesso i = chave) (li_item <$> nfe_itens b).

(** What the statements of [salvar_no_banco] do to the tables together. *)
Definition efeito_salvar (cab : cabecalho) (itens : list item)
    (nome_arquivo caminho_original : string) (b : banco) : banco :=
  foldl (fun b it => insert_item it b)
        (delete_itens (cab_chave_acesso cab)
           (insert_or_replace_cabecalho cab nome_arquivo caminho_original b))
        itens.

(** Every parameter of every statement binds. *)
Definition tudo_vinculavel (cab : cabecalho) (itens : list item) : bool :=
  forallb vinculavel (parametros_cabecalho cab)
  && forallb (fun it => forallb vinculavel (parametros_item it)) itens.

(** A store that already holds the two-item document of the example key. *)
Definition banco_com_dois : banco :=
  Eval vm_compute in
    efeito_salvar cab_dois_itens itens_dois_itens "antiga.xml" "antiga.xml" banco_vazio.

Definition mundo_com_dois : mundo := Mundo fs_exemplo banco_com_dois [].

(** Reading, parsing and extracting a file. *)
Definition documento_de (f : sistema_arquivos) (arquivo : caminho)
  : resultado (cabecalho * list item) :=
  t <- ler f arquivo ;;
  xml_dict <- xmltodict_parse t ;;
  extrair_dados_nfe_try xml_dict.

Definition com_evento (ev : evento) (w : mundo) : mundo :=
  Mundo (fs w) (bd w) (rastro w ++ [ev]).

(** Reading, parsing, extracting and storing the file all succeed. *)
Definition documento_aceito (f : sistema_arquivos) (arquivo : caminho) : bool :=
  match documento_de f arquivo with
  | inl _ => false
  | inr (cab, itens) => tudo_vinculavel cab itens
  end.

Definition processador_exemplo : processador :=
  Processador ["xml_nfe"] ["processados"] ["erros"] true.

(** The three directories and a file that is not well-formed XML. *)
Definition mundo_malformado : mundo :=
  Mundo (list_to_map
           [(["xml_nfe"], Pasta); (["processados"], Pasta); (["erros"], Pasta);
            (["xml_nfe"; "ruim.xml"], Arquivo (Texto Malformado))])
        banco_vazio [].

(** The watched directory with one good file; [processados] is gone. *)
Definition mundo_sem_processados : mundo :=
  Mundo (list_to_map
           [(["xml_nfe"], Pasta); (["erros"], Pasta);
            (["xml_nfe"; "nota.xml"], Arquivo (Texto (BemFormado doc_exemplo)))])
        banco_vazio [].

(** The same without [erros] either. *)
Definition mundo_sem_destinos : mundo :=
  Mundo (list_to_map
           [(["xml_nfe"], Pasta);
            (["xml_nfe"; "nota.xml"], Arquivo (Texto (BemFormado doc_exemplo)))])
        banco_vazio [].

(** [s] ends with [sufixo]. *)
Definition termina_com (sufixo s : string) : Prop := exists pre, s = pre +:+ sufixo.

Definition processador_plano : processador :=
  Processador ["xml_nfe"] ["processados"] ["erros"] false.

(** The watched directory holds a good document whose name has no dot. *)
Definition mundo_sem_ponto : mundo :=
  Mundo (list_to_map
           [(["xml_nfe"], Pasta); (["processados"], Pasta); (["erros"], Pasta);
            (["xml_nfe"; "notaxml"], Arquivo (Texto (BemFormado doc_exemplo)))])
        banco_vazio [].

(** The watched directory holds a good document named in capitals. *)
Definition mundo_maiusculas : mundo :=
  Mundo (list_to_map
           [(["xml_nfe"], Pasta); (["processados"], Pasta); (["erros"], Pasta);
            (["xml_nfe"; "DOC.XML"], Arquivo (Texto (BemFormado doc_exemplo)))])
        banco_vazio [].

Definition eh_log (ev : evento) : bool :=
  match ev with
  | EvLog _ _ => true
  | _ => false
  end.

(** [w'] is [w] after more logging, and nothing else on the trace. *)
Definition so_registrou (w w' : mundo) : Prop :=
  exists delta, rastro w' = rastro w ++ delta /\ forallb eh_log delta = true.

(** One turn of the sweep for a path that is a file. *)
Definition ingere (self : processador) (w : mundo) (arquivo : caminho) : mundo :=
  snd (processar_xml self arquivo
         (com_evento (EvLog INFO (MsgProcessandoExistente (caminho_relativo self arquivo))) w)).

(** The files the sweep ingests: the listed paths that are files. *)
Definition arquivos_da_varredura (self : processador) (f : sistema_arquivos) : list caminho :=
  filter (fun p => eh_arquivo f p = true) (arquivos_existentes self f).

Definition com_eventos (evs : list evento) (w : mundo) : mundo :=
  Mundo (fs w) (bd w) (rastro w ++ evs).

(** ** The vocabulary of the further properties *)

(** The [UNIQUE] column of [nfe_cabecalho] holds no value twice. *)
Definition chaves_unicas (b : banco) : Prop :=
  NoDup ((fun l => cab_chave_acesso (lc_cab l)) <$> nfe_cabecalho b).

(** The ids of a table are different from each other and not above the
    counter of the table. *)
Definition ids_cabecalho_ok (b : banco) : Prop :=
  NoDup (lc_id <$> nfe_cabecalho b)
  /\ Forall (fun l => (lc_id l <= seq_cabecalho b)%Z) (nfe_cabecalho b).

Definition ids_itens_ok (b : banco) : Prop :=
  NoDup (li_id <$> nfe_itens b)
  /\ Forall (fun l => (li_id l <= seq_itens b)%Z) (nfe_itens b).

Definition banco_bem_formado (b : banco) : Prop :=
  chaves_unicas b /\ ids_cabecalho_ok b /\ ids_itens_ok b.

(** The [FOREIGN KEY] of [nfe_itens], which SQLite does not enforce
    unless asked to: the key of every item row is the key of a header
    row. *)
Definition integridade (b : banco) : Prop :=
  forall l, l ∈ nfe_itens b ->
    exists c, c ∈ nfe_cabecalho b
              /\ cab_chave_acesso (lc_cab c) = item_chave_acesso (li_item l).

Definition banco_consistente (b : banco) : Prop :=
  banco_bem_formado b /\ integridade b.

(** What an ignored event leaves on the trace: the wait and lines of
    level DEBUG. *)
Definition discreto (ev : evento) : bool :=
  match ev with
  | EvLog DEBUG _ => true
  | EvSleep _ => true
  | _ => false
  end.

(** The entries below [pasta_xml] while the sweep runs on the files
    [f0]: the files already taken are gone, every other path is as the
    sweep found it; and [pasta_erros] is a directory. *)
Definition em_varredura (self : processador) (f0 f : gmap (list string) no)
    (feitos : list (list string)) : Prop :=
  (forall q, abaixo_de (pasta_xml self) q = true ->
     f !! q = if decide (q ∈ feitos) then None else f0 !! q)
  /\ eh_pasta f (pasta_erros self) = true.

(** The header of a document in which nothing was found: every [.get]
    gave its default. *)
Definition cab_em_branco : cabecalho :=
  Cabecalho "" (VStr "") (VStr "") None None (VStr "") (VStr "") (VStr "") (VStr "")
    (VStr "") zero_float zero_float zero_float zero_float.

(** A date of the calendar [datetime.date] accepts. *)
Definition data_valida (d : data) : Prop :=
  (1 <= ano d <= 9999 /\ 1 <= mes d <= 12 /\ 1 <= dia d <= dias_no_mes (ano d) (mes d))%Z.

(** The decimal digit [z], for [0 <= z <= 9]. *)
Definition algarismo (z : Z) : ascii := ascii_of_nat (48 + Z.to_nat z).

Definition dois_algarismos (z : Z) (resto : string) : string :=
  String (algarismo (z / 10)) (String (algarismo (z mod 10)) resto).

(** The text [YYYY-MM-DD] of a date, zero-padded. *)
Definition texto_da_data (d : data) : string :=
  String (algarismo (ano d / 1000))
    (String (algarismo (ano d / 100 mod 10))
       (dois_algarismos (ano d mod 100)
          (String "-" (dois_algarismos (mes d) (String "-" (dois_algarismos (dia d) "")))))).

(** The access keys that have a header row. *)
Definition chaves (b : banco) : list string :=
  (fun l => cab_chave_acesso (lc_cab l)) <$> nfe_cabecalho b.

(** * Properties *)

(** ** The parsers and the formatting on examples *)

Example str_para_float_ex :
  str_para_float " 1_0.50e1 " = Some (FDec 105 0) /\ str_para_float "0.00" = Some zero_float
  /\ str_para_float "." = None /\ str_para_float "-Inf" = Some (FInf true)
  /\ str_para_float "1._5" = None /\ str_para_float "1.e2" = Some (FDec 1 2).
Proof. repeat split; vm_compute; reflexivity. Qed.

Example str_para_int_ex :
  str_para_int " -007 " = Some (-7)%Z /\ str_para_int "1.0" = None /\ str_para_int "" = None.
Proof. repeat split; vm_compute; reflexivity. Qed.

Example strptime_ymd_ex :
  strptime_ymd "2020-07-14" = Some (Data 2020 7 14) /\ strptime_ymd "2021-02-29" = None
  /\ strptime_ymd "2020-2-29" = Some (Data 2020 2 29) /\ strptime_ymd "2020-07-14T10" = None.
Proof. repeat split; vm_compute; reflexivity. Qed.

Example formata_03d_ex :
  formata_03d 1 = "001" /\ formata_03d 42 = "042" /\ formata_03d 999 = "999"
  /\ formata_03d 1000 = "1000".
Proof. repeat split; vm_compute; reflexivity. Qed.

Example stem_suffix_ex :
  stem ["a"; "nota.v2.xml"] = "nota.v2" /\ suffix ["a"; "nota.v2.xml"] = ".xml"
  /\ suffix ["a"; ".xml"] = "" /\ stem ["a"; ".xml"] = ".xml" /\ suffix ["a"; "nota."] = ""
  /\ novo_nome ["a"; "nota.xml"] 1 = "nota_001-.xml".
Proof. repeat split; vm_compute; reflexivity. Qed.

(** ** The two monads *)

Lemma liga_inr {A B} (r : resultado A) (k : A -> resultado B) (b : B) :
  liga r k = inr b <-> exists a, r = inr a /\ k a = inr b.
Proof.
  destruct r as [e | a]; simpl; split.
  - discriminate.
  - intros (a & Ha & _). discriminate.
  - eauto.
  - intros (a' & Ha & Hk). by simplify_eq.
Qed.

Lemma para_cada_length {A B} (f : A -> resultado B) (l : list A) (ys : list B) :
  para_cada f l = inr ys -> length ys = length l.
Proof.
  revert ys. induction l as [| x l IH]; intros ys; simpl.
  - by intros [= <-].
  - intros H. apply liga_inr in H as (y & _ & H).
    apply liga_inr in H as (ys' & Hys & H). injection H as <-.
    simpl. f_equal. by apply IH.
Qed.

Lemma para_cada_Forall2 {A B} (f : A -> resultado B) (l : list A) (ys : list B) :
  para_cada f l = inr ys <-> Forall2 (fun x y => f x = inr y) l ys.
Proof.
  revert ys. induction l as [| x l IH]; intros ys; simpl.
  - split.
    + intros [= <-]. constructor.
    + by inversion 1.
  - rewrite liga_inr. split.
    + intros (y & Hy & H). apply liga_inr in H as (ys' & Hys & H).
      injection H as <-. constructor; [done | by apply IH].
    + inversion 1 as [| ? y ? ys' Hy Hys]; subst. exists y. split; [done |].
      apply liga_inr. exists ys'. split; [by apply IH | done].
Qed.

(** ** Extraction: what a returning run has read *)

Lemma py_get_inr (d : valor) (k : string) (padrao v : valor) :
  py_get d k padrao = inr v -> (exists campos, d = VDict campos) /\ v = navega d k padrao.
Proof. destruct d; simpl; try discriminate. intros [= <-]. eauto. Qed.

Lemma extrair_dados_nfe_inr (xml_dict : valor) (w w' : mundo) (r : cabecalho * list item) :
  extrair_dados_nfe xml_dict w = (inr r, w') <->
  extrair_dados_nfe_try xml_dict = inr r /\ w' = w.
Proof.
  unfold extrair_dados_nfe, tenta, eleva, encadeia, registra, emite, altera.
  destruct (extrair_dados_nfe_try xml_dict) as [e | r']; simpl; split.
  - discriminate.
  - intros [? _]. discriminate.
  - intros [= -> ->]. done.
  - intros [[= ->] ->]. done.
Qed.

Lemma extrair_dados_nfe_inl (xml_dict : valor) (w w' : mundo) (e : excecao) :
  extrair_dados_nfe xml_dict w = (inl e, w') <->
  extrair_dados_nfe_try xml_dict = inl e /\
  w' = Mundo (fs w) (bd w) (rastro w ++ [EvLog ERROR (MsgErroExtrair e)]).
Proof.
  unfold extrair_dados_nfe, tenta, eleva, encadeia, registra, emite, altera, levanta.
  destruct (extrair_dados_nfe_try xml_dict) as [e' | r']; simpl; split.
  - intros [= -> <-]. done.
  - intros [[= ->] ->]. done.
  - discriminate.
  - intros [? _]. discriminate.
Qed.

(** Peels the binds of a successful run off hypothesis [H]. *)
Ltac abre_liga H :=
  repeat
    (let a := fresh "v" in
     let Ha := fresh "Hv" in
     apply liga_inr in H as (a & Ha & H)).

(** What a successful run of the [try] block has read and built. *)
Lemma extrair_dados_nfe_try_inr (xml_dict : valor) (cab : cabecalho) (itens : list item) :
  extrair_dados_nfe_try xml_dict = inr (cab, itens) ->
  exists id,
    identificador xml_dict = VStr id /\
    cab_chave_acesso cab = str_replace id "NFe" "" /\
    para_cada (extrair_item (cab_chave_acesso cab))
      (normaliza_det (navega (bloco_inf_nfe xml_dict) "det" (VList []))) = inr itens.
Proof.
  unfold extrair_dados_nfe_try. intros H. abre_liga H.
  injection H as <- <-.
  repeat match goal with
         | Hg : py_get _ _ _ = inr _ |- _ => apply py_get_inr in Hg as [_ ->]
         end.
  unfold py_replace in *.
  unfold identificador, bloco_inf_nfe.
  destruct (navega (navega (navega xml_dict "NFe" dict_vazio) "infNFe" dict_vazio) "@Id" (VStr ""))
    as [| id | | |] eqn:Hid; try discriminate.
  exists id. unfold retorna in *. simplify_eq. done.
Qed.

Lemma extrair_item_chave (k : string) (it : valor) (i : item) :
  extrair_item k it = inr i -> item_chave_acesso i = k.
Proof. unfold extrair_item. intros H. abre_liga H. by injection H as <-. Qed.

(** Every extracted item carries the access key of its header. *)
Lemma extrair_dados_nfe_try_chaves (xml_dict : valor) (cab : cabecalho) (itens : list item) :
  extrair_dados_nfe_try xml_dict = inr (cab, itens) ->
  Forall (fun i => item_chave_acesso i = cab_chave_acesso cab) itens.
Proof.
  intros H. apply extrair_dados_nfe_try_inr in H as (id & _ & _ & H).
  apply para_cada_Forall2 in H. induction H as [| x y l ys Hxy _ IH]; constructor.
  - by apply extrair_item_chave in Hxy.
  - exact IH.
Qed.

(** [str.replace] leaves a string without occurrence as it is. *)
Lemma substitui_sem_ocorrencia (antigo novo s : string) :
  ocorre antigo s = false -> substitui antigo novo 0 s = s.
Proof.
  induction s as [| c s IH]; [done |].
  cbn [ocorre]. intros [H1 H2]%orb_false_iff.
  cbn [substitui]. rewrite H1. f_equal. by apply IH.
Qed.

Lemma sem_prefixo_app (prefixo r : string) : sem_prefixo prefixo (prefixo +:+ r) = r.
Proof.
  assert (Hp : forall p, comeca_com p (p +:+ r) = true).
  { intros p. induction p as [| b p IH]; [done |]. simpl. by rewrite Ascii.eqb_refl. }
  induction prefixo as [| a p IH]; [by destruct r |].
  cbn [String.append sem_prefixo].
  change (String a (p +:+ r)) with (String a p +:+ r). by rewrite Hp.
Qed.

(** ** The example document *)

Example extrair_doc_exemplo :
  extrair_dados_nfe doc_exemplo mundo_vazio = (inr (cab_exemplo, itens_exemplo), mundo_vazio)
  /\ cab_data_emissao cab_exemplo = Some (Data 2020 7 14)
  /\ cab_valor_total cab_exemplo = FDec 1 2
  /\ map item_valor_icms itens_exemplo = [FDec 18 0]
  /\ map item_valor_pis itens_exemplo = [FDec 165 (-2)].
Proof. repeat split; vm_compute; reflexivity. Qed.

(** ** C3: one item per line item *)

(** C3.  When the extraction of a document returns, it returns as many
    items as the document has line items: none without a [det] field, the
    length of the sequence when the field is one, and one when the field
    is a lone structure, which [normaliza_det] wraps in a list. *)
Theorem um_item_por_linha_de_detalhe
    (xml_dict : valor) (w w' : mundo) (cab : cabecalho) (itens : list item) :
  extrair_dados_nfe xml_dict w = (inr (cab, itens), w') ->
  length itens = numero_de_itens (campo (bloco_inf_nfe xml_dict) "det")
  /\ (forall d, campo (bloco_inf_nfe xml_dict) "det" = Some d ->
        (forall l, d <> VList l) -> normaliza_det d = [d] /\ length itens = 1%nat).
Proof.
  intros [H ->]%extrair_dados_nfe_inr.
  apply extrair_dados_nfe_try_inr in H as (id & _ & _ & H).
  apply para_cada_length in H. rewrite H. unfold navega.
  destruct (campo (bloco_inf_nfe xml_dict) "det") as [d |]; simpl.
  - split; [by destruct d |].
    intros d' [= <-] Hd. destruct d; try done. by destruct (Hd elementos).
  - done.
Qed.

Lemma um_item_por_linha_de_detalhe_exemplo :
  length itens_exemplo = numero_de_itens (campo (bloco_inf_nfe doc_exemplo) "det")
  /\ length itens_dois_itens = 2%nat.
Proof.
  split.
  - apply (um_item_por_linha_de_detalhe doc_exemplo mundo_vazio mundo_vazio
             cab_exemplo itens_exemplo).
    vm_compute. reflexivity.
  - change 2%nat with (numero_de_itens (campo (bloco_inf_nfe doc_dois_itens) "det")).
    apply (um_item_por_linha_de_detalhe doc_dois_itens mundo_vazio mundo_vazio
             cab_dois_itens itens_dois_itens).
    vm_compute. reflexivity.
Defined.

(** ** C2: the access key *)

(** C2, counterexample.  For the identifier ["NFe35NFe20"] the extraction
    returns the key ["3520"], while removing the prefix ["NFe"] leaves
    ["35NFe20"]: [str.replace] removes every occurrence. *)
Lemma chave_acesso_difere_do_id_sem_prefixo :
  exists cab itens,
    extrair_dados_nfe (documento "NFe35NFe20" None) mundo_vazio
    = (inr (cab, itens), mundo_vazio)
    /\ identificador (documento "NFe35NFe20" None) = VStr "NFe35NFe20"
    /\ cab_chave_acesso cab = "3520"
    /\ sem_prefixo "NFe" "NFe35NFe20" = "35NFe20"
    /\ cab_chave_acesso cab <> sem_prefixo "NFe" "NFe35NFe20".
Proof.
  eexists _, _. split; [vm_compute; reflexivity |].
  repeat split; try (vm_compute; reflexivity). vm_compute. discriminate.
Qed.

(** C2, amended.  When the extraction of a document returns, the access
    key of the header is the identifier attribute (the empty string when
    the attribute is missing) with every occurrence of ["NFe"] removed;
    for an identifier ["NFe" ++ r] whose rest [r] holds no ["NFe"] this
    is [r], the identifier without its prefix.  An empty key is not an
    error: the identifier ["NFe"] of a document without items extracts
    to the key [""].  The identifier of the example, with one line item,
    gives the 44 digits and one item. *)
Theorem chave_acesso_e_id_sem_NFe :
  (forall (xml_dict : valor) (w w' : mundo) (cab : cabecalho) (itens : list item),
     extrair_dados_nfe xml_dict w = (inr (cab, itens), w') ->
     exists id,
       identificador xml_dict = VStr id
       /\ cab_chave_acesso cab = str_replace id "NFe" ""
       /\ (forall r, id = "NFe" +:+ r -> ocorre "NFe" r = false ->
             cab_chave_acesso cab = r /\ cab_chave_acesso cab = sem_prefixo "NFe" id))
  /\ (exists cab,
        extrair_dados_nfe (documento "NFe" None) mundo_vazio = (inr (cab, []), mundo_vazio)
        /\ cab_chave_acesso cab = "")
  /\ (exists cab it,
        extrair_dados_nfe doc_exemplo mundo_vazio = (inr (cab, [it]), mundo_vazio)
        /\ identificador doc_exemplo = VStr "NFe35200714200166000187550010000000046550010466"
        /\ cab_chave_acesso cab = "35200714200166000187550010000000046550010466").
Proof.
  split; [| split].
  - intros xml_dict w w' cab itens [H ->]%extrair_dados_nfe_inr.
    apply extrair_dados_nfe_try_inr in H as (id & Hid & Hchave & _).
    exists id. split; [done |]. split; [done |].
    intros r -> Hr. rewrite sem_prefixo_app.
    enough (cab_chave_acesso cab = r) by done.
    rewrite Hchave. simpl. by apply substitui_sem_ocorrencia.
  - eexists. split; vm_compute; reflexivity.
  - eexists _, _. repeat split; vm_compute; reflexivity.
Qed.

Lemma chave_acesso_e_id_sem_NFe_exemplo :
  exists id,
    identificador doc_exemplo = VStr id
    /\ cab_chave_acesso cab_exemplo = str_replace id "NFe" ""
    /\ (forall r, id = "NFe" +:+ r -> ocorre "NFe" r = false ->
          cab_chave_acesso cab_exemplo = r
          /\ cab_chave_acesso cab_exemplo = sem_prefixo "NFe" id).
Proof.
  apply (proj1 chave_acesso_e_id_sem_NFe doc_exemplo mundo_vazio mundo_vazio
           cab_exemplo itens_exemplo).
  vm_compute. reflexivity.
Defined.

(** ** C4: the taxes of an item *)

Lemma valor_do_imposto_inr (imposto : valor) (n c : string) (x : pyfloat) :
  valor_do_imposto imposto n c = inr x <->
  exists sub tipo,
    py_get imposto n dict_vazio = inr sub /\ tipo_do_imposto sub = inr tipo
    /\ campo_float tipo c = inr x.
Proof.
  unfold valor_do_imposto. rewrite liga_inr. split.
  - intros (sub & Hsub & H). apply liga_inr in H as (tipo & Htipo & H). eauto.
  - intros (sub & tipo & Hsub & Htipo & H). exists sub. split; [done |].
    apply liga_inr. eauto.
Qed.

(** Rewrites the successful steps known from the context into the goal. *)
Ltac fecha_liga :=
  repeat (match goal with
          | H : ?t = inr _ |- context [?t] => rewrite H
          end; cbn [liga retorna]).

(** A line item is extracted exactly when each of its parts is: the
    order in which the loop body reads them does not matter. *)
Lemma extrair_item_inr (k : string) (it : valor) (i : item) :
  extrair_item k it = inr i <->
  exists prod imposto n_item,
    py_get it "prod" dict_vazio = inr prod
    /\ py_get it "imposto" dict_vazio = inr imposto
    /\ valor_do_imposto imposto "ICMS" "vICMS" = inr (item_valor_icms i)
    /\ valor_do_imposto imposto "PIS" "vPIS" = inr (item_valor_pis i)
    /\ valor_do_imposto imposto "COFINS" "vCOFINS" = inr (item_valor_cofins i)
    /\ py_get it "@nItem" (VInt 0) = inr n_item
    /\ py_int n_item = inr (item_numero_item i)
    /\ py_get prod "cProd" (VStr "") = inr (item_codigo_produto i)
    /\ py_get prod "xProd" (VStr "") = inr (item_descricao_produto i)
    /\ py_get prod "CFOP" (VStr "") = inr (item_cfop i)
    /\ py_get prod "uCom" (VStr "") = inr (item_unidade_comercial i)
    /\ campo_float prod "qCom" = inr (item_quantidade_comercial i)
    /\ campo_float prod "vUnCom" = inr (item_valor_unitario_comercial i)
    /\ campo_float prod "vProd" = inr (item_valor_total_produto i)
    /\ item_chave_acesso i = k.
Proof.
  split.
  - unfold extrair_item. intros H. abre_liga H. injection H as <-. simpl.
    exists v, v0, v7. repeat (split; [first [done | apply valor_do_imposto_inr; eauto] |]).
    done.
  - intros (prod & imposto & n_item & Hprod & Himposto
            & (icms & icms_tipo & Hicms & Hicms_tipo & Hvicms)%valor_do_imposto_inr
            & (pis & pis_tipo & Hpis & Hpis_tipo & Hvpis)%valor_do_imposto_inr
            & (cofins & cofins_tipo & Hcofins & Hcofins_tipo & Hvcofins)%valor_do_imposto_inr
            & Hn & Hnum & H1 & H2 & H3 & H4 & H5 & H6 & H7 & Hk).
    unfold extrair_item. fecha_liga. destruct i; simpl in *. by subst.
Qed.

Lemma campo_float_ausente (campos : list (string * valor)) (c : string) :
  procura c campos = None -> campo_float (VDict campos) c = inr zero_float.
Proof. unfold campo_float. simpl. by intros ->. Qed.

(** C4, counterexample.  The ICMS block of the item is present and its
    variant [ICMS40] is an empty element, so the variant has no [vICMS]
    field; the extraction of the item, and of a document made of it,
    raises [AttributeError] instead of giving the value 0.  With a
    variant that has other fields the same item extracts, with ICMS 0. *)
Lemma variante_vazia_levanta_erro :
  campo imposto_variante_vazia "ICMS" = Some (VDict [("ICMS40", VNone)])
  /\ campo VNone "vICMS" = None
  /\ extrair_item "K" (det_exemplo "1" imposto_variante_vazia) = inl AttributeError
  /\ fst (extrair_dados_nfe
            (documento id_exemplo (Some (det_exemplo "1" imposto_variante_vazia)))
            mundo_vazio) = inl AttributeError
  /\ (exists i, extrair_item "K" (det_exemplo "1" imposto_variante_isenta) = inr i
                /\ item_valor_icms i = zero_float).
Proof.
  repeat split; try (vm_compute; reflexivity).
  eexists. split; vm_compute; reflexivity.
Qed.

(** C4, amended.  The three tax values an extracted item stores are what
    [valor_do_imposto] gives for ICMS/vICMS, PIS/vPIS and COFINS/vCOFINS on
    the tax block of the item.  On a tax block that is a mapping, for every
    tax name [n] and field [c]: a missing or empty sub-document gives 0
    without error; a sub-document whose first variant, whatever its key, is
    a mapping gives [float] of the field [c] of that variant, and 0
    without error when the variant lacks the field; a first variant that
    is not a mapping raises [AttributeError]. *)
Theorem imposto_do_item :
  (forall (k : string) (it : valor) (i : item),
     extrair_item k it = inr i ->
     let imposto := navega it "imposto" dict_vazio in
     valor_do_imposto imposto "ICMS" "vICMS" = inr (item_valor_icms i)
     /\ valor_do_imposto imposto "PIS" "vPIS" = inr (item_valor_pis i)
     /\ valor_do_imposto imposto "COFINS" "vCOFINS" = inr (item_valor_cofins i))
  /\ (forall (campos_imposto : list (string * valor)) (n c : string),
        let imposto := VDict campos_imposto in
        (procura n campos_imposto = None ->
           valor_do_imposto imposto n c = inr zero_float)
        /\ (forall sub, procura n campos_imposto = Some sub -> verdadeiro sub = false ->
              valor_do_imposto imposto n c = inr zero_float)
        /\ (forall variante campos resto,
              procura n campos_imposto = Some (VDict ((variante, VDict campos) :: resto)) ->
              valor_do_imposto imposto n c = py_float (default (VInt 0) (procura c campos))
              /\ (procura c campos = None ->
                    valor_do_imposto imposto n c = inr zero_float))
        /\ (forall variante v resto,
              procura n campos_imposto = Some (VDict ((variante, v) :: resto)) ->
              (forall campos, v <> VDict campos) ->
              valor_do_imposto imposto n c = inl AttributeError)).
Proof.
  split.
  - intros k it i
      (prod & imposto & n_item & _ & [_ ->]%py_get_inr & Hicms & Hpis & Hcofins & _)
      %extrair_item_inr.
    done.
  - intros campos_imposto n c imposto. unfold valor_do_imposto, imposto. simpl.
    split; [| split; [| split]].
    + by intros ->.
    + intros sub -> Hsub. simpl. unfold tipo_do_imposto. by rewrite Hsub.
    + intros variante campos resto ->. simpl. split; [done |].
      intros Hc. by apply campo_float_ausente.
    + intros variante v resto -> Hv. simpl. destruct v; try done. by destruct (Hv campos).
Qed.

Lemma imposto_do_item_exemplo :
  let imposto := navega (det_exemplo "1" imposto_exemplo) "imposto" dict_vazio in
  valor_do_imposto imposto "ICMS" "vICMS" = inr (item_valor_icms item_exemplo)
  /\ valor_do_imposto imposto "PIS" "vPIS" = inr (item_valor_pis item_exemplo)
  /\ valor_do_imposto imposto "COFINS" "vCOFINS" = inr (item_valor_cofins item_exemplo).
Proof.
  apply (proj1 imposto_do_item "35200714200166000187550010000000046550010466"
           (det_exemplo "1" imposto_exemplo) item_exemplo).
  vm_compute. reflexivity.
Defined.

(** ** C7: [gerar_nome_unico] *)

Lemma append_length (a b : string) :
  String.length (a +:+ b) = (String.length a + String.length b)%nat.
Proof. induction a as [| c a IH]; simpl; [done | by rewrite IH]. Qed.

Lemma append_inj_r (a b t : string) : a +:+ t = b +:+ t -> a = b.
Proof.
  intros H.
  assert (Hl : String.length a = String.length b).
  { apply (f_equal String.length) in H.
    rewrite (append_length a t), (append_length b t) in H. lia. }
  revert b H Hl. induction a as [| c a IH]; intros [| d b] H Hl; try done.
  injection H as -> H. f_equal. apply IH; [done |]. by injection Hl.
Qed.

Lemma of_uint_preenche (k : nat) (d : uint) : Nat.of_uint (preenche k d) = Nat.of_uint d.
Proof. revert d. induction k as [| k IH]; intros d; simpl; [done | by rewrite IH]. Qed.

(** The text of the counter reads back as the counter. *)
Lemma formata_03d_le (n : nat) :
  exists d, NilEmpty.uint_of_string (formata_03d n) = Some d /\ Nat.of_uint d = n.
Proof.
  unfold formata_03d. eexists. split; [apply NilEmpty.usu |].
  rewrite of_uint_preenche. apply DecimalNat.Unsigned.of_to.
Qed.

Lemma formata_03d_inj (n m : nat) : formata_03d n = formata_03d m -> n = m.
Proof.
  intros H.
  destruct (formata_03d_le n) as (d & Hd & <-).
  destruct (formata_03d_le m) as (d' & Hd' & <-).
  rewrite H in Hd. by simplify_eq.
Qed.

Lemma nb_digits_preenche (k : nat) (d : uint) :
  Decimal.nb_digits (preenche k d) = (k + Decimal.nb_digits d)%nat.
Proof. revert d. induction k as [| k IH]; intros d; simpl; [done |]. rewrite IH. simpl. lia. Qed.

Lemma string_of_uint_length (d : uint) :
  String.length (NilEmpty.string_of_uint d) = Decimal.nb_digits d.
Proof. induction d; simpl; by rewrite ?IHd. Qed.

(** At least three characters. *)
Lemma formata_03d_length (n : nat) : (3 <= String.length (formata_03d n))%nat.
Proof.
  unfold formata_03d. rewrite string_of_uint_length, nb_digits_preenche. lia.
Qed.

Lemma novo_nome_inj (arquivo : caminho) (n m : nat) :
  novo_nome arquivo n = novo_nome arquivo m -> n = m.
Proof.
  unfold novo_nome. intros H.
  do 2 apply String.app_inj in H.
  by apply append_inj_r, formata_03d_inj in H.
Qed.

Lemma barra_inj (pasta : caminho) (a b : string) : barra pasta a = barra pasta b -> a = b.
Proof. unfold barra. intros H. apply app_inv_head in H. by injection H. Qed.

Lemma pai_barra (pasta : caminho) (n : string) : pai (barra pasta n) = pasta.
Proof. unfold pai, barra. by rewrite removelast_last. Qed.

Lemma nome_barra (pasta : caminho) (n : string) : nome (barra pasta n) = n.
Proof. unfold nome, barra. by rewrite last_last. Qed.

Lemma existe_false (f : sistema_arquivos) (p : caminho) : existe f p = false <-> f !! p = None.
Proof. unfold existe. by destruct (f !! p). Qed.

Lemma existe_true (f : sistema_arquivos) (p : caminho) : existe f p = true <-> is_Some (f !! p).
Proof.
  unfold existe. destruct (f !! p) eqn:H; split; try done; eauto; by intros [? ?].
Qed.

Section laco.
Variable f : gmap (list string) no.
Variables arquivo pasta : list string.

Lemma candidato_inj (n m : nat) : candidato arquivo pasta n = candidato arquivo pasta m -> n = m.
Proof. intros H. by apply barra_inj, novo_nome_inj in H. Qed.

Lemma laco_livre (voltas contador : nat) (destino : caminho) :
  existe f destino = false ->
  gerar_nome_unico_laco voltas f arquivo pasta contador destino = Some destino.
Proof. intros H. destruct voltas; simpl; by rewrite H. Qed.

(** Not all of [S (size f)] different candidates can exist. *)
Lemma ha_candidato_livre (inicio : nat) :
  exists j, (inicio <= j < inicio + S (size f))%nat /\ existe f (candidato arquivo pasta j) = false.
Proof.
  set (l := candidato arquivo pasta <$> seq inicio (S (size f))).
  destruct (decide (Forall (fun p => existe f p = true) l)) as [Htodos | Hnao].
  - exfalso.
    assert (Hnodup : NoDup l).
    { apply NoDup_fmap_2; [intros n m; apply candidato_inj | apply NoDup_seq]. }
    assert (Hsub : list_to_set l ⊆ dom f).
    { intros p Hp. apply elem_of_list_to_set in Hp.
      rewrite Forall_forall in Htodos. apply elem_of_dom, existe_true. by apply Htodos. }
    apply subseteq_size in Hsub.
    rewrite size_list_to_set, size_dom in Hsub by done.
    unfold l in Hsub. rewrite length_fmap, length_seq in Hsub. lia.
  - apply not_Forall_Exists in Hnao; [| intros p; apply _].
    apply Exists_exists in Hnao as (p & Hp & Hlivre).
    apply list_elem_of_fmap in Hp as (j & -> & Hj).
    apply elem_of_seq in Hj. exists j. split; [lia |].
    by apply not_true_is_false.
Qed.

(** The loop leaves when a candidate within its reach is free. *)
Lemma laco_termina (voltas contador : nat) (destino : caminho) :
  (exists j, (contador <= j < contador + voltas)%nat
             /\ existe f (candidato arquivo pasta j) = false) ->
  is_Some (gerar_nome_unico_laco voltas f arquivo pasta contador destino).
Proof.
  revert contador destino. induction voltas as [| v IH]; intros contador destino (j & Hj & Hlivre).
  - lia.
  - simpl. destruct (existe f destino); [| by eauto].
    destruct (decide (j = contador)) as [-> | Hne].
    + fold (candidato arquivo pasta contador). rewrite laco_livre by done. eauto.
    + apply IH. exists j. split; [lia | done].
Qed.

(** What the loop returns: the first name it finds free. *)
Lemma laco_resultado (voltas contador : nat) (destino p : caminho) :
  gerar_nome_unico_laco voltas f arquivo pasta contador destino = Some p ->
  existe f p = false
  /\ (existe f destino = false /\ p = destino
      \/ existe f destino = true
         /\ exists n, (contador <= n)%nat /\ p = candidato arquivo pasta n
                      /\ forall j, (contador <= j < n)%nat ->
                           existe f (candidato arquivo pasta j) = true).
Proof.
  revert contador destino. induction voltas as [| v IH]; intros contador destino; simpl.
  - destruct (existe f destino) eqn:Hd; [done |]. intros [= <-]. eauto.
  - destruct (existe f destino) eqn:Hd; [| intros [= <-]; eauto].
    intros H. apply IH in H as [Hp [[Hlivre ->] | [Hocupado (n & Hn & -> & Hantes)]]].
    + split; [done |]. right. split; [done |]. exists contador. split; [lia |].
      split; [done |]. intros j Hj. lia.
    + split; [done |]. right. split; [done |]. exists n. split; [lia |].
      split; [done |]. intros j Hj.
      destruct (decide (j = contador)) as [-> | Hne]; [done | apply Hantes; lia].
Qed.
End laco.

Lemma laco_mais_voltas (f : sistema_arquivos) (arquivo pasta : caminho)
    (voltas extra contador : nat) (destino p : caminho) :
  gerar_nome_unico_laco voltas f arquivo pasta contador destino = Some p ->
  gerar_nome_unico_laco (voltas + extra) f arquivo pasta contador destino = Some p.
Proof.
  revert contador destino. induction voltas as [| v IH]; intros contador destino; simpl.
  - destruct (existe f destino) eqn:Hd; [done |]. intros [= <-]. by apply laco_livre.
  - destruct (existe f destino); [apply IH | done].
Qed.

(** The loop of [gerar_nome_unico] always leaves. *)
Lemma gerar_nome_unico_termina (f : sistema_arquivos) (arquivo pasta : caminho) :
  gerar_nome_unico_em (S (size f)) f arquivo pasta = Some (gerar_nome_unico f arquivo pasta).
Proof.
  unfold gerar_nome_unico.
  destruct (laco_termina f arquivo pasta (S (size f)) 1 (barra pasta (nome arquivo)))
    as [p Hp]; [apply ha_candidato_livre |].
  unfold gerar_nome_unico_em. by rewrite Hp.
Qed.

(** C7.  [gerar_nome_unico] returns: its loop leaves within [S (size f)]
    iterations, and with any larger bound gives the same path.  The path
    returned is in the destination directory and names nothing that
    exists.  It carries the original name when that name is free;
    otherwise its name is [<stem>_<NNN>-<suffix>], where [NNN] is the text
    of the first counter from 1 on whose name is free, in at least three
    digits padded with zeros, and a ['-'] stands before the suffix.
    Moving a file to the returned path leaves every other entry of the
    file system as it was. *)
Theorem gerar_nome_unico_livre (f : gmap (list string) no)
    (arquivo_original pasta_destino : list string) :
  let p := gerar_nome_unico f arquivo_original pasta_destino in
  (forall voltas, (S (size f) <= voltas)%nat ->
     gerar_nome_unico_em voltas f arquivo_original pasta_destino = Some p)
  /\ f !! p = None
  /\ pai p = pasta_destino
  /\ (f !! barra pasta_destino (nome arquivo_original) = None ->
        p = barra pasta_destino (nome arquivo_original))
  /\ (is_Some (f !! barra pasta_destino (nome arquivo_original)) ->
        exists n, (1 <= n)%nat
          /\ p = barra pasta_destino
                   (stem arquivo_original +:+ "_" +:+ formata_03d n +:+ "-"
                    +:+ suffix arquivo_original)
          /\ (3 <= String.length (formata_03d n))%nat
          /\ (exists d, NilEmpty.uint_of_string (formata_03d n) = Some d /\ Nat.of_uint d = n)
          /\ forall j, (1 <= j < n)%nat ->
               is_Some (f !! candidato arquivo_original pasta_destino j))
  /\ formata_03d 1 = "001"
  /\ (forall c f', f !! arquivo_original = Some (Arquivo c) ->
        shutil_move f arquivo_original p = inr f' ->
        f' !! p = Some (Arquivo c)
        /\ forall q, q <> arquivo_original -> q <> p -> f' !! q = f !! q).
Proof.
  intros p.
  pose proof (gerar_nome_unico_termina f arquivo_original pasta_destino) as Hp.
  fold p in Hp.
  pose proof Hp as Hr. unfold gerar_nome_unico_em in Hr.
  apply laco_resultado in Hr as [Hlivre Hr].
  apply existe_false in Hlivre.
  split; [| split; [done |]; split; [| split; [| split; [| split; [done |]]]]].
  - intros voltas Hv. replace voltas with (S (size f) + (voltas - S (size f)))%nat by lia.
    by apply laco_mais_voltas.
  - destruct Hr as [[_ ->] | [_ (n & _ & -> & _)]]; apply pai_barra.
  - intros Hn. destruct Hr as [[_ ->] | [Ho _]]; [done |].
    apply existe_true in Ho as [x Hx]. congruence.
  - intros Hn. destruct Hr as [[Hl _] | [_ (n & Hn1 & -> & Hantes)]].
    + apply existe_false in Hl. rewrite Hl in Hn. by destruct Hn.
    + exists n. split; [done |]. split; [done |]. split; [apply formata_03d_length |].
      split; [apply formata_03d_le |]. intros j Hj. by apply existe_true, Hantes.
  - intros c f' Hsrc. unfold shutil_move, eh_pasta, existe.
    rewrite Hlivre, Hsrc. simpl.
    destruct (match f !! pai p with Some Pasta => true | _ => false end); [| done].
    intros [= <-]. split; [apply lookup_insert_eq |].
    intros q Hq1 Hq2. by rewrite lookup_insert_ne, lookup_delete_ne.
Qed.

Lemma gerar_nome_unico_livre_exemplo :
  exists n, (1 <= n)%nat
    /\ gerar_nome_unico fs_exemplo ["xml_nfe"; "nota.xml"] ["processados"]
       = barra ["processados"]
           (stem ["xml_nfe"; "nota.xml"] +:+ "_" +:+ formata_03d n +:+ "-"
            +:+ suffix ["xml_nfe"; "nota.xml"])
    /\ (3 <= String.length (formata_03d n))%nat
    /\ (exists d, NilEmpty.uint_of_string (formata_03d n) = Some d /\ Nat.of_uint d = n)
    /\ forall j, (1 <= j < n)%nat ->
         is_Some (fs_exemplo !! candidato ["xml_nfe"; "nota.xml"] ["processados"] j).
Proof.
  apply (proj1 (proj2 (proj2 (proj2 (proj2
           (gerar_nome_unico_livre fs_exemplo ["xml_nfe"; "nota.xml"] ["processados"])))))).
  vm_compute. eauto.
Defined.

Example gerar_nome_unico_ex :
  gerar_nome_unico fs_exemplo ["xml_nfe"; "nota.xml"] ["processados"]
  = ["processados"; "nota_002-.xml"]
  /\ gerar_nome_unico fs_exemplo ["xml_nfe"; "nota.xml"] ["erros"] = ["erros"; "nota.xml"].
Proof. split; vm_compute; reflexivity. Qed.

(** ** C1: [salvar_no_banco] *)

Lemma vincula_ou (ps : list valor) :
  forallb vinculavel ps = true /\ vincula ps = inr tt
  \/ forallb vinculavel ps = false /\ exists e, vincula ps = inl e.
Proof.
  induction ps as [| v ps IH]; [by left |].
  cbn [forallb vincula]. destruct (vinculavel v); [exact IH |].
  right. split; [done |]. destruct v; eauto.
Qed.

(** A statement never writes to disk; it changes the open transaction
    when its parameters bind and nothing otherwise. *)
Lemma execute_efeito (ps : list valor) (ef : banco -> banco) (c : conexao) :
  forallb vinculavel ps = true
  /\ execute ps ef c = (inr tt, Conexao (disco c) (Some (ef (vista c))))
  \/ forallb vinculavel ps = false /\ exists e, execute ps ef c = (inl e, c).
Proof.
  unfold execute, encadeia, eleva, altera.
  destruct (vincula_ou ps) as [[Hb ->] | [Hb (e & ->)]]; [left | right]; eauto.
Qed.

Lemma inserir_itens_efeito (itens : list item) (c : conexao) :
  exists r c',
    para_cada_acao (fun it => execute (parametros_item it) (insert_item it)) itens c = (r, c')
    /\ disco c' = disco c
    /\ (forallb (fun it => forallb vinculavel (parametros_item it)) itens = true
        /\ r = inr tt
        /\ vista c' = foldl (fun b it => insert_item it b) (vista c) itens
        \/ forallb (fun it => forallb vinculavel (parametros_item it)) itens = false
           /\ exists e, r = inl e).
Proof.
  revert c. induction itens as [| it itens IH]; intros c.
  - eexists _, _. split; [reflexivity |]. split; [done |]. by left.
  - cbn [para_cada_acao forallb]. unfold encadeia at 1.
    destruct (execute_efeito (parametros_item it) (insert_item it) c)
      as [[Hb ->] | [Hb (e & ->)]]; rewrite Hb; cbn [andb].
    + destruct (IH (Conexao (disco c) (Some (insert_item it (vista c)))))
        as (r & c' & -> & Hd & H).
      eexists _, _. split; [reflexivity |]. split; [done |]. exact H.
    + eexists _, _. split; [reflexivity |]. split; [done |]. right. eauto.
Qed.

(** The whole of [salvar_na_conexao] on a fresh connection: what is on
    disk afterwards is everything or nothing. *)
Lemma salvar_na_conexao_efeito (cab : cabecalho) (itens : list item)
    (n c : string) (b : banco) :
  exists r c',
    salvar_na_conexao cab itens n c (connect b) = (r, c')
    /\ (tudo_vinculavel cab itens = true
        /\ r = inr tt /\ close c' = efeito_salvar cab itens n c b
        \/ tudo_vinculavel cab itens = false
           /\ (exists e, r = inl e) /\ close c' = b).
Proof.
  unfold salvar_na_conexao, tudo_vinculavel, efeito_salvar.
  unfold encadeia at 1.
  destruct (execute_efeito (parametros_cabecalho cab)
              (insert_or_replace_cabecalho cab n c) (connect b))
    as [[Hb ->] | [Hb (e & ->)]]; rewrite Hb; cbn [andb].
  2: { eexists _, _. split; [reflexivity |]. right. eauto. }
  unfold encadeia at 1.
  destruct (execute_efeito [VStr (cab_chave_acesso cab)]
              (delete_itens (cab_chave_acesso cab))
              (Conexao (disco (connect b))
                 (Some (insert_or_replace_cabecalho cab n c (vista (connect b))))))
    as [[_ ->] | [Hb2 _]]; [| done].
  unfold encadeia at 1.
  match goal with
  | |- context [para_cada_acao _ itens ?c2] =>
      destruct (inserir_itens_efeito itens c2)
        as (r & c3 & -> & Hd & [(Hbs & -> & Hv) | (Hbs & e & ->)]); rewrite Hbs
  end.
  - eexists _, _. split; [reflexivity |]. left. repeat split. exact Hv.
  - eexists _, _. split; [reflexivity |]. right. repeat split; [eauto |]. exact Hd.
Qed.

Lemma foldl_insert_item (itens : list item) (b : banco) :
  let b' := foldl (fun b it => insert_item it b) b itens in
  nfe_cabecalho b' = nfe_cabecalho b
  /\ seq_cabecalho b' = seq_cabecalho b
  /\ li_item <$> nfe_itens b' = ((li_item <$> nfe_itens b) ++ itens)%list.
Proof.
  revert b. induction itens as [| it itens IH]; intros b; simpl.
  - by rewrite app_nil_r.
  - destruct (IH (insert_item it b)) as (H1 & H2 & H3). simpl in *.
    rewrite H1, H2, H3. rewrite fmap_app. simpl. by rewrite <- app_assoc.
Qed.

Lemma filter_chave_itens (k k' : string) (linhas : list linha_item) :
  filter (fun i => item_chave_acesso i = k')
    (li_item <$> filter (fun l => item_chave_acesso (li_item l) ≠ k) linhas)
  = if decide (k' = k) then []
    else filter (fun i => item_chave_acesso i = k') (li_item <$> linhas).
Proof.
  induction linhas as [| l linhas IH]; [by destruct (decide (k' = k)) |].
  rewrite filter_cons. cbn [fmap list_fmap]. rewrite (filter_cons _ (li_item l)).
  destruct (decide (item_chave_acesso (li_item l) ≠ k)) as [Hne | Heq].
  - cbn [fmap list_fmap]. rewrite filter_cons, IH.
    destruct (decide (k' = k)) as [-> | Hk]; [| done].
    by rewrite decide_False.
  - rewrite IH. apply dec_stable in Heq.
    destruct (decide (k' = k)) as [-> | Hk]; [done |].
    rewrite decide_False; [done | congruence].
Qed.

Lemma filter_chave_cabecalhos (k k' : string) (linhas : list linha_cabecalho) :
  filter (fun l => cab_chave_acesso (lc_cab l) = k')
    (filter (fun l => cab_chave_acesso (lc_cab l) ≠ k) linhas)
  = if decide (k' = k) then []
    else filter (fun l => cab_chave_acesso (lc_cab l) = k') linhas.
Proof.
  induction linhas as [| l linhas IH]; [by destruct (decide (k' = k)) |].
  rewrite filter_cons. rewrite (filter_cons (fun l => cab_chave_acesso (lc_cab l) = k') l).
  destruct (decide (cab_chave_acesso (lc_cab l) ≠ k)) as [Hne | Heq].
  - rewrite filter_cons, IH.
    destruct (decide (k' = k)) as [-> | Hk]; [| done].
    by rewrite decide_False.
  - rewrite IH. apply dec_stable in Heq.
    destruct (decide (k' = k)) as [-> | Hk]; [done |].
    rewrite decide_False; [done | congruence].
Qed.

(** What a reader finds after all the statements took effect. *)
Lemma efeito_salvar_linhas (cab : cabecalho) (itens : list item) (n c : string) (b : banco) :
  let chave := cab_chave_acesso cab in
  let b' := efeito_salvar cab itens n c b in
  cabecalhos_de chave b' = [LinhaCabecalho (seq_cabecalho b + 1) cab n c]
  /\ itens_de chave b' = filter (fun i => item_chave_acesso i = chave) itens
  /\ forall outra, outra <> chave ->
       cabecalhos_de outra b' = cabecalhos_de outra b
       /\ itens_de outra b'
          = (itens_de outra b ++ filter (fun i => item_chave_acesso i = outra) itens)%list.
Proof.
  intros chave b'. unfold cabecalhos_de, itens_de, b', efeito_salvar.
  destruct (foldl_insert_item itens
              (delete_itens (cab_chave_acesso cab)
                 (insert_or_replace_cabecalho cab n c b))) as (-> & _ & ->).
  cbn [delete_itens insert_or_replace_cabecalho nfe_cabecalho nfe_itens].
  fold chave. split; [| split].
  - rewrite filter_app, filter_chave_cabecalhos, decide_True by done.
    rewrite filter_cons, decide_True by done. done.
  - rewrite filter_app, filter_chave_itens, decide_True by done. done.
  - intros outra Hne. split.
    + rewrite filter_app, filter_chave_cabecalhos, decide_False by done.
      rewrite filter_cons, decide_False by (simpl; intros Heq; by apply Hne).
      by rewrite app_nil_r.
    + by rewrite filter_app, filter_chave_itens, decide_False.
Qed.

Lemma filter_todos {A} (P : A -> Prop) `{forall x, Decision (P x)} (l : list A) :
  Forall P l -> filter P l = l.
Proof.
  induction 1 as [| x l Hx _ IH]; [done |]. by rewrite filter_cons, decide_True, IH.
Qed.

Lemma filter_nenhum {A} (P : A -> Prop) `{forall x, Decision (P x)} (l : list A) :
  Forall (fun x => ~ P x) l -> filter P l = [].
Proof.
  induction 1 as [| x l Hx _ IH]; [done |]. by rewrite filter_cons, decide_False, IH.
Qed.

(** The two ways [salvar_no_banco] ends. *)
Lemma salvar_no_banco_casos (cab : cabecalho) (itens : list item) (n c : string) (w : mundo) :
  tudo_vinculavel cab itens = true
  /\ salvar_no_banco cab itens n c w
     = (inr tt, Mundo (fs w) (efeito_salvar cab itens n c (bd w))
                  (rastro w ++ [EvLog INFO (MsgNFeSalva (cab_numero_nf cab) (length itens))]))
  \/ tudo_vinculavel cab itens = false
     /\ exists e, salvar_no_banco cab itens n c w
                  = (inl e, Mundo (fs w) (bd w) (rastro w ++ [EvLog ERROR (MsgErroSalvar e)])).
Proof.
  unfold salvar_no_banco, tenta, encadeia, na_conexao.
  destruct (salvar_na_conexao_efeito cab itens n c (bd w))
    as (r0 & c' & -> & [(Hb & -> & Hc) | (Hb & (e & ->) & Hc)]); rewrite Hc.
  - by left.
  - right. split; [done |]. exists e. by destruct w.
Qed.

(** C1.  [salvar_no_banco] leaves the files alone and ends in one of two
    ways.  When every parameter binds it returns, and the database holds
    the effect of all its statements: exactly one header row for the
    access key of the document, the new one; as items of that key the
    items of the new document and no older one; the rows of every other
    key as before.  Otherwise it raises, and the database is the one it
    started from: the header write, the delete and the inserts before the
    failing statement are rolled back.  Both ends are logged. *)
Theorem salvar_no_banco_atomico (cab : cabecalho) (itens : list item)
    (nome_arquivo caminho_original : string) (w : mundo) :
  let chave := cab_chave_acesso cab in
  let r := fst (salvar_no_banco cab itens nome_arquivo caminho_original w) in
  let w' := snd (salvar_no_banco cab itens nome_arquivo caminho_original w) in
  fs w' = fs w
  /\ (tudo_vinculavel cab itens = true
      /\ r = inr tt
      /\ bd w' = efeito_salvar cab itens nome_arquivo caminho_original (bd w)
      /\ rastro w'
         = rastro w ++ [EvLog INFO (MsgNFeSalva (cab_numero_nf cab) (length itens))]
      /\ cabecalhos_de chave (bd w')
         = [LinhaCabecalho (seq_cabecalho (bd w) + 1) cab nome_arquivo caminho_original]
      /\ (Forall (fun i => item_chave_acesso i = chave) itens ->
            itens_de chave (bd w') = itens)
      /\ (forall outra, outra <> chave ->
            cabecalhos_de outra (bd w') = cabecalhos_de outra (bd w)
            /\ (Forall (fun i => item_chave_acesso i = chave) itens ->
                  itens_de outra (bd w') = itens_de outra (bd w)))
      \/ tudo_vinculavel cab itens = false
         /\ exists e, r = inl e
              /\ bd w' = bd w
              /\ rastro w' = rastro w ++ [EvLog ERROR (MsgErroSalvar e)]).
Proof.
  intros chave r w'. subst chave r w'.
  destruct (salvar_no_banco_casos cab itens nome_arquivo caminho_original w)
    as [[Hb ->] | [Hb (e & ->)]]; cbn [fst snd fs bd rastro].
  - split; [done |]. left.
    destruct (efeito_salvar_linhas cab itens nome_arquivo caminho_original (bd w))
      as (Hcab & Hitens & Houtras).
    split; [done |]. split; [done |]. split; [done |]. split; [done |].
    split; [done |]. split.
    + intros Hk. rewrite Hitens. by apply filter_todos.
    + intros outra Hne. split; [by apply Houtras |].
      intros Hk. destruct (Houtras outra) as [_ ->]; [done |].
      rewrite filter_nenhum; [by rewrite app_nil_r |].
      eapply Forall_impl; [exact Hk |]. simpl. intros i Hi Hi'. apply Hne.
      congruence.
  - split; [done |]. right. split; [done |]. by exists e.
Qed.

Lemma salvar_no_banco_atomico_exemplo :
  length (itens_de (cab_chave_acesso cab_exemplo) banco_com_dois) = 2%nat
  /\ itens_de (cab_chave_acesso cab_exemplo)
       (bd (snd (salvar_no_banco cab_exemplo itens_exemplo "nota.xml" "nota.xml"
                   mundo_com_dois)))
     = itens_exemplo.
Proof.
  split; [vm_compute; reflexivity |].
  destruct (salvar_no_banco_atomico cab_exemplo itens_exemplo "nota.xml" "nota.xml"
              mundo_com_dois) as [_ [(_ & _ & _ & _ & _ & H & _) | (Hb & _)]].
  - apply H. vm_compute. repeat constructor.
  - vm_compute in Hb. discriminate.
Defined.

(** An item whose product code is an element with children does not
    bind: the header and the first item written before it are gone. *)
Example salvar_no_banco_desfaz :
  let ruim := Item (cab_chave_acesso cab_exemplo) 2 (VDict [("x", VStr "1")]) VNone VNone VNone
                zero_float zero_float zero_float zero_float zero_float zero_float in
  salvar_no_banco cab_exemplo (itens_exemplo ++ [ruim]) "nota.xml" "nota.xml" mundo_com_dois
  = (inl SqliteError,
     Mundo fs_exemplo banco_com_dois [EvLog ERROR (MsgErroSalvar SqliteError)]).
Proof. vm_compute. reflexivity. Qed.

(** ** C5 and C6: [processar_xml] *)

(** The [try] block of [processar_xml], step by step. *)
Lemma processar_xml_try_passos (self : processador) (arquivo : caminho) (w : mundo) :
  let rel := caminho_relativo self arquivo in
  let w0 := com_evento (EvLog INFO (MsgProcessando rel)) w in
  processar_xml_try self arquivo w =
  match documento_de (fs w) arquivo with
  | inl e =>
      match liga (ler (fs w) arquivo) xmltodict_parse with
      | inl _ => (inl e, w0)
      | inr _ => (inl e, com_evento (EvLog ERROR (MsgErroExtrair e)) w0)
      end
  | inr (cab, itens) =>
      match salvar_no_banco cab itens (nome arquivo) rel w0 with
      | (inl e, w1) => (inl e, w1)
      | (inr _, w1) =>
          match shutil_move (fs w1) arquivo
                  (gerar_nome_unico (fs w1) arquivo (pasta_processados self)) with
          | inl e => (inl e, w1)
          | inr f => (inr tt, com_evento (EvLog INFO (MsgProcessado (nome arquivo)))
                                (com_fs f w1))
          end
      end
  end.
Proof.
  intros rel w0.
  subst w0 rel. destruct w as [f b tr].
  cbv [processar_xml_try documento_de encadeia registra emite altera obtem eleva mover
       extrair_dados_nfe tenta com_evento com_fs levanta fs bd rastro].
  destruct (ler f arquivo) as [e | t]; cbn [liga]; [done |].
  destruct (xmltodict_parse t) as [e | x]; cbn [liga]; [done |].
  destruct (extrair_dados_nfe_try x) as [e | [cab itens]]; cbn [fst snd]; [done |].
  destruct (salvar_no_banco cab itens (nome arquivo) _ _) as [[e | []] [f1 b1 tr1]];
    [done |].
  cbn [fs bd rastro].
  by destruct (shutil_move f1 arquivo _) as [e | f'].
Qed.

Lemma mover_para_erros_passos (self : processador) (arquivo : caminho) (w : mundo) :
  mover_para_erros self arquivo w =
  match shutil_move (fs w) arquivo (gerar_nome_unico (fs w) arquivo (pasta_erros self)) with
  | inr f => (inr tt, com_evento (EvLog INFO (MsgMovidoParaErros (nome arquivo))) (com_fs f w))
  | inl e2 => (inr tt, com_evento (EvLog ERROR (MsgErroMover e2)) w)
  end.
Proof.
  destruct w as [f b tr].
  cbv [mover_para_erros tenta encadeia obtem mover registra emite altera com_evento com_fs
       fs bd rastro].
  by destruct (shutil_move f arquivo _).
Qed.

Lemma processar_xml_passos (self : processador) (arquivo : caminho) (w : mundo) :
  processar_xml self arquivo w =
  match processar_xml_try self arquivo w with
  | (inr _, w1) => (inr tt, w1)
  | (inl e, w1) =>
      mover_para_erros self arquivo
        (com_evento (EvLog ERROR (MsgErroProcessar (caminho_relativo self arquivo) e)) w1)
  end.
Proof.
  unfold processar_xml, tenta.
  destruct (processar_xml_try self arquivo w) as [[e | []] w1]; [| done].
  by destruct w1.
Qed.

(** [processar_xml] never raises. *)
Lemma processar_xml_retorna (self : processador) (arquivo : caminho) (w : mundo) :
  fst (processar_xml self arquivo w) = inr tt.
Proof.
  rewrite processar_xml_passos.
  destruct (processar_xml_try self arquivo w) as [[e | []] w1]; [| done].
  rewrite mover_para_erros_passos. by destruct (shutil_move _ _ _).
Qed.

(** Moving a file to a path that does not exist. *)
Lemma shutil_move_arquivo (f : sistema_arquivos) (src dst : caminho) (c : conteudo) :
  f !! src = Some (Arquivo c) -> f !! dst = None ->
  shutil_move f src dst =
  if eh_pasta f (pai dst) then inr (<[dst := Arquivo c]> (delete src f))
  else inl FileNotFoundError.
Proof.
  intros Hsrc Hdst. unfold shutil_move.
  replace (eh_pasta f dst) with false by (unfold eh_pasta; by rewrite Hdst).
  by rewrite Hsrc.
Qed.

Lemma shutil_move_ausente (f : sistema_arquivos) (src dst : caminho) :
  f !! src = None -> f !! dst = None -> shutil_move f src dst = inl FileNotFoundError.
Proof.
  intros Hsrc Hdst. unfold shutil_move.
  replace (eh_pasta f dst) with false by (unfold eh_pasta; by rewrite Hdst).
  by rewrite Hsrc.
Qed.

(** How the [try] block ends when the document is not accepted: with
    an exception, the files and the store as they were. *)
Lemma processar_xml_try_rejeitado (self : processador) (arquivo : caminho) (w : mundo) :
  documento_aceito (fs w) arquivo = false ->
  let rel := caminho_relativo self arquivo in
  exists e detalhe,
    processar_xml_try self arquivo w
    = (inl e, Mundo (fs w) (bd w)
                (rastro w ++ EvLog INFO (MsgProcessando rel) :: detalhe))
    /\ (documento_de (fs w) arquivo = inl e
        /\ (detalhe = [] \/ detalhe = [EvLog ERROR (MsgErroExtrair e)])
        \/ (exists cab itens, documento_de (fs w) arquivo = inr (cab, itens)
                              /\ tudo_vinculavel cab itens = false)
           /\ detalhe = [EvLog ERROR (MsgErroSalvar e)]).
Proof.
  intros Hrej rel. unfold documento_aceito in Hrej.
  rewrite processar_xml_try_passos. fold rel.
  destruct (documento_de (fs w) arquivo) as [e | [cab itens]] eqn:Hdoc.
  - destruct (liga (ler (fs w) arquivo) xmltodict_parse).
    + exists e, []. split; [done |]. left. eauto.
    + exists e, [EvLog ERROR (MsgErroExtrair e)]. split; [| left; eauto].
      unfold com_evento. simpl. by rewrite <- app_assoc.
  - destruct (salvar_no_banco_casos cab itens (nome arquivo) rel
                (com_evento (EvLog INFO (MsgProcessando rel)) w))
      as [[Hb _] | [_ (e & ->)]]; [congruence |].
    exists e, [EvLog ERROR (MsgErroSalvar e)]. split; [| right; eauto].
    unfold com_evento. simpl. by rewrite <- app_assoc.
Qed.

(** How it ends when the document is accepted: the store is written, and
    then the move to [pasta_processados] is tried. *)
Lemma processar_xml_try_aceito (self : processador) (arquivo : caminho) (w : mundo) :
  documento_aceito (fs w) arquivo = true ->
  let rel := caminho_relativo self arquivo in
  exists cab itens,
    documento_de (fs w) arquivo = inr (cab, itens)
    /\ let b := efeito_salvar cab itens (nome arquivo) rel (bd w) in
       let tr := rastro w ++ [EvLog INFO (MsgProcessando rel);
                              EvLog INFO (MsgNFeSalva (cab_numero_nf cab) (length itens))] in
       processar_xml_try self arquivo w =
       match shutil_move (fs w) arquivo
               (gerar_nome_unico (fs w) arquivo (pasta_processados self)) with
       | inl e => (inl e, Mundo (fs w) b tr)
       | inr f => (inr tt, Mundo f b (tr ++ [EvLog INFO (MsgProcessado (nome arquivo))]))
       end.
Proof.
  intros Hac rel. unfold documento_aceito in Hac.
  rewrite processar_xml_try_passos. fold rel.
  destruct (documento_de (fs w) arquivo) as [e | [cab itens]] eqn:Hdoc; [done |].
  exists cab, itens. split; [done |].
  destruct (salvar_no_banco_casos cab itens (nome arquivo) rel
              (com_evento (EvLog INFO (MsgProcessando rel)) w))
    as [[_ ->] | [Hb _]]; [| congruence].
  cbn [fs bd rastro com_evento com_fs]. rewrite <- app_assoc.
  by destruct (shutil_move _ _ _).
Qed.

Lemma documento_aceito_arquivo (f : sistema_arquivos) (arquivo : caminho) :
  documento_aceito f arquivo = true ->
  exists x, f !! arquivo = Some (Arquivo (Texto (BemFormado x))).
Proof.
  unfold documento_aceito, documento_de, ler.
  destruct (f !! arquivo) as [[[| [| x]] |] |]; try done. eauto.
Qed.

(** The world after [processar_xml] when the document is not accepted. *)
Lemma processar_xml_rejeitado (self : processador) (arquivo : caminho) (w : mundo) :
  documento_aceito (fs w) arquivo = false ->
  let rel := caminho_relativo self arquivo in
  exists e detalhe,
    (detalhe = [] \/ detalhe = [EvLog ERROR (MsgErroExtrair e)]
     \/ detalhe = [EvLog ERROR (MsgErroSalvar e)])
    /\ snd (processar_xml self arquivo w)
       = match shutil_move (fs w) arquivo
                 (gerar_nome_unico (fs w) arquivo (pasta_erros self)) with
         | inr f =>
             Mundo f (bd w)
               (rastro w ++ EvLog INFO (MsgProcessando rel) :: detalhe
                ++ [EvLog ERROR (MsgErroProcessar rel e);
                    EvLog INFO (MsgMovidoParaErros (nome arquivo))])
         | inl e2 =>
             Mundo (fs w) (bd w)
               (rastro w ++ EvLog INFO (MsgProcessando rel) :: detalhe
                ++ [EvLog ERROR (MsgErroProcessar rel e);
                    EvLog ERROR (MsgErroMover e2)])
         end.
Proof.
  intros Hrej rel.
  destruct (processar_xml_try_rejeitado self arquivo w Hrej) as (e & detalhe & Htry & Hcaso).
  fold rel in Htry. exists e, detalhe. split.
  - destruct Hcaso as [[_ [-> | ->]] | [_ ->]]; eauto.
  - rewrite processar_xml_passos, Htry, mover_para_erros_passos.
    cbn [fs bd rastro com_evento com_fs]. fold rel.
    destruct (shutil_move (fs w) arquivo _);
      unfold com_evento, com_fs; cbn [snd fs bd rastro]; by rewrite <- !app_assoc.
Qed.

(** The world after [processar_xml] when the document is accepted. *)
Lemma processar_xml_aceito (self : processador) (arquivo : caminho) (w : mundo) :
  documento_aceito (fs w) arquivo = true ->
  let rel := caminho_relativo self arquivo in
  let destino := gerar_nome_unico (fs w) arquivo (pasta_processados self) in
  let destino_erro := gerar_nome_unico (fs w) arquivo (pasta_erros self) in
  exists cab itens c,
    documento_de (fs w) arquivo = inr (cab, itens)
    /\ fs w !! arquivo = Some (Arquivo c)
    /\ let b := efeito_salvar cab itens (nome arquivo) rel (bd w) in
       let tr := rastro w ++ [EvLog INFO (MsgProcessando rel);
                              EvLog INFO (MsgNFeSalva (cab_numero_nf cab) (length itens))] in
       snd (processar_xml self arquivo w)
       = if eh_pasta (fs w) (pasta_processados self)
         then Mundo (<[destino := Arquivo c]> (delete arquivo (fs w))) b
                (tr ++ [EvLog INFO (MsgProcessado (nome arquivo))])
         else if eh_pasta (fs w) (pasta_erros self)
         then Mundo (<[destino_erro := Arquivo c]> (delete arquivo (fs w))) b
                (tr ++ [EvLog ERROR (MsgErroProcessar rel FileNotFoundError);
                        EvLog INFO (MsgMovidoParaErros (nome arquivo))])
         else Mundo (fs w) b
                (tr ++ [EvLog ERROR (MsgErroProcessar rel FileNotFoundError);
                        EvLog ERROR (MsgErroMover FileNotFoundError)]).
Proof.
  intros Hac rel destino destino_erro.
  destruct (processar_xml_try_aceito self arquivo w Hac) as (cab & itens & Hdoc & Htry).
  destruct (documento_aceito_arquivo _ _ Hac) as (x & Hsrc).
  fold rel destino in Htry. cbn zeta in Htry.
  pose proof (gerar_nome_unico_termina (fs w) arquivo (pasta_processados self)) as Hp.
  pose proof (gerar_nome_unico_termina (fs w) arquivo (pasta_erros self)) as Hpe.
  unfold gerar_nome_unico_em in Hp, Hpe.
  apply laco_resultado in Hp as [Hlivre%existe_false Hp].
  apply laco_resultado in Hpe as [Hlivre_e%existe_false Hpe].
  fold destino in Hlivre, Hp. fold destino_erro in Hlivre_e, Hpe.
  assert (Hpai : pai destino = pasta_processados self).
  { destruct Hp as [[_ ->] | [_ (n & _ & -> & _)]]; apply pai_barra. }
  assert (Hpai_e : pai destino_erro = pasta_erros self).
  { destruct Hpe as [[_ ->] | [_ (n & _ & -> & _)]]; apply pai_barra. }
  exists cab, itens, (Texto (BemFormado x)).
  split; [done |]. split; [done |]. cbn zeta.
  rewrite (shutil_move_arquivo _ _ _ _ Hsrc Hlivre), Hpai in Htry.
  rewrite processar_xml_passos, Htry.
  destruct (eh_pasta (fs w) (pasta_processados self)); [done |].
  rewrite mover_para_erros_passos. unfold com_evento. cbn [fs bd rastro].
  fold destino_erro.
  rewrite (shutil_move_arquivo _ _ _ _ Hsrc Hlivre_e), Hpai_e.
  destruct (eh_pasta (fs w) (pasta_erros self)); unfold com_fs, com_evento;
    cbn [snd fs bd rastro]; by rewrite <- !app_assoc.
Qed.

(** The result of [gerar_nome_unico] is free and in the directory asked for. *)
Lemma gerar_nome_unico_novo (f : sistema_arquivos) (arquivo pasta : caminho) :
  f !! gerar_nome_unico f arquivo pasta = None
  /\ pai (gerar_nome_unico f arquivo pasta) = pasta.
Proof.
  pose proof (gerar_nome_unico_termina f arquivo pasta) as Hp.
  unfold gerar_nome_unico_em in Hp.
  apply laco_resultado in Hp as [Hlivre%existe_false Hp]. split; [done |].
  destruct Hp as [[_ ->] | [_ (n & _ & -> & _)]]; apply pai_barra.
Qed.

(** C5.  When reading, parsing, extracting or storing the file fails,
    [processar_xml] returns without raising and leaves the store as it
    was.  The failure is logged with the relative path of the file, after
    the lines of the steps that ran.  Then the move to [pasta_erros] is
    tried: when it succeeds the files are as that move leaves them and the
    move is logged; when it raises, the files are as they were and only
    the second failure is logged.  No entry of [pasta_processados] other
    than the file itself changes.  A file with a directory [pasta_erros]
    to go to ends up there, under the name [gerar_nome_unico] chose, and
    is gone from where it was. *)
Theorem falha_vai_para_erros (self : processador) (arquivo : list string) (w : mundo) :
  documento_aceito (fs w) arquivo = false ->
  let w' := snd (processar_xml self arquivo w) in
  let rel := caminho_relativo self arquivo in
  let destino_erro := gerar_nome_unico (fs w) arquivo (pasta_erros self) in
  fst (processar_xml self arquivo w) = inr tt
  /\ bd w' = bd w
  /\ (forall r, relative_to arquivo (pasta_xml self) = Some r -> rel = str_relativo r)
  /\ (exists e detalhe,
        (detalhe = [] \/ detalhe = [EvLog ERROR (MsgErroExtrair e)]
         \/ detalhe = [EvLog ERROR (MsgErroSalvar e)])
        /\ match shutil_move (fs w) arquivo destino_erro with
           | inr f =>
               fs w' = f
               /\ rastro w' = rastro w ++ EvLog INFO (MsgProcessando rel) :: detalhe
                               ++ [EvLog ERROR (MsgErroProcessar rel e);
                                   EvLog INFO (MsgMovidoParaErros (nome arquivo))]
           | inl e2 =>
               fs w' = fs w
               /\ rastro w' = rastro w ++ EvLog INFO (MsgProcessando rel) :: detalhe
                               ++ [EvLog ERROR (MsgErroProcessar rel e);
                                   EvLog ERROR (MsgErroMover e2)]
           end)
  /\ (pasta_erros self <> pasta_processados self -> eh_pasta (fs w) arquivo = false ->
        forall q, pai q = pasta_processados self -> q <> arquivo ->
                  fs w' !! q = fs w !! q)
  /\ (forall c, fs w !! arquivo = Some (Arquivo c) ->
        pai destino_erro = pasta_erros self
        /\ fs w !! destino_erro = None
        /\ if eh_pasta (fs w) (pasta_erros self)
           then fs w' !! arquivo = None /\ fs w' !! destino_erro = Some (Arquivo c)
           else fs w' = fs w).
Proof.
  intros Hrej w' rel destino_erro.
  destruct (processar_xml_rejeitado self arquivo w Hrej) as (e & detalhe & Hdet & Hw').
  fold rel destino_erro w' in Hw'.
  destruct (gerar_nome_unico_novo (fs w) arquivo (pasta_erros self)) as [Hlivre Hpai].
  fold destino_erro in Hlivre, Hpai.
  split; [apply processar_xml_retorna |].
  split; [rewrite Hw'; by destruct (shutil_move _ _ _) |].
  split; [intros r Hr; unfold rel, caminho_relativo; by rewrite Hr |].
  split; [| split].
  - exists e, detalhe. split; [done |].
    rewrite Hw'. by destruct (shutil_move _ _ _).
  - intros Hdirs Hnaopasta q Hq Hqa. rewrite Hw'.
    destruct (fs w !! arquivo) as [[c |] |] eqn:Hsrc.
    + rewrite (shutil_move_arquivo _ _ _ c) by done.
      destruct (eh_pasta (fs w) (pai destino_erro)); [| done].
      cbn [fs]. rewrite lookup_insert_ne, lookup_delete_ne; [done | done |].
      intros <-. congruence.
    + unfold eh_pasta in Hnaopasta. by rewrite Hsrc in Hnaopasta.
    + by rewrite shutil_move_ausente.
  - intros c Hsrc. split; [done |]. split; [done |].
    rewrite Hw', (shutil_move_arquivo _ _ _ c), Hpai by done.
    destruct (eh_pasta (fs w) (pasta_erros self)); [| done].
    cbn [fs]. split; [| apply lookup_insert_eq].
    rewrite lookup_insert_ne, lookup_delete_eq; [done |].
    intros Heq. rewrite Heq in Hlivre. congruence.
Qed.

Lemma falha_vai_para_erros_exemplo :
  let w' := snd (processar_xml processador_exemplo ["xml_nfe"; "ruim.xml"] mundo_malformado) in
  bd w' = banco_vazio
  /\ fs w' !! ["xml_nfe"; "ruim.xml"] = None
  /\ fs w' !! ["erros"; "ruim.xml"] = Some (Arquivo (Texto Malformado))
  /\ fs w' !! ["processados"; "ruim.xml"] = None.
Proof.
  destruct (falha_vai_para_erros processador_exemplo ["xml_nfe"; "ruim.xml"] mundo_malformado)
    as (_ & Hbd & _ & _ & Hproc & Herros); [vm_compute; reflexivity |].
  split; [exact Hbd |].
  destruct (Herros (Texto Malformado)) as (_ & _ & H); [vm_compute; reflexivity |].
  split; [exact (proj1 H) |]. split; [exact (proj2 H) |].
  rewrite Hproc; [| vm_compute; discriminate | | |]; vm_compute; (reflexivity || discriminate).
Defined.

Example processar_xml_malformado :
  rastro (snd (processar_xml processador_exemplo ["xml_nfe"; "ruim.xml"] mundo_malformado))
  = [EvLog INFO (MsgProcessando "ruim.xml");
     EvLog ERROR (MsgErroProcessar "ruim.xml" ExpatError);
     EvLog INFO (MsgMovidoParaErros "ruim.xml")].
Proof. vm_compute. reflexivity. Qed.

(** C6, counterexample.  With [pasta_processados] missing, the document
    is committed to the store and the file then goes to [pasta_erros]; with
    both directories missing, the document is committed and the file stays
    where it was. *)
Lemma commit_sem_mover_para_processados :
  let arquivo := ["xml_nfe"; "nota.xml"] in
  let chave := "35200714200166000187550010000000046550010466" in
  let w1 := snd (processar_xml processador_exemplo arquivo mundo_sem_processados) in
  let w2 := snd (processar_xml processador_exemplo arquivo mundo_sem_destinos) in
  (cabecalhos_de chave (bd mundo_sem_processados) = []
   /\ length (cabecalhos_de chave (bd w1)) = 1%nat
   /\ itens_de chave (bd w1) = itens_exemplo
   /\ fs w1 !! ["processados"; "nota.xml"] = None
   /\ fs w1 !! ["erros"; "nota.xml"] = Some (Arquivo (Texto (BemFormado doc_exemplo)))
   /\ rastro w1 = [EvLog INFO (MsgProcessando "nota.xml");
                   EvLog INFO (MsgNFeSalva (VStr "4") 1);
                   EvLog ERROR (MsgErroProcessar "nota.xml" FileNotFoundError);
                   EvLog INFO (MsgMovidoParaErros "nota.xml")])
  /\ (length (cabecalhos_de chave (bd w2)) = 1%nat
      /\ fs w2 !! arquivo = Some (Arquivo (Texto (BemFormado doc_exemplo)))
      /\ fs w2 = fs mundo_sem_destinos).
Proof. repeat split; vm_compute; reflexivity. Qed.

(** C6, amended.  When reading, parsing, extracting and storing the file
    succeed, the store holds the document, and only then is the move to
    [pasta_processados] tried.  When that move succeeds, [processar_xml]
    logs the success, the file is gone from where it was and is in
    [pasta_processados] under the name [gerar_nome_unico] chose; it
    succeeds whenever [pasta_processados] is a directory.  When it raises,
    the rows stay committed and the file is handled as after any other
    failure: moved to [pasta_erros], or left in place when that move
    raises too.  Without such a success the store is not written at
    all. *)
Theorem commit_antes_de_mover (self : processador) (arquivo : list string) (w : mundo) :
  let w' := snd (processar_xml self arquivo w) in
  let rel := caminho_relativo self arquivo in
  let destino := gerar_nome_unico (fs w) arquivo (pasta_processados self) in
  let destino_erro := gerar_nome_unico (fs w) arquivo (pasta_erros self) in
  (documento_aceito (fs w) arquivo = false -> bd w' = bd w)
  /\ (documento_aceito (fs w) arquivo = true ->
      exists cab itens c,
        documento_de (fs w) arquivo = inr (cab, itens)
        /\ fs w !! arquivo = Some (Arquivo c)
        /\ bd w' = efeito_salvar cab itens (nome arquivo) rel (bd w)
        /\ fs w !! destino = None
        /\ pai destino = pasta_processados self
        /\ if eh_pasta (fs w) (pasta_processados self)
           then fs w' = <[destino := Arquivo c]> (delete arquivo (fs w))
                /\ fs w' !! arquivo = None
                /\ fs w' !! destino = Some (Arquivo c)
                /\ last (rastro w') = Some (EvLog INFO (MsgProcessado (nome arquivo)))
           else In (EvLog ERROR (MsgErroProcessar rel FileNotFoundError)) (rastro w')
                /\ if eh_pasta (fs w) (pasta_erros self)
                   then fs w' = <[destino_erro := Arquivo c]> (delete arquivo (fs w))
                   else fs w' = fs w).
Proof.
  intros w' rel destino destino_erro. split.
  - intros Hrej.
    destruct (processar_xml_rejeitado self arquivo w Hrej) as (e & detalhe & _ & Hw').
    fold w' in Hw'. rewrite Hw'. by destruct (shutil_move _ _ _).
  - intros Hac.
    destruct (processar_xml_aceito self arquivo w Hac)
      as (cab & itens & c & Hdoc & Hsrc & Hw').
    fold rel destino destino_erro w' in Hw'. cbn zeta in Hw'.
    destruct (gerar_nome_unico_novo (fs w) arquivo (pasta_processados self))
      as [Hlivre Hpai].
    fold destino in Hlivre, Hpai.
    exists cab, itens, c.
    split; [done |]. split; [done |]. rewrite Hw'.
    destruct (eh_pasta (fs w) (pasta_processados self)).
    + cbn [fs bd rastro]. split; [done |]. split; [done |]. split; [done |].
      split; [done |]. split; [| split].
      * rewrite lookup_insert_ne, lookup_delete_eq; [done |].
        intros Heq. rewrite Heq in Hlivre. congruence.
      * apply lookup_insert_eq.
      * by rewrite last_snoc.
    + destruct (eh_pasta (fs w) (pasta_erros self));
        cbn [fs bd rastro]; (split; [done |]); (split; [done |]); (split; [done |]);
        (split; [| done]); rewrite !in_app_iff; simpl; tauto.
Qed.

Lemma commit_antes_de_mover_exemplo :
  let arquivo := ["xml_nfe"; "nota.xml"] in
  exists cab itens c,
    documento_de fs_exemplo arquivo = inr (cab, itens)
    /\ fs_exemplo !! arquivo = Some (Arquivo c)
    /\ fs (snd (processar_xml processador_exemplo arquivo mundo_com_dois)) !! arquivo = None
    /\ fs (snd (processar_xml processador_exemplo arquivo mundo_com_dois))
         !! ["processados"; "nota_002-.xml"] = Some (Arquivo c).
Proof.
  intros arquivo.
  destruct (proj2 (commit_antes_de_mover processador_exemplo arquivo mundo_com_dois))
    as (cab & itens & c & Hdoc & Hsrc & _ & _ & _ & H); [vm_compute; reflexivity |].
  exists cab, itens, c. split; [exact Hdoc |]. split; [exact Hsrc |].
  change (eh_pasta (fs mundo_com_dois) (pasta_processados processador_exemplo))
    with true in H.
  destruct H as (_ & Ha & Hd & _). split; [exact Ha |].
  replace ["processados"; "nota_002-.xml"]
    with (gerar_nome_unico (fs mundo_com_dois) arquivo (pasta_processados processador_exemplo))
    by (vm_compute; reflexivity).
  exact Hd.
Defined.

(** ** C9 and C10: what the sweep and the watch accept *)

Lemma fnmatch_estrela (padrao s : string) :
  fnmatch (String "*" padrao) s
  = fnmatch padrao s
    || match s with
       | String _ s' => fnmatch (String "*" padrao) s'
       | EmptyString => false
       end.
Proof. by destruct s. Qed.

(** A star before a pattern that matches only [literal] matches the
    names that end with [literal]. *)
Lemma fnmatch_estrela_literal (padrao literal : string) :
  (forall s, fnmatch padrao s = true <-> s = literal) ->
  forall s, fnmatch (String "*" padrao) s = true <-> termina_com literal s.
Proof.
  intros Hlit s. induction s as [| c s IH]; rewrite fnmatch_estrela, orb_true_iff, Hlit.
  - split.
    + intros [<- | ?]; [by exists "" | done].
    + intros ([| ? ?] & H); [by left | done].
  - rewrite IH. split.
    + intros [<- | (pre & ->)]; [by exists "" | by exists (String c pre)].
    + intros ([| c' pre] & H); [by left |]. right. exists pre. by injection H.
Qed.

Lemma fnmatch_ponto_xml (s : string) : fnmatch ".xml" s = true <-> s = ".xml".
Proof.
  split; [| by intros ->].
  destruct s as [| c1 [| c2 [| c3 [| c4 [| c5 s]]]]]; cbn [fnmatch]; intros H;
    repeat (apply andb_true_iff in H as [?%Ascii.eqb_eq H]); by subst.
Qed.

Lemma fnmatch_xml (s : string) : fnmatch "xml" s = true <-> s = "xml".
Proof.
  split; [| by intros ->].
  destruct s as [| c1 [| c2 [| c3 [| c4 s]]]]; cbn [fnmatch]; intros H;
    repeat (apply andb_true_iff in H as [?%Ascii.eqb_eq H]); by subst.
Qed.

Lemma rglob_elem (f : sistema_arquivos) (raiz : caminho) (padrao : string) (p : caminho) :
  p ∈ rglob f raiz padrao
  <-> is_Some (f !! p) /\ abaixo_de raiz p = true /\ fnmatch padrao (nome p) = true.
Proof.
  unfold rglob. rewrite list_elem_of_filter, list_elem_of_fmap. split.
  - intros [HP ([q x] & -> & Hin)]. apply elem_of_map_to_list in Hin. simpl in *. eauto.
  - intros ([x Hx] & HP). split; [done |]. exists (p, x). split; [done |].
    by apply elem_of_map_to_list.
Qed.

Lemma glob_elem (f : sistema_arquivos) (raiz : caminho) (padrao : string) (p : caminho) :
  p ∈ glob f raiz padrao
  <-> is_Some (f !! p) /\ pai p = raiz /\ abaixo_de raiz p = true
      /\ fnmatch padrao (nome p) = true.
Proof.
  unfold glob. rewrite list_elem_of_filter, list_elem_of_fmap. split.
  - intros [HP ([q x] & -> & Hin)]. apply elem_of_map_to_list in Hin. simpl in *. eauto.
  - intros ([x Hx] & HP). split; [done |]. exists (p, x). split; [done |].
    by apply elem_of_map_to_list.
Qed.

Lemma arquivos_existentes_NoDup (self : processador) (f : sistema_arquivos) :
  NoDup (arquivos_existentes self f).
Proof.
  unfold arquivos_existentes, rglob, glob.
  destruct (busca_recursiva self); apply NoDup_filter, NoDup_fst_map_to_list.
Qed.

(** C9.  With [busca_recursiva] off the sweep takes the entries directly
    in [pasta_xml] whose name ends with ["xml"], dot or no dot: the file
    ["notaxml"], which has no extension, is enumerated, stored and moved
    to [pasta_processados].  With [busca_recursiva] on it takes the
    entries at any depth below [pasta_xml] whose name ends with [".xml"].
    No entry is listed twice. *)
Theorem varredura_plana_aceita_nome_sem_extensao :
  (suffix ["xml_nfe"; "notaxml"] = "" /\ ~ termina_com ".xml" "notaxml")
  /\ arquivos_existentes processador_plano (fs mundo_sem_ponto) = [["xml_nfe"; "notaxml"]]
  /\ (let w' := snd (processar_arquivos_existentes processador_plano mundo_sem_ponto) in
      fs w' !! ["xml_nfe"; "notaxml"] = None
      /\ fs w' !! ["processados"; "notaxml"] = Some (Arquivo (Texto (BemFormado doc_exemplo)))
      /\ length (nfe_cabecalho (bd w')) = 1%nat)
  /\ (forall (self : processador) (f : gmap (list string) no) (p : list string),
        busca_recursiva self = false ->
        (p ∈ arquivos_existentes self f
         <-> is_Some (f !! p) /\ pai p = pasta_xml self /\ abaixo_de (pasta_xml self) p = true
             /\ termina_com "xml" (nome p)))
  /\ (forall (self : processador) (f : gmap (list string) no) (p : list string),
        busca_recursiva self = true ->
        (p ∈ arquivos_existentes self f
         <-> is_Some (f !! p) /\ abaixo_de (pasta_xml self) p = true
             /\ termina_com ".xml" (nome p)))
  /\ (forall (self : processador) (f : gmap (list string) no),
        NoDup (arquivos_existentes self f)).
Proof.
  split; [| split; [| split; [| split; [| split]]]].
  - split; [vm_compute; reflexivity |]. intros (pre & H).
    destruct pre as [| c1 [| c2 [| c3 [| c4 pre]]]]; try discriminate H.
    apply (f_equal String.length) in H.
    rewrite (append_length (String c1 (String c2 (String c3 (String c4 pre)))) ".xml") in H.
    simpl in H. lia.
  - vm_compute. reflexivity.
  - repeat split; vm_compute; reflexivity.
  - intros self f p Hflag. unfold arquivos_existentes. rewrite Hflag, glob_elem.
    by rewrite (fnmatch_estrela_literal "xml" "xml" fnmatch_xml).
  - intros self f p Hflag. unfold arquivos_existentes. rewrite Hflag, rglob_elem.
    by rewrite (fnmatch_estrela_literal ".xml" ".xml" fnmatch_ponto_xml).
  - apply arquivos_existentes_NoDup.
Qed.

Lemma relative_to_app (raiz resto : caminho) : relative_to (raiz ++ resto) raiz = Some resto.
Proof.
  induction raiz as [| x raiz IH]; simpl; [by destruct resto |].
  by rewrite String.eqb_refl.
Qed.

(** What [on_created] does with a file event it accepts. *)
Lemma on_created_aceita (self : processador) (event : evento_criacao) (rel : caminho)
    (w : mundo) :
  is_directory event = false ->
  lower (suffix (src_path event)) = ".xml" ->
  relative_to (src_path event) (pasta_xml self) = Some rel ->
  existe (fs w) (src_path event) = true ->
  on_created self event w
  = processar_xml self (src_path event)
      (com_evento (EvLog INFO (MsgNovoArquivo (str_relativo rel)))
         (com_evento (EvSleep 1) w)).
Proof.
  intros Hdir Hsuf Hrel Hex. unfold on_created. rewrite Hdir, Hsuf, Hrel.
  change (String.eqb ".xml" ".xml") with true. cbn [negb].
  destruct w as [f b tr]. cbn [fs] in Hex.
  cbv [encadeia emite altera obtem registra com_evento fs bd rastro].
  by rewrite Hex.
Qed.

(** C10.  The name ["DOC.XML"] directly in [pasta_xml] has the suffix
    [".XML"], which [on_created] lowers before it compares: a creation
    event for the file, still there after the wait, hands it to
    [processar_xml].  The sweep matches names against ["*.xml"] (or
    ["*xml"]) as they are, and does not list the file, whichever way
    [busca_recursiva] is set. *)
Theorem extensao_maiuscula_so_ao_vivo (self : processador) (w : mundo) :
  let arquivo := barra (pasta_xml self) "DOC.XML" in
  existe (fs w) arquivo = true ->
  suffix arquivo = ".XML"
  /\ fnmatch "*.xml" (nome arquivo) = false
  /\ fnmatch "*xml" (nome arquivo) = false
  /\ (arquivo ∉ arquivos_existentes self (fs w))
  /\ on_created self (EventoCriacao false arquivo) w
     = processar_xml self arquivo
         (com_evento (EvLog INFO (MsgNovoArquivo "DOC.XML")) (com_evento (EvSleep 1) w)).
Proof.
  intros arquivo Hex.
  assert (Hnome : nome arquivo = "DOC.XML") by apply nome_barra.
  assert (Hsuf : suffix arquivo = ".XML") by (unfold suffix; by rewrite Hnome).
  split; [done |]. rewrite Hnome. split; [done |]. split; [done |]. split.
  - unfold arquivos_existentes.
    destruct (busca_recursiva self).
    + rewrite rglob_elem, Hnome. by intros (_ & _ & ?).
    + rewrite glob_elem, Hnome. by intros (_ & _ & _ & ?).
  - apply (on_created_aceita self (EventoCriacao false arquivo) ["DOC.XML"]); try done.
    + cbn [src_path]. by rewrite Hsuf.
    + apply relative_to_app.
Qed.

Lemma extensao_maiuscula_so_ao_vivo_exemplo :
  let arquivo := barra (pasta_xml processador_exemplo) "DOC.XML" in
  suffix arquivo = ".XML"
  /\ fnmatch "*.xml" (nome arquivo) = false
  /\ fnmatch "*xml" (nome arquivo) = false
  /\ (arquivo ∉ arquivos_existentes processador_exemplo (fs mundo_maiusculas))
  /\ on_created processador_exemplo (EventoCriacao false arquivo) mundo_maiusculas
     = processar_xml processador_exemplo arquivo
         (com_evento (EvLog INFO (MsgNovoArquivo "DOC.XML"))
            (com_evento (EvSleep 1) mundo_maiusculas)).
Proof.
  apply (extensao_maiuscula_so_ao_vivo processador_exemplo mundo_maiusculas).
  vm_compute. reflexivity.
Defined.

(** The sweep leaves the file where it is; the event has it stored and
    moved. *)
Example extensao_maiuscula_ex :
  let arquivo := ["xml_nfe"; "DOC.XML"] in
  let varrido := snd (processar_arquivos_existentes processador_exemplo mundo_maiusculas) in
  let ao_vivo := snd (on_created processador_exemplo (EventoCriacao false arquivo)
                        mundo_maiusculas) in
  fs varrido = fs mundo_maiusculas /\ bd varrido = banco_vazio
  /\ rastro varrido = [EvLog INFO MsgProcessandoExistentes; EvLog INFO (MsgInicialConcluido 0)]
  /\ fs ao_vivo !! arquivo = None
  /\ fs ao_vivo !! ["processados"; "DOC.XML"] = Some (Arquivo (Texto (BemFormado doc_exemplo)))
  /\ length (nfe_cabecalho (bd ao_vivo)) = 1%nat.
Proof. repeat split; vm_compute; reflexivity. Qed.

(** ** C8: the sweep comes before the watch *)

Lemma so_registrou_refl (w : mundo) : so_registrou w w.
Proof. exists []. by rewrite app_nil_r. Qed.

Lemma so_registrou_trans (w1 w2 w3 : mundo) :
  so_registrou w1 w2 -> so_registrou w2 w3 -> so_registrou w1 w3.
Proof.
  intros (d1 & H1 & F1) (d2 & H2 & F2). exists (d1 ++ d2).
  rewrite H2, H1, <- app_assoc, forallb_app, F1, F2. done.
Qed.

Lemma so_registrou_log (n : nivel) (m : mensagem) (w : mundo) :
  so_registrou w (com_evento (EvLog n m) w).
Proof. by exists [EvLog n m]. Qed.

Lemma processar_xml_so_registra (self : processador) (arquivo : caminho) (w : mundo) :
  so_registrou w (snd (processar_xml self arquivo w)).
Proof.
  destruct (documento_aceito (fs w) arquivo) eqn:Hd.
  - destruct (processar_xml_aceito self arquivo w Hd) as (cab & itens & c & _ & _ & ->).
    repeat case_match; eexists; (split; [cbn [rastro]; by rewrite <- app_assoc | done]).
  - destruct (processar_xml_rejeitado self arquivo w Hd) as (e & detalhe & Hdet & ->).
    case_match; eexists; (split; [done |]); cbn [forallb eh_log andb];
      rewrite forallb_app; by destruct Hdet as [-> | [-> | ->]].
Qed.

(** Ingesting a file leaves the other existing entries alone. *)
Lemma processar_xml_outros (self : processador) (arquivo q : caminho) (w : mundo) :
  eh_pasta (fs w) arquivo = false -> is_Some (fs w !! q) -> q <> arquivo ->
  fs (snd (processar_xml self arquivo w)) !! q = fs w !! q.
Proof.
  intros Hnp [x Hq] Hne.
  destruct (documento_aceito (fs w) arquivo) eqn:Hd.
  - destruct (processar_xml_aceito self arquivo w Hd) as (cab & itens & c & _ & Hsrc & ->).
    destruct (gerar_nome_unico_novo (fs w) arquivo (pasta_processados self)) as [H1 _].
    destruct (gerar_nome_unico_novo (fs w) arquivo (pasta_erros self)) as [H2 _].
    repeat case_match; cbn [fs]; try done;
      rewrite lookup_insert_ne, lookup_delete_ne; congruence.
  - destruct (processar_xml_rejeitado self arquivo w Hd) as (e & detalhe & _ & ->).
    destruct (gerar_nome_unico_novo (fs w) arquivo (pasta_erros self)) as [H2 _].
    destruct (fs w !! arquivo) as [[c |] |] eqn:Hsrc.
    + rewrite (shutil_move_arquivo _ _ _ c) by done.
      destruct (eh_pasta (fs w) (pai _)); cbn [fs]; [| done].
      rewrite lookup_insert_ne, lookup_delete_ne; congruence.
    + unfold eh_pasta in Hnp. by rewrite Hsrc in Hnp.
    + by rewrite shutil_move_ausente.
Qed.

Lemma ingere_outros (self : processador) (arquivo q : caminho) (w : mundo) :
  eh_arquivo (fs w) arquivo = true -> is_Some (fs w !! q) -> q <> arquivo ->
  fs (ingere self w arquivo) !! q = fs w !! q.
Proof.
  intros Ha Hq Hne. unfold ingere. rewrite processar_xml_outros; try done.
  unfold eh_arquivo in Ha. unfold eh_pasta. cbn [fs com_evento].
  by destruct (fs w !! arquivo) as [[|] |].
Qed.

Lemma filter_ext_elem {A} (P Q : A -> Prop) `{forall x, Decision (P x)}
    `{forall x, Decision (Q x)} (l : list A) :
  (forall x, x ∈ l -> P x <-> Q x) -> filter P l = filter Q l.
Proof.
  induction l as [| x l IH]; intros Hl; [done |].
  rewrite !filter_cons, IH by (intros y Hy; apply Hl; by right).
  destruct (decide (P x)) as [HP | HP], (decide (Q x)) as [HQ | HQ]; try done.
  - destruct HQ. apply Hl; [by left | done].
  - destruct HP. apply Hl; [by left | done].
Qed.

(** The loop of the sweep ingests, in the order of the list, every path
    of the list that is a file when the sweep starts; a failure of one
    file does not stop it. *)
Lemma processar_lista_foldl (self : processador) (l : list caminho) (n : nat) (w : mundo) :
  NoDup l -> (forall q, q ∈ l -> is_Some (fs w !! q)) ->
  let arquivos := filter (fun p => eh_arquivo (fs w) p = true) l in
  processar_lista self l n w
  = (inr (n + length arquivos)%nat, foldl (ingere self) w arquivos).
Proof.
  revert n w. induction l as [| a l IH]; intros n w Hnd Hex; cbn zeta.
  - simpl. unfold puro. by rewrite Nat.add_0_r.
  - apply NoDup_cons in Hnd as [Ha Hnd].
    cbn [processar_lista]. unfold encadeia at 1. unfold obtem at 1.
    rewrite filter_cons.
    destruct (eh_arquivo (fs w) a) eqn:Hfile.
    + rewrite decide_True by done.
      unfold encadeia at 1, registra at 1, emite, altera.
      fold (com_evento (EvLog INFO (MsgProcessandoExistente (caminho_relativo self a))) w).
      unfold encadeia at 1.
      pose proof (processar_xml_retorna self a
                    (com_evento (EvLog INFO (MsgProcessandoExistente
                                               (caminho_relativo self a))) w)) as Hret.
      destruct (processar_xml self a _) as [r w1] eqn:Hp. cbn [fst] in Hret. subst r.
      assert (Hw1 : w1 = ingere self w a) by (unfold ingere; by rewrite Hp).
      assert (Hsame : forall q, q ∈ l -> fs w1 !! q = fs w !! q).
      { intros q Hq. rewrite Hw1. apply ingere_outros; [done | apply Hex; by right |].
        intros ->. done. }
      rewrite IH; [| done | intros q Hq; rewrite Hsame by done; apply Hex; by right].
      rewrite (filter_ext_elem (fun p => eh_arquivo (fs w1) p = true)
                 (fun p => eh_arquivo (fs w) p = true)).
      * cbn [length foldl]. rewrite Hw1. f_equal. f_equal. lia.
      * intros q Hq. unfold eh_arquivo. by rewrite Hsame.
    + rewrite decide_False by done. apply IH; [done |]. intros q Hq. apply Hex. by right.
Qed.

Lemma foldl_ingere_so_registra (self : processador) (l : list caminho) (w : mundo) :
  so_registrou w (foldl (ingere self) w l).
Proof.
  revert w. induction l as [| a l IH]; intros w; [apply so_registrou_refl |].
  cbn [foldl]. eapply so_registrou_trans; [| apply IH].
  unfold ingere. eapply so_registrou_trans; [| apply processar_xml_so_registra].
  apply so_registrou_log.
Qed.

(** The whole sweep. *)
Lemma processar_arquivos_existentes_passos (self : processador) (w : mundo) :
  let arquivos := arquivos_da_varredura self (fs w) in
  processar_arquivos_existentes self w
  = (inr tt,
     com_evento (EvLog INFO (MsgInicialConcluido (length arquivos)))
       (foldl (ingere self) (com_evento (EvLog INFO MsgProcessandoExistentes) w) arquivos)).
Proof.
  cbn zeta. unfold processar_arquivos_existentes.
  unfold encadeia at 1, registra at 1, emite, altera.
  fold (com_evento (EvLog INFO MsgProcessandoExistentes) w).
  unfold encadeia at 1, obtem at 1. unfold encadeia at 1.
  rewrite processar_lista_foldl.
  - done.
  - apply arquivos_existentes_NoDup.
  - intros q Hq. cbn [fs com_evento] in *. unfold arquivos_existentes in Hq.
    destruct (busca_recursiva self).
    + by apply rglob_elem in Hq as [? _].
    + by apply glob_elem in Hq as [? _].
Qed.

Lemma criar_pasta_so_registra (pasta : caminho) (w : mundo) :
  so_registrou w (snd (criar_pasta pasta w)) /\ bd (snd (criar_pasta pasta w)) = bd w.
Proof.
  destruct w as [f b tr].
  cbv [criar_pasta encadeia obtem eleva altera registra emite puro com_fs fs bd rastro].
  destruct (negb (existe f pasta)); [| split; [apply so_registrou_refl | done]].
  destruct (mkdir_p f [] pasta); cbn [snd bd]; (split; [| done]).
  - apply so_registrou_refl.
  - by eexists [_].
Qed.

Lemma init_so_registra (self : processador) (w : mundo) :
  so_registrou w (snd (init self w))
  /\ bd (snd (init self w)) = bd w
  /\ (forall p, fst (init self w) = inr p -> p = self).
Proof.
  unfold init, criar_pastas. cbn [para_cada_acao].
  unfold encadeia.
  destruct (criar_pasta_so_registra (pasta_xml self) w) as [S1 B1].
  destruct (criar_pasta (pasta_xml self) w) as [[e | []] w1]; cbn [snd] in *; [done |].
  destruct (criar_pasta_so_registra (pasta_processados self) w1) as [S2 B2].
  destruct (criar_pasta (pasta_processados self) w1) as [[e | []] w2]; cbn [snd] in *.
  { split; [by eapply so_registrou_trans | split; [congruence | done]]. }
  destruct (criar_pasta_so_registra (pasta_erros self) w2) as [S3 B3].
  destruct (criar_pasta (pasta_erros self) w2) as [[e | []] w3]; cbn [snd] in *.
  { split; [eauto using so_registrou_trans | split; [congruence | done]]. }
  unfold puro, inicializar_banco, registra, emite, altera. cbn [fst snd bd].
  split; [| split; [congruence | by intros p [= <-]]].
  eapply so_registrou_trans; [exact S1 |]. eapply so_registrou_trans; [exact S2 |].
  eapply so_registrou_trans; [exact S3 |].
  exists [EvLog INFO MsgBancoInicializado; EvLog INFO MsgInicializado].
  cbn [rastro]. by rewrite <- app_assoc.
Qed.

(** [main], step by step. *)
Lemma main_passos (configuracao : processador) (w : mundo) :
  main configuracao w =
  match init configuracao (com_evento (EvLog INFO MsgIniciando) w) with
  | (inl e, w1) =>
      (inr tt, com_eventos [EvLog ERROR (MsgErroInesperado e); EvLog INFO MsgFinalizado] w1)
  | (inr p, w1) =>
      match processar_arquivos_existentes p
              (com_eventos [EvLog INFO MsgDiretorios; EvLog INFO MsgSeparador] w1) with
      | (inl e, ws) =>
          (inr tt, com_eventos [EvLog ERROR (MsgErroInesperado e); EvLog INFO MsgFinalizado] ws)
      | (inr _, ws) =>
          (inr tt,
           com_eventos [EvLog INFO MsgSeparador; EvObserver; EvSchedule (pasta_xml p) true;
                        EvStart; EvLog INFO MsgMonitoramentoAtivo; EvLog INFO MsgSeparador] ws)
      end
  end.
Proof.
  destruct w as [f b tr].
  cbv [main tenta main_try encadeia registra emite altera com_evento com_eventos
       fs bd rastro].
  destruct (init configuracao _) as [[e | p] [f1 b1 tr1]].
  - by rewrite <- app_assoc.
  - rewrite <- app_assoc. cbn [app].
    destruct (processar_arquivos_existentes p _) as [[e | []] [fs_ bs trs]];
      by rewrite <- !app_assoc.
Qed.

(** C8.  [main] either fails while it creates the processor, and then
    neither sweeps nor watches, or runs the sweep and then starts the
    watch.  In the second case the sweep ingests, one after the other in
    the order of the enumeration taken at its start, every enumerated path
    that is a file, and returns; up to that point the process has done
    nothing to the observer.  What follows the sweep is one log line, the
    creation of the observer, [schedule] on [pasta_xml] and [start]: the
    files and the store at that point are those the sweep left. *)
Theorem varredura_antes_do_observador (configuracao : processador) (w : mundo) :
  let w0 := com_evento (EvLog INFO MsgIniciando) w in
  let w' := snd (main configuracao w) in
  (exists e, fst (init configuracao w0) = inl e
             /\ w' = com_evento (EvLog INFO MsgFinalizado)
                       (com_evento (EvLog ERROR (MsgErroInesperado e))
                          (snd (init configuracao w0)))
             /\ so_registrou w w')
  \/ (fst (init configuracao w0) = inr configuracao
      /\ let w2 := com_evento (EvLog INFO MsgSeparador)
                     (com_evento (EvLog INFO MsgDiretorios) (snd (init configuracao w0))) in
         let arquivos := arquivos_da_varredura configuracao (fs w2) in
         let ws := com_evento (EvLog INFO (MsgInicialConcluido (length arquivos)))
                     (foldl (ingere configuracao)
                        (com_evento (EvLog INFO MsgProcessandoExistentes) w2) arquivos) in
         processar_arquivos_existentes configuracao w2 = (inr tt, ws)
         /\ so_registrou w ws
         /\ fs w' = fs ws /\ bd w' = bd ws
         /\ rastro w' = rastro ws
                        ++ [EvLog INFO MsgSeparador; EvObserver;
                            EvSchedule (pasta_xml configuracao) true; EvStart;
                            EvLog INFO MsgMonitoramentoAtivo; EvLog INFO MsgSeparador]).
Proof.
  intros w0 w'. subst w'. rewrite main_passos. fold w0.
  destruct (init_so_registra configuracao w0) as (Hs & _ & Hp).
  assert (Hw0 : so_registrou w w0) by apply so_registrou_log.
  destruct (init configuracao w0) as [[e | p] w1] eqn:Hinit; cbn [fst snd] in *.
  - left. exists e. split; [done |]. split.
    { unfold com_evento, com_eventos. cbn [snd fs bd rastro]. by rewrite <- app_assoc. }
    eapply so_registrou_trans; [exact Hw0 |]. eapply so_registrou_trans; [exact Hs |].
    by eexists [_; _].
  - right. rewrite (Hp p eq_refl). split; [done |]. cbn zeta.
    replace (com_eventos [EvLog INFO MsgDiretorios; EvLog INFO MsgSeparador] w1)
      with (com_evento (EvLog INFO MsgSeparador) (com_evento (EvLog INFO MsgDiretorios) w1))
      by (unfold com_evento, com_eventos; cbn [fs bd rastro]; by rewrite <- app_assoc).
    set (w2 := com_evento (EvLog INFO MsgSeparador) (com_evento (EvLog INFO MsgDiretorios) w1)).
    rewrite (processar_arquivos_existentes_passos configuracao w2). cbn zeta.
    set (ws := com_evento _ (foldl _ _ _)).
    split; [done |]. split; [| done].
    eapply so_registrou_trans; [exact Hw0 |]. eapply so_registrou_trans; [exact Hs |].
    eapply so_registrou_trans; [apply so_registrou_log |].
    eapply so_registrou_trans; [apply so_registrou_log |]. fold w2.
    eapply so_registrou_trans; [apply so_registrou_log |].
    eapply so_registrou_trans; [apply foldl_ingere_so_registra |].
    apply so_registrou_log.
Qed.

(** Start-up on the example: the file is ingested, then the watch starts. *)
Example main_ex :
  rastro (snd (main processador_exemplo mundo_com_dois))
  = [EvLog INFO MsgIniciando; EvLog INFO MsgBancoInicializado; EvLog INFO MsgInicializado;
     EvLog INFO MsgDiretorios; EvLog INFO MsgSeparador;
     EvLog INFO MsgProcessandoExistentes;
     EvLog INFO (MsgProcessandoExistente "nota.xml");
     EvLog INFO (MsgProcessando "nota.xml");
     EvLog INFO (MsgNFeSalva (VStr "4") 1);
     EvLog INFO (MsgProcessado "nota.xml");
     EvLog INFO (MsgInicialConcluido 1);
     EvLog INFO MsgSeparador; EvObserver; EvSchedule ["xml_nfe"] true; EvStart;
     EvLog INFO MsgMonitoramentoAtivo; EvLog INFO MsgSeparador].
Proof. vm_compute. reflexivity. Qed.

(** * Further properties *)

(** ** The store stays well formed *)

Lemma NoDup_snoc_novo {A} (l : list A) (x : A) : NoDup l -> x ∉ l -> NoDup (l ++ [x]).
Proof.
  intros Hl Hx. apply NoDup_app. split; [done |]. split; [| apply NoDup_singleton].
  intros y Hy ->%list_elem_of_singleton. done.
Qed.

Lemma NoDup_fmap_filter {A B} (f : A -> B) (P : A -> Prop) `{forall x, Decision (P x)}
    (l : list A) :
  NoDup (f <$> l) -> NoDup (f <$> filter P l).
Proof.
  intros Hl. apply (sublist_NoDup _ _ Hl), fmap_sublist, sublist_filter.
Qed.

Lemma insert_or_replace_bem_formado (cab : cabecalho) (n c : string) (b : banco) :
  banco_bem_formado b -> banco_bem_formado (insert_or_replace_cabecalho cab n c b).
Proof.
  intros (Hk & [Hid Hseq] & Hit). unfold banco_bem_formado, chaves_unicas, ids_cabecalho_ok.
  cbn [insert_or_replace_cabecalho nfe_cabecalho seq_cabecalho].
  rewrite !fmap_app. cbn [fmap list_fmap lc_id lc_cab].
  split; [| split; [split |]].
  - apply NoDup_snoc_novo; [by apply NoDup_fmap_filter |].
    intros (l & Hl & [Hne _]%list_elem_of_filter)%list_elem_of_fmap. done.
  - apply NoDup_snoc_novo; [by apply NoDup_fmap_filter |].
    intros (l & Hl & [_ Hin]%list_elem_of_filter)%list_elem_of_fmap.
    rewrite Forall_forall in Hseq. specialize (Hseq l Hin). lia.
  - apply Forall_app. split.
    + apply Forall_forall. intros l [_ Hin]%list_elem_of_filter.
      rewrite Forall_forall in Hseq. specialize (Hseq l Hin). lia.
    + constructor; [simpl; lia | constructor].
  - exact Hit.
Qed.

Lemma delete_itens_bem_formado (k : string) (b : banco) :
  banco_bem_formado b -> banco_bem_formado (delete_itens k b).
Proof.
  intros (Hk & Hc & [Hid Hseq]). split; [done |]. split; [done |].
  unfold ids_itens_ok. cbn [delete_itens nfe_itens seq_itens]. split.
  - by apply NoDup_fmap_filter.
  - apply Forall_forall. intros l [_ Hin]%list_elem_of_filter.
    rewrite Forall_forall in Hseq. by apply Hseq.
Qed.

Lemma insert_item_bem_formado (it : item) (b : banco) :
  banco_bem_formado b -> banco_bem_formado (insert_item it b).
Proof.
  intros (Hk & Hc & [Hid Hseq]). split; [done |]. split; [done |].
  unfold ids_itens_ok. cbn [insert_item nfe_itens seq_itens].
  rewrite fmap_app. cbn [fmap list_fmap li_id]. split.
  - apply NoDup_snoc_novo; [done |].
    intros (l & Hl & Hin)%list_elem_of_fmap.
    rewrite Forall_forall in Hseq. specialize (Hseq l Hin). lia.
  - apply Forall_app. split.
    + eapply Forall_impl; [exact Hseq |]. simpl. intros. lia.
    + constructor; [simpl; lia | constructor].
Qed.

Lemma efeito_salvar_bem_formado (cab : cabecalho) (itens : list item) (n c : string)
    (b : banco) :
  banco_bem_formado b -> banco_bem_formado (efeito_salvar cab itens n c b).
Proof.
  intros Hb. unfold efeito_salvar.
  assert (H0 : banco_bem_formado
                 (delete_itens (cab_chave_acesso cab)
                    (insert_or_replace_cabecalho cab n c b)))
    by by apply delete_itens_bem_formado, insert_or_replace_bem_formado.
  revert H0. generalize (delete_itens (cab_chave_acesso cab)
                           (insert_or_replace_cabecalho cab n c b)).
  induction itens as [| it itens IH]; intros b0 H0; [done |].
  cbn [foldl]. by apply IH, insert_item_bem_formado.
Qed.

(** X1.  [salvar_no_banco] keeps the store well formed, whatever the
    header and the items and whether it returns or raises: no access key
    is in two header rows, and in both tables the ids are different from
    each other and not above the table's counter. *)
Theorem salvar_no_banco_bem_formado (cab : cabecalho) (itens : list item)
    (nome_arquivo caminho_original : string) (w : mundo) :
  banco_bem_formado (bd w) ->
  banco_bem_formado (bd (snd (salvar_no_banco cab itens nome_arquivo caminho_original w))).
Proof.
  intros Hb.
  destruct (salvar_no_banco_casos cab itens nome_arquivo caminho_original w)
    as [[_ ->] | [_ (e & ->)]]; cbn [snd bd]; [| done].
  by apply efeito_salvar_bem_formado.
Qed.

Lemma salvar_no_banco_bem_formado_exemplo :
  banco_bem_formado
    (bd (snd (salvar_no_banco cab_exemplo itens_exemplo "nota.xml" "nota.xml"
                mundo_com_dois))).
Proof.
  apply (salvar_no_banco_bem_formado cab_exemplo itens_exemplo "nota.xml" "nota.xml"
           mundo_com_dois).
  unfold banco_bem_formado, chaves_unicas, ids_cabecalho_ok, ids_itens_ok.
  repeat split; apply (bool_decide_unpack _); vm_compute; exact I.
Defined.

Lemma integridade_Forall (b : banco) :
  integridade b
  <-> Forall (fun l => Exists (fun c => cab_chave_acesso (lc_cab c)
                                        = item_chave_acesso (li_item l))
                         (nfe_cabecalho b))
             (nfe_itens b).
Proof.
  unfold integridade. rewrite Forall_forall. split; intros H l Hl.
  - apply Exists_exists. destruct (H l Hl) as (c & Hc & Heq). eauto.
  - apply H, Exists_exists in Hl as (c & Hc & Heq). eauto.
Qed.

Lemma efeito_salvar_integridade (cab : cabecalho) (itens : list item) (n c : string)
    (b : banco) :
  integridade b ->
  Forall (fun i => item_chave_acesso i = cab_chave_acesso cab) itens ->
  integridade (efeito_salvar cab itens n c b).
Proof.
  intros Hb Hitens l Hl. unfold efeito_salvar in *.
  destruct (foldl_insert_item itens
              (delete_itens (cab_chave_acesso cab)
                 (insert_or_replace_cabecalho cab n c b))) as (Hcab & _ & Hrows).
  cbn zeta in Hcab, Hrows. rewrite Hcab.
  cbn [delete_itens insert_or_replace_cabecalho nfe_cabecalho nfe_itens] in *.
  apply (list_elem_of_fmap_2 li_item) in Hl. rewrite Hrows in Hl.
  apply elem_of_app in Hl as [Hl | Hl].
  - apply list_elem_of_fmap in Hl as (l0 & Heq & [Hne Hin]%list_elem_of_filter).
    destruct (Hb l0 Hin) as (c0 & Hc0 & Hk). exists c0. split; [| congruence].
    apply elem_of_app. left. apply list_elem_of_filter. split; [congruence | done].
  - rewrite Forall_forall in Hitens. specialize (Hitens _ Hl).
    eexists. split; [apply elem_of_app; right; by left |]. by rewrite Hitens.
Qed.

(** X2.  SQLite is not asked to check the foreign key of [nfe_itens];
    [salvar_no_banco] keeps it all the same when the items it is given
    carry the access key of the header: if every item row had a header
    row with its key before, every item row has one afterwards. *)
Theorem salvar_no_banco_integridade (cab : cabecalho) (itens : list item)
    (nome_arquivo caminho_original : string) (w : mundo) :
  integridade (bd w) ->
  Forall (fun i => item_chave_acesso i = cab_chave_acesso cab) itens ->
  integridade (bd (snd (salvar_no_banco cab itens nome_arquivo caminho_original w))).
Proof.
  intros Hb Hitens.
  destruct (salvar_no_banco_casos cab itens nome_arquivo caminho_original w)
    as [[_ ->] | [_ (e & ->)]]; cbn [snd bd]; [| done].
  by apply efeito_salvar_integridade.
Qed.

Lemma salvar_no_banco_integridade_exemplo :
  integridade
    (bd (snd (salvar_no_banco cab_exemplo itens_exemplo "nota.xml" "nota.xml"
                mundo_com_dois))).
Proof.
  apply (salvar_no_banco_integridade cab_exemplo itens_exemplo "nota.xml" "nota.xml"
           mundo_com_dois).
  - apply integridade_Forall, (bool_decide_unpack _). vm_compute. exact I.
  - apply (bool_decide_unpack _). vm_compute. exact I.
Defined.

Lemma documento_de_chaves (f : sistema_arquivos) (arquivo : caminho) (cab : cabecalho)
    (itens : list item) :
  documento_de f arquivo = inr (cab, itens) ->
  Forall (fun i => item_chave_acesso i = cab_chave_acesso cab) itens.
Proof.
  unfold documento_de. intros H.
  apply liga_inr in H as (t & _ & H). apply liga_inr in H as (xml_dict & _ & H).
  by apply extrair_dados_nfe_try_chaves in H.
Qed.

(** What [processar_xml] does to the store: nothing, or the effect of
    [salvar_no_banco] on the document read from the file. *)
Lemma processar_xml_bd (self : processador) (arquivo : caminho) (w : mundo) :
  bd (snd (processar_xml self arquivo w)) = bd w
  \/ exists cab itens,
       documento_de (fs w) arquivo = inr (cab, itens)
       /\ bd (snd (processar_xml self arquivo w))
          = efeito_salvar cab itens (nome arquivo) (caminho_relativo self arquivo) (bd w).
Proof.
  destruct (documento_aceito (fs w) arquivo) eqn:Hd.
  - right.
    destruct (processar_xml_aceito self arquivo w Hd) as (cab & itens & c & Hdoc & _ & ->).
    exists cab, itens. split; [done |]. by repeat case_match.
  - left. destruct (processar_xml_rejeitado self arquivo w Hd) as (e & detalhe & _ & ->).
    by case_match.
Qed.

(** Storing a document read from a file keeps the store consistent. *)
Lemma efeito_salvar_consistente (f : sistema_arquivos) (arquivo : caminho) (cab : cabecalho)
    (itens : list item) (n c : string) (b : banco) :
  documento_de f arquivo = inr (cab, itens) ->
  banco_consistente b -> banco_consistente (efeito_salvar cab itens n c b).
Proof.
  intros Hdoc [Hbf Hint]. split; [by apply efeito_salvar_bem_formado |].
  apply efeito_salvar_integridade; [done |]. by eapply documento_de_chaves.
Qed.

(** X3.  [processar_xml] keeps the store consistent for every file and
    every outcome: unique access keys, ids in order, and the foreign key
    of the items, since every item it stores carries the key of the header
    stored with it. *)
Theorem processar_xml_consistente (self : processador) (arquivo : list string) (w : mundo) :
  banco_consistente (bd w) ->
  banco_consistente (bd (snd (processar_xml self arquivo w))).
Proof.
  intros Hb.
  destruct (processar_xml_bd self arquivo w) as [-> | (cab & itens & Hdoc & ->)]; [done |].
  by apply (efeito_salvar_consistente (fs w) arquivo).
Qed.

Lemma banco_com_dois_consistente : banco_consistente banco_com_dois.
Proof.
  split.
  - unfold banco_bem_formado, chaves_unicas, ids_cabecalho_ok, ids_itens_ok.
    repeat split; apply (bool_decide_unpack _); vm_compute; exact I.
  - apply integridade_Forall, (bool_decide_unpack _). vm_compute. exact I.
Defined.

Lemma processar_xml_consistente_exemplo :
  banco_consistente
    (bd (snd (processar_xml processador_exemplo ["xml_nfe"; "nota.xml"] mundo_com_dois))).
Proof.
  apply (processar_xml_consistente processador_exemplo ["xml_nfe"; "nota.xml"]
           mundo_com_dois).
  exact banco_com_dois_consistente.
Defined.

(** ** Events and the sweep keep the store consistent *)

(** [on_created] either ignores the event or hands the file to
    [processar_xml]. *)
Lemma on_created_casos (self : processador) (event : evento_criacao) (w : mundo) :
  (exists delta, on_created self event w = (inr tt, com_eventos delta w)
                 /\ forallb discreto delta = true)
  \/ (exists rel,
        is_directory event = false
        /\ lower (suffix (src_path event)) = ".xml"
        /\ relative_to (src_path event) (pasta_xml self) = Some rel
        /\ existe (fs w) (src_path event) = true
        /\ on_created self event w
           = processar_xml self (src_path event)
               (com_evento (EvLog INFO (MsgNovoArquivo (str_relativo rel)))
                  (com_evento (EvSleep 1) w))).
Proof.
  destruct (is_directory event) eqn:Hdir.
  { left. exists []. unfold on_created. rewrite Hdir. destruct w as [f b tr].
    unfold com_eventos. cbn [negb puro fs bd rastro]. by rewrite app_nil_r. }
  destruct (String.eqb (lower (suffix (src_path event))) ".xml") eqn:Hsuf.
  2:{ left. eexists [_]. unfold on_created. rewrite Hdir, Hsuf. by destruct w. }
  apply String.eqb_eq in Hsuf.
  destruct (relative_to (src_path event) (pasta_xml self)) as [rel |] eqn:Hrel.
  2:{ left. eexists [_]. unfold on_created. rewrite Hdir, Hsuf, Hrel. by destruct w. }
  destruct (existe (fs w) (src_path event)) eqn:Hex.
  - right. exists rel. repeat (split; [done |]). by apply on_created_aceita.
  - left. exists [EvSleep 1; EvLog DEBUG (MsgNaoExisteMais (nome (src_path event)))].
    split; [| done]. unfold on_created. rewrite Hdir, Hsuf, Hrel.
    change (String.eqb ".xml" ".xml") with true. cbn [negb].
    destruct w as [f b tr]. cbn [fs] in Hex.
    cbv [encadeia emite altera obtem registra com_eventos fs bd rastro].
    rewrite Hex. cbn [negb]. by rewrite <- app_assoc.
Qed.

(** X4.  The handler of the watch never raises, whatever the event and
    the state of the files, and it keeps a consistent store consistent. *)
Theorem on_created_consistente (self : processador) (event : evento_criacao) (w : mundo) :
  banco_consistente (bd w) ->
  fst (on_created self event w) = inr tt
  /\ banco_consistente (bd (snd (on_created self event w))).
Proof.
  intros Hb.
  destruct (on_created_casos self event w)
    as [(delta & -> & _) | (rel & _ & _ & _ & _ & ->)]; [done |].
  split; [apply processar_xml_retorna |].
  match goal with |- context [processar_xml self ?a ?w0] =>
    destruct (processar_xml_bd self a w0) as [-> | (cab & itens & Hdoc & ->)]; [done |];
    by apply (efeito_salvar_consistente (fs w0) a)
  end.
Qed.

Lemma on_created_consistente_exemplo :
  fst (on_created processador_exemplo (EventoCriacao false ["xml_nfe"; "nota.xml"])
         mundo_com_dois) = inr tt
  /\ banco_consistente
       (bd (snd (on_created processador_exemplo (EventoCriacao false ["xml_nfe"; "nota.xml"])
                   mundo_com_dois))).
Proof.
  apply (on_created_consistente processador_exemplo
           (EventoCriacao false ["xml_nfe"; "nota.xml"]) mundo_com_dois).
  exact banco_com_dois_consistente.
Defined.

(** X5.  An event for a directory, for a name whose suffix is not
    [.xml] in any case of letters, for a path outside [pasta_xml], or for
    a file that is gone when the wait is over, is dropped: the handler
    returns, the files and the store are as they were, and the trace has
    gained nothing but the wait and lines of level DEBUG. *)
Theorem on_created_ignora (self : processador) (event : evento_criacao) (w : mundo) :
  is_directory event = true
  \/ lower (suffix (src_path event)) <> ".xml"
  \/ relative_to (src_path event) (pasta_xml self) = None
  \/ existe (fs w) (src_path event) = false ->
  exists delta,
    on_created self event w = (inr tt, Mundo (fs w) (bd w) (rastro w ++ delta))
    /\ forallb discreto delta = true.
Proof.
  intros Hign.
  destruct (on_created_casos self event w)
    as [(delta & Heq & Hd) | (rel & Hdir & Hsuf & Hrel & Hex & _)]; [by exists delta |].
  destruct Hign as [? | [? | [? | ?]]]; congruence.
Qed.

Lemma on_created_ignora_exemplo :
  exists delta,
    on_created processador_exemplo (EventoCriacao false ["xml_nfe"; "leia-me.txt"])
      mundo_com_dois
    = (inr tt, Mundo (fs mundo_com_dois) (bd mundo_com_dois) (rastro mundo_com_dois ++ delta))
    /\ forallb discreto delta = true.
Proof.
  apply (on_created_ignora processador_exemplo
           (EventoCriacao false ["xml_nfe"; "leia-me.txt"]) mundo_com_dois).
  right. left. vm_compute. discriminate.
Defined.

Lemma foldl_ingere_consistente (self : processador) (l : list caminho) (w : mundo) :
  banco_consistente (bd w) -> banco_consistente (bd (foldl (ingere self) w l)).
Proof.
  revert w. induction l as [| a l IH]; intros w Hb; [done |].
  cbn [foldl]. apply IH. unfold ingere.
  match goal with |- context [processar_xml self a ?w0] =>
    destruct (processar_xml_bd self a w0) as [-> | (cab & itens & Hdoc & ->)]; [done |];
    by apply (efeito_salvar_consistente (fs w0) a)
  end.
Qed.

(** X6.  The sweep of the backlog returns without raising, however many
    of the files fail, and it keeps a consistent store consistent. *)
Theorem processar_arquivos_existentes_consistente (self : processador) (w : mundo) :
  banco_consistente (bd w) ->
  fst (processar_arquivos_existentes self w) = inr tt
  /\ banco_consistente (bd (snd (processar_arquivos_existentes self w))).
Proof.
  intros Hb. rewrite processar_arquivos_existentes_passos. split; [done |].
  cbn [snd com_evento bd]. by apply foldl_ingere_consistente.
Qed.

Lemma processar_arquivos_existentes_consistente_exemplo :
  fst (processar_arquivos_existentes processador_exemplo mundo_com_dois) = inr tt
  /\ banco_consistente
       (bd (snd (processar_arquivos_existentes processador_exemplo mundo_com_dois))).
Proof.
  apply (processar_arquivos_existentes_consistente processador_exemplo mundo_com_dois).
  exact banco_com_dois_consistente.
Defined.

(** X7.  Start-up as a whole, from the creation of the directories to
    the start of the watch, keeps a consistent store consistent, also when
    it is cut short by an exception. *)
Theorem main_consistente (configuracao : processador) (w : mundo) :
  banco_consistente (bd w) ->
  banco_consistente (bd (snd (main configuracao w))).
Proof.
  intros Hb. rewrite main_passos.
  destruct (init_so_registra configuracao (com_evento (EvLog INFO MsgIniciando) w))
    as (_ & Hbd & _).
  destruct (init configuracao _) as [[e | p] w1]; cbn [snd] in Hbd.
  { cbn [snd com_eventos bd]. by rewrite Hbd. }
  rewrite processar_arquivos_existentes_passos. cbn [snd com_eventos com_evento bd].
  apply foldl_ingere_consistente. cbn [com_evento com_eventos bd]. by rewrite Hbd.
Qed.

Lemma main_consistente_exemplo :
  banco_consistente (bd (snd (main processador_exemplo mundo_com_dois))).
Proof.
  apply (main_consistente processador_exemplo mundo_com_dois).
  exact banco_com_dois_consistente.
Defined.

(** ** What [processar_xml] does to the files *)

(** The files after [processar_xml] on a file. *)
Lemma processar_xml_fs (self : processador) (arquivo : caminho) (c : conteudo) (w : mundo) :
  fs w !! arquivo = Some (Arquivo c) ->
  let f' := fs (snd (processar_xml self arquivo w)) in
  let movido pasta :=
    <[gerar_nome_unico (fs w) arquivo pasta := Arquivo c]> (delete arquivo (fs w)) in
  eh_pasta (fs w) (pasta_erros self) = false /\ f' = fs w
  \/ f' = movido (pasta_processados self)
  \/ f' = movido (pasta_erros self).
Proof.
  intros Hsrc f' movido. subst f' movido.
  destruct (gerar_nome_unico_novo (fs w) arquivo (pasta_erros self)) as [He Hpe].
  destruct (documento_aceito (fs w) arquivo) eqn:Hd.
  - destruct (processar_xml_aceito self arquivo w Hd) as (cab & itens & c' & _ & Hsrc' & ->).
    assert (c' = c) as -> by congruence.
    destruct (eh_pasta (fs w) (pasta_processados self)); [by right; left |].
    destruct (eh_pasta (fs w) (pasta_erros self)); [by right; right | by left].
  - destruct (processar_xml_rejeitado self arquivo w Hd) as (e & detalhe & _ & ->).
    rewrite (shutil_move_arquivo _ _ _ c Hsrc He), Hpe.
    destruct (eh_pasta (fs w) (pasta_erros self)); [by right; right | by left].
Qed.

(** X8.  [processar_xml] never destroys a file and never overwrites one.
    Whatever the file holds and however the processing ends, the files
    afterwards are those from before with the one file moved, content
    untouched, to a path that was free, directly in [pasta_processados] or
    in [pasta_erros]; or they are exactly as before, which happens only
    when [pasta_erros] is not a directory. *)
Theorem processar_xml_conserva (self : processador) (arquivo : list string) (c : conteudo)
    (w : mundo) :
  fs w !! arquivo = Some (Arquivo c) ->
  let f' := fs (snd (processar_xml self arquivo w)) in
  eh_pasta (fs w) (pasta_erros self) = false /\ f' = fs w
  \/ exists destino,
       fs w !! destino = None
       /\ (pai destino = pasta_processados self \/ pai destino = pasta_erros self)
       /\ f' = <[destino := Arquivo c]> (delete arquivo (fs w)).
Proof.
  intros Hsrc f'. subst f'.
  destruct (gerar_nome_unico_novo (fs w) arquivo (pasta_processados self)) as [Hp Hpp].
  destruct (gerar_nome_unico_novo (fs w) arquivo (pasta_erros self)) as [He Hpe].
  destruct (processar_xml_fs self arquivo c w Hsrc) as [? | [-> | ->]]; [by left | |];
    right; eauto 6.
Qed.

Lemma processar_xml_conserva_exemplo :
  let w := mundo_malformado in
  let arquivo := ["xml_nfe"; "ruim.xml"] in
  let f' := fs (snd (processar_xml processador_exemplo arquivo w)) in
  eh_pasta (fs w) (pasta_erros processador_exemplo) = false /\ f' = fs w
  \/ exists destino,
       fs w !! destino = None
       /\ (pai destino = pasta_processados processador_exemplo
           \/ pai destino = pasta_erros processador_exemplo)
       /\ f' = <[destino := Arquivo (Texto Malformado)]> (delete arquivo (fs w)).
Proof.
  apply (processar_xml_conserva processador_exemplo ["xml_nfe"; "ruim.xml"]
           (Texto Malformado) mundo_malformado).
  vm_compute. reflexivity.
Defined.



(** ** The sweep empties the backlog *)

Lemma relative_to_Some (p base r : caminho) :
  relative_to p base = Some r <-> p = base ++ r.
Proof.
  revert p. induction base as [| b base IH]; intros p.
  - destruct p; simpl; split; congruence.
  - destruct p as [| x p]; simpl; [split; discriminate |].
    destruct (String.eqb_spec b x) as [-> | Hne].
    + rewrite IH. split; [by intros -> | by intros [= ->]].
    + split; [done | by intros [= ? ?]].
Qed.

(** A path directly in a directory outside [raiz] is not below [raiz]. *)
Lemma abaixo_de_fora (raiz pasta d : caminho) :
  pai d = pasta -> relative_to pasta raiz = None -> abaixo_de raiz d = false.
Proof.
  intros Hpai Hrel. unfold abaixo_de.
  destruct (relative_to d raiz) as [[| y r] |] eqn:Hd; try done.
  apply relative_to_Some in Hd.
  destruct (@exists_last _ (y :: r)) as (r' & z & Hr); [done |].
  rewrite Hr, app_assoc in Hd. subst d. unfold pai in Hpai.
  rewrite removelast_last in Hpai. subst pasta. by rewrite relative_to_app in Hrel.
Qed.

Lemma arquivos_existentes_abaixo (self : processador) (f : sistema_arquivos) (p : caminho) :
  p ∈ arquivos_existentes self f -> abaixo_de (pasta_xml self) p = true.
Proof.
  unfold arquivos_existentes. destruct (busca_recursiva self).
  - rewrite rglob_elem. by intros (_ & ? & _).
  - rewrite glob_elem. by intros (_ & _ & ? & _).
Qed.

(** Whether an existing path is listed depends on the path alone. *)
Lemma arquivos_existentes_transfere (self : processador) (f f' : sistema_arquivos)
    (p : caminho) :
  p ∈ arquivos_existentes self f -> is_Some (f' !! p) -> p ∈ arquivos_existentes self f'.
Proof.
  unfold arquivos_existentes. destruct (busca_recursiva self).
  - rewrite !rglob_elem. by intros (_ & ?).
  - rewrite !glob_elem. by intros (_ & ?).
Qed.

Lemma ingere_em_varredura (self : processador) (f0 : sistema_arquivos) (w : mundo)
    (feitos : list caminho) (a : caminho) :
  relative_to (pasta_processados self) (pasta_xml self) = None ->
  relative_to (pasta_erros self) (pasta_xml self) = None ->
  em_varredura self f0 (fs w) feitos ->
  (a ∉ feitos) -> eh_arquivo f0 a = true -> abaixo_de (pasta_xml self) a = true ->
  em_varredura self f0 (fs (ingere self w a)) (feitos ++ [a]).
Proof.
  intros Hp He [Hinv Hdir] Hna Hfile Hab.
  assert (exists c, fs w !! a = Some (Arquivo c)) as [c Hsrc].
  { rewrite Hinv, decide_False by done. unfold eh_arquivo in Hfile.
    destruct (f0 !! a) as [[c |] |]; try done. eauto. }
  unfold ingere.
  assert (exists d, fs w !! d = None
                    /\ (pai d = pasta_processados self \/ pai d = pasta_erros self)
                    /\ fs (snd (processar_xml self a
                                  (com_evento (EvLog INFO (MsgProcessandoExistente
                                                             (caminho_relativo self a))) w)))
                       = <[d := Arquivo c]> (delete a (fs w))) as (d & Hd & Hpai & ->).
  { destruct (gerar_nome_unico_novo (fs w) a (pasta_processados self)) as [? ?].
    destruct (gerar_nome_unico_novo (fs w) a (pasta_erros self)) as [? ?].
    destruct (processar_xml_fs self a c
                (com_evento (EvLog INFO (MsgProcessandoExistente (caminho_relativo self a))) w)
                Hsrc) as [[Hnd _] | [-> | ->]]; cbn [com_evento fs] in *;
      [congruence | eauto 6 ..]. }
  assert (Hfora : abaixo_de (pasta_xml self) d = false).
  { destruct Hpai; eapply abaixo_de_fora; eauto. }
  split.
  - intros q Hq.
    assert (q <> d) by (intros ->; congruence).
    rewrite lookup_insert_ne by done.
    destruct (decide (q = a)) as [-> | Hqa].
    + rewrite lookup_delete_eq, decide_True; [done |]. apply elem_of_app. right. by left.
    + rewrite lookup_delete_ne, Hinv by done.
      destruct (decide (q ∈ feitos)) as [Hin | Hin].
      * rewrite decide_True; [done |]. apply elem_of_app. by left.
      * rewrite decide_False; [done |]. intros [? | Hq2%list_elem_of_singleton]%elem_of_app; done.
  - unfold eh_pasta in *.
    rewrite lookup_insert_ne, lookup_delete_ne; [done | |].
    + intros ->. by rewrite Hsrc in Hdir.
    + intros ->. by rewrite Hd in Hdir.
Qed.

Lemma foldl_ingere_em_varredura (self : processador) (f0 : sistema_arquivos)
    (l : list caminho) (w : mundo) (feitos : list caminho) :
  relative_to (pasta_processados self) (pasta_xml self) = None ->
  relative_to (pasta_erros self) (pasta_xml self) = None ->
  em_varredura self f0 (fs w) feitos ->
  NoDup l ->
  (forall a, a ∈ l -> (a ∉ feitos) /\ eh_arquivo f0 a = true
                      /\ abaixo_de (pasta_xml self) a = true) ->
  em_varredura self f0 (fs (foldl (ingere self) w l)) (feitos ++ l).
Proof.
  intros Hp He. revert w feitos.
  induction l as [| a l IH]; intros w feitos Hinv Hnd Hl.
  - by rewrite app_nil_r.
  - apply NoDup_cons in Hnd as [Ha Hnd]. cbn [foldl].
    replace (feitos ++ a :: l) with ((feitos ++ [a]) ++ l) by (by rewrite <- app_assoc).
    apply IH; [| done |].
    + destruct (Hl a) as (? & ? & ?); [by left |]. by apply ingere_em_varredura.
    + intros b Hb. destruct (Hl b) as (? & ? & ?); [by right |]. split; [| done].
      intros [? | Hb2%list_elem_of_singleton]%elem_of_app; [done |]. by subst.
Qed.

(** X10.  With [pasta_erros] a directory, and [pasta_processados] and
    [pasta_erros] outside [pasta_xml], the sweep leaves no backlog: every
    file it listed is gone from its path, every other path below
    [pasta_xml] is as it was, and a second listing finds nothing to
    process. *)
Theorem varredura_esvazia (self : processador) (w : mundo) :
  eh_pasta (fs w) (pasta_erros self) = true ->
  relative_to (pasta_processados self) (pasta_xml self) = None ->
  relative_to (pasta_erros self) (pasta_xml self) = None ->
  let f' := fs (snd (processar_arquivos_existentes self w)) in
  (forall p, p ∈ arquivos_da_varredura self (fs w) -> f' !! p = None)
  /\ (forall q, abaixo_de (pasta_xml self) q = true ->
                (q ∉ arquivos_da_varredura self (fs w)) -> f' !! q = fs w !! q)
  /\ arquivos_da_varredura self f' = [].
Proof.
  intros Hdir Hp He f'. subst f'.
  rewrite processar_arquivos_existentes_passos. cbn [snd com_evento fs].
  set (l := arquivos_da_varredura self (fs w)).
  set (w0 := com_evento (EvLog INFO MsgProcessandoExistentes) w).
  assert (Hl : forall a, a ∈ l -> eh_arquivo (fs w) a = true
                                  /\ a ∈ arquivos_existentes self (fs w)).
  { intros a Ha. by apply list_elem_of_filter in Ha. }
  destruct (foldl_ingere_em_varredura self (fs w) l w0 [] Hp He) as [Hinv _].
  - split; [| done]. intros q _. by rewrite decide_False by apply not_elem_of_nil.
  - apply NoDup_filter, arquivos_existentes_NoDup.
  - intros a Ha. destruct (Hl a Ha) as [? ?]. split; [apply not_elem_of_nil |].
    split; [done |]. by eapply arquivos_existentes_abaixo.
  - rewrite app_nil_l in Hinv. split; [| split].
    + intros p Hin. rewrite Hinv, decide_True; [done | done |].
      destruct (Hl p Hin) as [_ ?]. by eapply arquivos_existentes_abaixo.
    + intros q Hq Hnin. by rewrite Hinv, decide_False.
    + apply elem_of_nil_inv. intros p [Hfile Hin]%list_elem_of_filter.
      pose proof (arquivos_existentes_abaixo _ _ _ Hin) as Hab.
      unfold eh_arquivo in Hfile. rewrite Hinv in Hfile by done.
      destruct (decide (p ∈ l)) as [_ | Hnin]; [done |]. apply Hnin.
      apply list_elem_of_filter. split.
      * unfold eh_arquivo. by destruct (fs w !! p) as [[|] |].
      * apply (arquivos_existentes_transfere self _ (fs w)) in Hin; [done |].
        by destruct (fs w !! p) as [[|] |].
Qed.

Lemma varredura_esvazia_exemplo :
  let f' := fs (snd (processar_arquivos_existentes processador_exemplo mundo_com_dois)) in
  (forall p, p ∈ arquivos_da_varredura processador_exemplo (fs mundo_com_dois) ->
             f' !! p = None)
  /\ (forall q, abaixo_de (pasta_xml processador_exemplo) q = true ->
                (q ∉ arquivos_da_varredura processador_exemplo (fs mundo_com_dois)) ->
                f' !! q = fs mundo_com_dois !! q)
  /\ arquivos_da_varredura processador_exemplo f' = [].
Proof.
  apply (varredura_esvazia processador_exemplo mundo_com_dois); vm_compute; reflexivity.
Defined.

(** ** Documents without an [NFe] root *)

Lemma extrair_dados_nfe_try_sem_NFe (campos : list (string * valor)) :
  procura "NFe" campos = None ->
  extrair_dados_nfe_try (VDict campos) = inr (cab_em_branco, []).
Proof.
  intros H. unfold extrair_dados_nfe_try. unfold py_get at 1. rewrite H. reflexivity.
Qed.

(** X11.  A parsed document whose root element is not [NFe] (the
    [nfeProc] wrapper of a distributed invoice, for one) is not an error
    for [extrair_dados_nfe]: every lookup falls back on its default, and
    the result is the blank header, with the empty access key, empty
    texts, no dates and zero totals, and no items.  Nothing is logged. *)
Theorem extrair_dados_nfe_sem_NFe (campos : list (string * valor)) (w : mundo) :
  procura "NFe" campos = None ->
  extrair_dados_nfe (VDict campos) w = (inr (cab_em_branco, []), w).
Proof.
  intros H. unfold extrair_dados_nfe, tenta, eleva.
  by rewrite extrair_dados_nfe_try_sem_NFe.
Qed.

Lemma extrair_dados_nfe_sem_NFe_exemplo :
  extrair_dados_nfe (VDict [("nfeProc", doc_exemplo)]) mundo_vazio
  = (inr (cab_em_branco, []), mundo_vazio).
Proof.
  apply (extrair_dados_nfe_sem_NFe [("nfeProc", doc_exemplo)] mundo_vazio).
  vm_compute. reflexivity.
Defined.

(** X12.  So a well-formed file without an [NFe] root is stored, not
    rejected: [processar_xml] writes the blank header under the empty
    access key, and after it the store holds exactly one row for that key,
    the one of this file, in place of the row of any such file processed
    before. *)
Theorem processar_xml_sem_NFe (self : processador) (arquivo : list string)
    (campos : list (string * valor)) (w : mundo) :
  fs w !! arquivo = Some (Arquivo (Texto (BemFormado (VDict campos)))) ->
  procura "NFe" campos = None ->
  let b' := bd (snd (processar_xml self arquivo w)) in
  b' = efeito_salvar cab_em_branco [] (nome arquivo) (caminho_relativo self arquivo) (bd w)
  /\ cabecalhos_de "" b'
     = [LinhaCabecalho (seq_cabecalho (bd w) + 1) cab_em_branco (nome arquivo)
          (caminho_relativo self arquivo)].
Proof.
  intros Hsrc Hraiz b'. subst b'.
  assert (Hdoc : documento_de (fs w) arquivo = inr (cab_em_branco, [])).
  { unfold documento_de, ler. rewrite Hsrc. cbn [liga retorna xmltodict_parse].
    by apply extrair_dados_nfe_try_sem_NFe. }
  assert (Hac : documento_aceito (fs w) arquivo = true).
  { unfold documento_aceito. by rewrite Hdoc. }
  destruct (processar_xml_aceito self arquivo w Hac) as (cab & itens & c & Hdoc' & _ & Heq).
  rewrite Hdoc in Hdoc'. injection Hdoc' as <- <-.
  assert (Hbd : bd (snd (processar_xml self arquivo w))
                = efeito_salvar cab_em_branco [] (nome arquivo)
                    (caminho_relativo self arquivo) (bd w)).
  { rewrite Heq. by repeat case_match. }
  split; [done |]. rewrite Hbd.
  by destruct (efeito_salvar_linhas cab_em_branco [] (nome arquivo)
                 (caminho_relativo self arquivo) (bd w)) as (Hcab & _).
Qed.

Lemma processar_xml_sem_NFe_exemplo :
  let w := Mundo (<[ ["xml_nfe"; "proc.xml"]
                     := Arquivo (Texto (BemFormado (VDict [("nfeProc", doc_exemplo)]))) ]>
                    fs_exemplo) banco_com_dois [] in
  let arquivo := ["xml_nfe"; "proc.xml"] in
  let b' := bd (snd (processar_xml processador_exemplo arquivo w)) in
  b' = efeito_salvar cab_em_branco [] (nome arquivo)
         (caminho_relativo processador_exemplo arquivo) (bd w)
  /\ cabecalhos_de "" b'
     = [LinhaCabecalho (seq_cabecalho (bd w) + 1) cab_em_branco (nome arquivo)
          (caminho_relativo processador_exemplo arquivo)].
Proof.
  apply (processar_xml_sem_NFe processador_exemplo ["xml_nfe"; "proc.xml"]
           [("nfeProc", doc_exemplo)]
           (Mundo (<[ ["xml_nfe"; "proc.xml"]
                      := Arquivo (Texto (BemFormado (VDict [("nfeProc", doc_exemplo)]))) ]>
                     fs_exemplo) banco_com_dois [])).
  - vm_compute. reflexivity.
  - vm_compute. reflexivity.
Defined.

(** ** [converter_data] *)

Lemma digito_limite (c : ascii) (d : Z) : digito c = Some d -> (0 <= d <= 9)%Z.
Proof.
  destruct c as [[] [] [] [] [] [] [] []]; vm_compute; intros [= <-]; split; discriminate.
Qed.

Lemma le_digito_Some (s r : string) (d : Z) :
  le_digito s = Some (d, r) ->
  (0 <= d <= 9)%Z /\ String.length s = S (String.length r).
Proof.
  destruct s as [| c s]; [done |]. cbn [le_digito].
  destruct (digito c) as [d' |] eqn:Hd; [| done]. intros [= <- <-].
  split; [by eapply digito_limite | done].
Qed.

Lemma espera_Some (c : ascii) (s r : string) :
  espera c s = Some r -> String.length s = S (String.length r).
Proof.
  destruct s as [| c' s]; [done |]. cbn [espera].
  destruct (Ascii.eqb c c'); [| done]. by intros [= <-].
Qed.

Lemma le_mes_Some (s r : string) (m : Z) :
  le_mes s = Some (m, r) ->
  (1 <= m <= 12)%Z /\ (String.length r < String.length s <= String.length r + 2)%nat.
Proof.
  unfold le_mes. destruct (le_digito s) as [[a r1] |] eqn:Ha; [| done].
  apply le_digito_Some in Ha as [Ha Hl1]. cbn [mbind option_bind].
  destruct (le_digito r1) as [[b r2] |] eqn:Hb.
  - apply le_digito_Some in Hb as [Hb Hl2].
    repeat case_match; intros [= <- <-]; lia.
  - repeat case_match; intros [= <- <-]; lia.
Qed.

Lemma le_dia_Some (s r : string) (d : Z) :
  le_dia s = Some (d, r) ->
  (1 <= d <= 31)%Z /\ (String.length r < String.length s <= String.length r + 2)%nat.
Proof.
  assert (Hgeral :
    (a0 ← le_digito s;
     let '(a, r1) := a0 in
     match le_digito r1 with
     | Some (b, r2) =>
         if ((a =? 3) && (b <=? 1))%Z then Some (30 + b, r2)%Z
         else if ((1 <=? a) && (a <=? 2))%Z then Some (10 * a + b, r2)%Z
         else if ((a =? 0) && (1 <=? b))%Z then Some (b, r2)
         else if (1 <=? a)%Z then Some (a, r1) else None
     | None => if (1 <=? a)%Z then Some (a, r1) else None
     end) = Some (d, r) ->
    (1 <= d <= 31)%Z /\ (String.length r < String.length s <= String.length r + 2)%nat).
  { destruct (le_digito s) as [[a r1] |] eqn:Ha; [| done].
    apply le_digito_Some in Ha as [Ha Hl1]. cbn [mbind option_bind].
    destruct (le_digito r1) as [[b r2] |] eqn:Hb.
    - apply le_digito_Some in Hb as [Hb Hl2].
      repeat case_match; intros [= <- <-]; lia.
    - repeat case_match; intros [= <- <-]; lia. }
  destruct s as [| c s']; [done |].
  destruct (Ascii.eqb_spec c " ") as [-> | Hc].
  - cbn [le_dia]. destruct (le_digito s') as [[b r2] |] eqn:Hb; [| done].
    apply le_digito_Some in Hb as [Hb Hl2]. cbn [mbind option_bind].
    case_match; intros [= <- <-]; cbn [String.length]; lia.
  - intros H. apply Hgeral. rewrite <- H. unfold le_dia.
    destruct c as [[] [] [] [] [] [] [] []]; try reflexivity. by destruct Hc.
Qed.

Lemma strptime_ymd_Some (s : string) (d : data) :
  strptime_ymd s = Some d ->
  data_valida d /\ (8 <= String.length s <= 10)%nat.
Proof.
  unfold strptime_ymd, data_valida.
  destruct (le_digito s) as [[y1 s1] |] eqn:H1; [| done].
  apply le_digito_Some in H1 as [H1 L1]. cbn [mbind option_bind].
  destruct (le_digito s1) as [[y2 s2] |] eqn:H2; [| done].
  apply le_digito_Some in H2 as [H2 L2]. cbn [mbind option_bind].
  destruct (le_digito s2) as [[y3 s3] |] eqn:H3; [| done].
  apply le_digito_Some in H3 as [H3 L3]. cbn [mbind option_bind].
  destruct (le_digito s3) as [[y4 s4] |] eqn:H4; [| done].
  apply le_digito_Some in H4 as [H4 L4]. cbn [mbind option_bind].
  destruct (espera "-" s4) as [s5 |] eqn:H5; [| done].
  apply espera_Some in H5. cbn [mbind option_bind].
  destruct (le_mes s5) as [[m s6] |] eqn:H6; [| done].
  apply le_mes_Some in H6 as [H6 L6]. cbn [mbind option_bind].
  destruct (espera "-" s6) as [s7 |] eqn:H7; [| done].
  apply espera_Some in H7. cbn [mbind option_bind].
  destruct (le_dia s7) as [[dd s8] |] eqn:H8; [| done].
  apply le_dia_Some in H8 as [H8 L8]. cbn [mbind option_bind].
  destruct (String.eqb_spec s8 "") as [-> | ?]; [| done]. cbn [andb].
  destruct (Z.leb_spec 1 (1000 * y1 + 100 * y2 + 10 * y3 + y4)); [| done]. cbn [andb].
  destruct (Z.leb_spec dd (dias_no_mes (1000 * y1 + 100 * y2 + 10 * y3 + y4) m)); [| done].
  intros [= <-]. cbn [ano mes dia String.length] in *. lia.
Qed.

(** X13.  Whatever [converter_data] is given, what it returns other than
    [None] is a date of the calendar: year 1 to 9999, month 1 to 12, a day
    that the month of that year has.  It returns one only for a string of
    eight to ten characters, so a date followed by a time of day is turned
    into [None]. *)
Theorem converter_data_valida (data_str : valor) (d : data) :
  converter_data data_str = Some d ->
  data_valida d
  /\ exists s, data_str = VStr s /\ (8 <= String.length s <= 10)%nat.
Proof.
  unfold converter_data. destruct (verdadeiro data_str); [| done].
  destruct data_str as [| s | | |]; try done.
  intros [Hd Hs]%strptime_ymd_Some. eauto.
Qed.

Lemma converter_data_valida_exemplo :
  data_valida (Data 2020 2 29)
  /\ exists s, VStr "2020-02-29" = VStr s /\ (8 <= String.length s <= 10)%nat.
Proof.
  apply (converter_data_valida (VStr "2020-02-29") (Data 2020 2 29)).
  vm_compute. reflexivity.
Defined.

Lemma le_digito_algarismo (k : Z) (r : string) :
  (0 <= k <= 9)%Z -> le_digito (String (algarismo k) r) = Some (k, r).
Proof.
  intros Hk.
  assert (Hn : (Z.to_nat k <= 9)%nat) by lia.
  replace k with (Z.of_nat (Z.to_nat k)) by lia.
  generalize dependent (Z.to_nat k). intros n Hn.
  do 10 (destruct n as [| n]; [reflexivity |]). lia.
Qed.

Lemma le_mes_dois_algarismos (m : Z) (r : string) :
  (1 <= m <= 12)%Z -> le_mes (dois_algarismos m r) = Some (m, r).
Proof.
  intros Hm.
  assert (Hn : (1 <= Z.to_nat m <= 12)%nat) by lia.
  replace m with (Z.of_nat (Z.to_nat m)) by lia.
  generalize dependent (Z.to_nat m). intros n Hn.
  destruct n as [| n]; [lia |].
  do 12 (destruct n as [| n]; [reflexivity |]). lia.
Qed.

Lemma le_dia_dois_algarismos (d : Z) (r : string) :
  (1 <= d <= 31)%Z -> le_dia (dois_algarismos d r) = Some (d, r).
Proof.
  intros Hd.
  assert (Hn : (1 <= Z.to_nat d <= 31)%nat) by lia.
  replace d with (Z.of_nat (Z.to_nat d)) by lia.
  generalize dependent (Z.to_nat d). intros n Hn.
  destruct n as [| n]; [lia |].
  do 31 (destruct n as [| n]; [reflexivity |]). lia.
Qed.

Lemma dias_no_mes_limite (y m : Z) : (28 <= dias_no_mes y m <= 31)%Z.
Proof. unfold dias_no_mes. repeat case_match; lia. Qed.

(** X14.  [converter_data] accepts every date of the calendar written as
    [YYYY-MM-DD] with leading zeros, and returns that date. *)
Theorem converter_data_texto_da_data (d : data) :
  data_valida d -> converter_data (VStr (texto_da_data d)) = Some d.
Proof.
  destruct d as [y m dd]. unfold data_valida. cbn [ano mes dia]. intros (Hy & Hm & Hd).
  pose proof (dias_no_mes_limite y m) as Hlim.
  unfold converter_data, texto_da_data. cbn [ano mes dia verdadeiro String.eqb negb].
  unfold strptime_ymd, dois_algarismos at 1.
  rewrite le_digito_algarismo by (Z.to_euclidean_division_equations; lia).
  cbn [mbind option_bind].
  rewrite le_digito_algarismo by (Z.to_euclidean_division_equations; lia).
  cbn [mbind option_bind].
  rewrite le_digito_algarismo by (Z.to_euclidean_division_equations; lia).
  cbn [mbind option_bind].
  rewrite le_digito_algarismo by (Z.to_euclidean_division_equations; lia).
  cbn [mbind option_bind espera]. rewrite Ascii.eqb_refl. cbn [mbind option_bind].
  rewrite le_mes_dois_algarismos by done.
  cbn [mbind option_bind espera]. rewrite Ascii.eqb_refl. cbn [mbind option_bind].
  rewrite le_dia_dois_algarismos by lia.
  cbn [mbind option_bind String.eqb andb].
  replace (1000 * (y / 1000) + 100 * (y / 100 mod 10) + 10 * (y mod 100 / 10)
           + y mod 100 mod 10)%Z with y by (Z.to_euclidean_division_equations; lia).
  destruct (Z.leb_spec 1 y); [| lia]. destruct (Z.leb_spec dd (dias_no_mes y m)); [| lia].
  done.
Qed.

Lemma converter_data_texto_da_data_exemplo :
  converter_data (VStr (texto_da_data (Data 2020 7 14))) = Some (Data 2020 7 14).
Proof.
  apply (converter_data_texto_da_data (Data 2020 7 14)).
  unfold data_valida. vm_compute. repeat split; discriminate.
Defined.

(** ** [criar_pastas] *)

Lemma mkdir_p_efeito (f f' : sistema_arquivos) (feito resto : caminho) :
  mkdir_p f feito resto = inr f' ->
  (forall q, is_Some (f !! q) -> f' !! q = f !! q)
  /\ (resto <> [] -> f' !! (feito ++ resto) = Some Pasta).
Proof.
  revert f feito. induction resto as [| x resto IH]; intros f feito H.
  - cbn [mkdir_p] in H. injection H as <-. done.
  - cbn [mkdir_p] in H. unfold barra in H.
    replace (feito ++ x :: resto) with ((feito ++ [x]) ++ resto) by (by rewrite <- app_assoc).
    destruct (f !! (feito ++ [x])) as [[c |] |] eqn:Hp.
    + by destruct resto.
    + apply IH in H as [Hsame Hdir]. split; [done |]. intros _.
      destruct resto as [| y resto]; [| by apply Hdir].
      rewrite app_nil_r, Hsame; [done | by rewrite Hp].
    + apply IH in H as [Hsame Hdir]. split.
      * intros q Hq. rewrite Hsame.
        -- apply lookup_insert_ne. intros <-. rewrite Hp in Hq. by destruct Hq.
        -- destruct (decide (feito ++ [x] = q)) as [<- | Hne].
           ++ by rewrite lookup_insert_eq.
           ++ by rewrite lookup_insert_ne.
      * intros _. destruct resto as [| y resto]; [| by apply Hdir].
        rewrite app_nil_r, Hsame; by rewrite lookup_insert_eq.
Qed.

Lemma criar_pasta_efeito (pasta : caminho) (w : mundo) :
  (forall q, is_Some (fs w !! q) -> fs (snd (criar_pasta pasta w)) !! q = fs w !! q)
  /\ (fst (criar_pasta pasta w) = inr tt -> pasta <> [] ->
      existe (fs (snd (criar_pasta pasta w))) pasta = true)
  /\ (existe (fs w) pasta = true -> criar_pasta pasta w = (inr tt, w)).
Proof.
  destruct w as [f b tr].
  cbv [criar_pasta encadeia obtem eleva altera registra emite puro com_fs fs bd rastro].
  destruct (existe f pasta) eqn:Hex; cbn [negb fst snd]; [done |].
  split; [| split; [| done]].
  - destruct (mkdir_p f [] pasta) as [e | f'] eqn:Hmk; cbn [snd]; [done |].
    by apply mkdir_p_efeito in Hmk as [? _].
  - destruct (mkdir_p f [] pasta) as [e | f'] eqn:Hmk; cbn [fst snd]; [done |].
    intros _ Hne. apply mkdir_p_efeito in Hmk as [_ Hdir].
    specialize (Hdir Hne). rewrite app_nil_l in Hdir. unfold existe. by rewrite Hdir.
Qed.

Lemma existe_preservado (f f' : sistema_arquivos) (p : caminho) :
  (forall q, is_Some (f !! q) -> f' !! q = f !! q) ->
  existe f p = true -> existe f' p = true.
Proof.
  intros Hsame. unfold existe. destruct (f !! p) eqn:Hp; [| done].
  by rewrite Hsame, Hp by (by rewrite Hp).
Qed.

Lemma criar_pastas_passos (self : processador) (w : mundo) :
  criar_pastas self w
  = match criar_pasta (pasta_xml self) w with
    | (inl e, w1) => (inl e, w1)
    | (inr _, w1) =>
        match criar_pasta (pasta_processados self) w1 with
        | (inl e, w2) => (inl e, w2)
        | (inr _, w2) => criar_pasta (pasta_erros self) w2
        end
    end.
Proof.
  unfold criar_pastas. cbn [para_cada_acao]. unfold encadeia, puro.
  destruct (criar_pasta (pasta_xml self) w) as [[e | []] w1]; [done |].
  destruct (criar_pasta (pasta_processados self) w1) as [[e | []] w2]; [done |].
  by destruct (criar_pasta (pasta_erros self) w2) as [[e | []] w3].
Qed.

(** X15.  [criar_pastas] only ever adds directories: an entry that
    exists, file or directory, is the same afterwards, whether the method
    returns or raises. *)
Theorem criar_pastas_preserva (self : processador) (w : mundo) (q : list string) :
  is_Some (fs w !! q) -> fs (snd (criar_pastas self w)) !! q = fs w !! q.
Proof.
  intros Hq. rewrite criar_pastas_passos.
  destruct (criar_pasta_efeito (pasta_xml self) w) as (S1 & _ & _).
  destruct (criar_pasta (pasta_xml self) w) as [[e | []] w1]; cbn [snd] in *; [by apply S1 |].
  assert (Hq1 : is_Some (fs w1 !! q)) by (by rewrite S1).
  destruct (criar_pasta_efeito (pasta_processados self) w1) as (S2 & _ & _).
  destruct (criar_pasta (pasta_processados self) w1) as [[e | []] w2]; cbn [snd] in *.
  { by rewrite S2, S1. }
  assert (Hq2 : is_Some (fs w2 !! q)) by (by rewrite S2).
  destruct (criar_pasta_efeito (pasta_erros self) w2) as (S3 & _ & _).
  by rewrite S3, S2, S1.
Qed.

Lemma criar_pastas_preserva_exemplo :
  fs (snd (criar_pastas processador_exemplo mundo_sem_destinos)) !! ["xml_nfe"; "nota.xml"]
  = fs mundo_sem_destinos !! ["xml_nfe"; "nota.xml"].
Proof.
  apply (criar_pastas_preserva processador_exemplo mundo_sem_destinos ["xml_nfe"; "nota.xml"]).
  vm_compute. eauto.
Defined.

(** X16.  When [criar_pastas] returns, the three configured paths exist,
    and running it again does nothing at all: no directory is made and no
    line is logged. *)
Theorem criar_pastas_idempotente (self : processador) (w : mundo) :
  pasta_xml self <> [] -> pasta_processados self <> [] -> pasta_erros self <> [] ->
  fst (criar_pastas self w) = inr tt ->
  let w' := snd (criar_pastas self w) in
  existe (fs w') (pasta_xml self) = true
  /\ existe (fs w') (pasta_processados self) = true
  /\ existe (fs w') (pasta_erros self) = true
  /\ criar_pastas self w' = (inr tt, w').
Proof.
  intros Hx Hp He. rewrite criar_pastas_passos.
  destruct (criar_pasta_efeito (pasta_xml self) w) as (S1 & E1 & _).
  destruct (criar_pasta (pasta_xml self) w) as [[e | []] w1]; cbn [fst snd] in *; [done |].
  destruct (criar_pasta_efeito (pasta_processados self) w1) as (S2 & E2 & _).
  destruct (criar_pasta (pasta_processados self) w1) as [[e | []] w2]; cbn [fst snd] in *;
    [done |].
  destruct (criar_pasta_efeito (pasta_erros self) w2) as (S3 & E3 & _).
  destruct (criar_pasta (pasta_erros self) w2) as [[e | []] w3]; cbn [fst snd] in *; [done |].
  intros _.
  assert (X3 : existe (fs w3) (pasta_xml self) = true).
  { apply (existe_preservado _ _ _ S3), (existe_preservado _ _ _ S2). by apply E1. }
  assert (P3 : existe (fs w3) (pasta_processados self) = true).
  { apply (existe_preservado _ _ _ S3). by apply E2. }
  assert (R3 : existe (fs w3) (pasta_erros self) = true) by (by apply E3).
  repeat (split; [done |]).
  rewrite criar_pastas_passos.
  destruct (criar_pasta_efeito (pasta_xml self) w3) as (_ & _ & I1).
  destruct (criar_pasta_efeito (pasta_processados self) w3) as (_ & _ & I2).
  destruct (criar_pasta_efeito (pasta_erros self) w3) as (_ & _ & I3).
  by rewrite I1, I2, I3.
Qed.

Lemma criar_pastas_idempotente_exemplo :
  let w' := snd (criar_pastas processador_exemplo mundo_sem_destinos) in
  existe (fs w') (pasta_xml processador_exemplo) = true
  /\ existe (fs w') (pasta_processados processador_exemplo) = true
  /\ existe (fs w') (pasta_erros processador_exemplo) = true
  /\ criar_pastas processador_exemplo w' = (inr tt, w').
Proof.
  apply (criar_pastas_idempotente processador_exemplo mundo_sem_destinos);
    try discriminate.
  vm_compute. reflexivity.
Defined.

(** ** The sweep and the watch, compared *)

(** X17.  The watch is always scheduled on [pasta_xml] with its
    subdirectories, and [on_created] asks only that the path be under
    [pasta_xml].  So with [busca_recursiva] off, a file in a subdirectory
    of [pasta_xml] is never listed by the sweep, and is handed to
    [processar_xml] when an event announces it. *)
Theorem subpasta_so_ao_vivo (self : processador) (w : mundo) (p rel : list string) :
  busca_recursiva self = false ->
  relative_to p (pasta_xml self) = Some rel ->
  (2 <= length rel)%nat ->
  lower (suffix p) = ".xml" ->
  existe (fs w) p = true ->
  (p ∉ arquivos_existentes self (fs w))
  /\ on_created self (EventoCriacao false p) w
     = processar_xml self p
         (com_evento (EvLog INFO (MsgNovoArquivo (str_relativo rel)))
            (com_evento (EvSleep 1) w)).
Proof.
  intros Hflag Hrel Hlen Hsuf Hex. split.
  - unfold arquivos_existentes. rewrite Hflag, glob_elem. intros (_ & Hpai & _).
    apply relative_to_Some in Hrel. subst p. unfold pai in Hpai.
    destruct rel as [| a [| b rel]]; [cbn [length] in Hlen; lia.. |].
    rewrite removelast_app in Hpai by done.
    rewrite <- (app_nil_r (pasta_xml self)) in Hpai at 2.
    by apply app_inv_head in Hpai.
  - by apply (on_created_aceita self (EventoCriacao false p) rel).
Qed.

Lemma subpasta_so_ao_vivo_exemplo :
  let w := Mundo (<[ ["xml_nfe"; "lote"; "nota.xml"]
                     := Arquivo (Texto (BemFormado doc_exemplo)) ]> fs_exemplo)
            banco_vazio [] in
  let p := ["xml_nfe"; "lote"; "nota.xml"] in
  (p ∉ arquivos_existentes processador_plano (fs w))
  /\ on_created processador_plano (EventoCriacao false p) w
     = processar_xml processador_plano p
         (com_evento (EvLog INFO (MsgNovoArquivo (str_relativo ["lote"; "nota.xml"])))
            (com_evento (EvSleep 1) w)).
Proof.
  apply (subpasta_so_ao_vivo processador_plano
           (Mundo (<[ ["xml_nfe"; "lote"; "nota.xml"]
                      := Arquivo (Texto (BemFormado doc_exemplo)) ]> fs_exemplo)
              banco_vazio [])
           ["xml_nfe"; "lote"; "nota.xml"] ["lote"; "nota.xml"]).
  - reflexivity.
  - vm_compute. reflexivity.
  - cbn [length]. lia.
  - vm_compute. reflexivity.
  - vm_compute. reflexivity.
Defined.

Lemma rfind_ponto_xml (pre : string) :
  rfind_ponto (pre +:+ ".xml") = Some (String.length pre).
Proof.
  induction pre as [| c pre IH]; [done |]. simpl. by rewrite IH.
Qed.

Lemma substring_final (pre t : string) :
  substring (String.length pre) (String.length t) (pre +:+ t) = t.
Proof.
  induction pre as [| c pre IH]; simpl; [| done].
  change (substring 0 (String.length t) t = t).
  induction t as [| d t IHt]; [done |]. simpl. by rewrite IHt.
Qed.

(** A name that ends with [.xml] and is longer has the suffix [.xml]. *)
Lemma suffix_xml (p : caminho) :
  termina_com ".xml" (nome p) -> nome p <> ".xml" -> suffix p = ".xml".
Proof.
  intros [pre Hn] Hne. unfold suffix, corte. rewrite Hn, rfind_ponto_xml, append_length.
  destruct pre as [| c pre]; [by rewrite Hn in Hne |].
  cbn [String.length].
  replace ((0 <? S (String.length pre))%nat) with true by (symmetry; apply Nat.ltb_lt; lia).
  replace ((S (String.length pre) <? S (String.length pre) + 4 - 1)%nat) with true
    by (symmetry; apply Nat.ltb_lt; lia).
  cbn [andb].
  replace (S (String.length pre) + 4 - S (String.length pre))%nat
    with (String.length ".xml") by (cbn [String.length]; lia).
  apply (substring_final (String c pre) ".xml").
Qed.

(** X18.  With [busca_recursiva] on, the watch takes whatever the sweep
    would take: for every file the sweep lists, a creation event is
    accepted by [on_created] and the file handed to [processar_xml], the
    one exception being a file whose whole name is [.xml], which has no
    suffix. *)
Theorem varredura_recursiva_implica_evento (self : processador) (w : mundo)
    (p : list string) :
  busca_recursiva self = true ->
  p ∈ arquivos_da_varredura self (fs w) ->
  nome p <> ".xml" ->
  exists rel,
    relative_to p (pasta_xml self) = Some rel
    /\ on_created self (EventoCriacao false p) w
       = processar_xml self p
           (com_evento (EvLog INFO (MsgNovoArquivo (str_relativo rel)))
              (com_evento (EvSleep 1) w)).
Proof.
  intros Hflag [Hfile Hin]%list_elem_of_filter Hne.
  unfold arquivos_existentes in Hin. rewrite Hflag in Hin.
  apply rglob_elem in Hin as (Hsome & Hab & Hmatch).
  apply (fnmatch_estrela_literal ".xml" ".xml" fnmatch_ponto_xml) in Hmatch.
  unfold abaixo_de in Hab.
  destruct (relative_to p (pasta_xml self)) as [rel |] eqn:Hrel; [| done].
  exists rel. split; [done |].
  apply (on_created_aceita self (EventoCriacao false p) rel); try done.
  - cbn [src_path]. by rewrite suffix_xml.
  - cbn [src_path]. unfold existe. by destruct Hsome as [x ->].
Qed.

Lemma varredura_recursiva_implica_evento_exemplo :
  exists rel,
    relative_to ["xml_nfe"; "nota.xml"] (pasta_xml processador_exemplo) = Some rel
    /\ on_created processador_exemplo (EventoCriacao false ["xml_nfe"; "nota.xml"])
         mundo_com_dois
       = processar_xml processador_exemplo ["xml_nfe"; "nota.xml"]
           (com_evento (EvLog INFO (MsgNovoArquivo (str_relativo rel)))
              (com_evento (EvSleep 1) mundo_com_dois)).
Proof.
  apply (varredura_recursiva_implica_evento processador_exemplo mundo_com_dois
           ["xml_nfe"; "nota.xml"]).
  - reflexivity.
  - apply (bool_decide_unpack _). vm_compute. exact I.
  - vm_compute. discriminate.
Defined.

(** ** Invoices stay in the store *)

Lemma efeito_salvar_chaves (cab : cabecalho) (itens : list item) (n c : string)
    (b : banco) (k : string) :
  k ∈ chaves b \/ k = cab_chave_acesso cab -> k ∈ chaves (efeito_salvar cab itens n c b).
Proof.
  intros Hk. unfold chaves, efeito_salvar.
  destruct (foldl_insert_item itens
              (delete_itens (cab_chave_acesso cab)
                 (insert_or_replace_cabecalho cab n c b))) as (Hcab & _ & _).
  cbn zeta in Hcab. rewrite Hcab.
  cbn [delete_itens insert_or_replace_cabecalho nfe_cabecalho].
  rewrite fmap_app. apply elem_of_app.
  destruct (decide (k = cab_chave_acesso cab)) as [-> | Hne].
  - right. by left.
  - left. destruct Hk as [Hk | ?]; [| done].
    apply list_elem_of_fmap in Hk as (l & -> & Hl).
    apply list_elem_of_fmap. exists l. split; [done |].
    apply list_elem_of_filter. split; [done | done].
Qed.

(** X19.  [processar_xml] never takes an invoice out of the store: an
    access key that has a header row before has one afterwards, whatever
    file is processed and however that ends. *)
Theorem processar_xml_chaves_crescem (self : processador) (arquivo : list string)
    (w : mundo) (k : string) :
  k ∈ chaves (bd w) -> k ∈ chaves (bd (snd (processar_xml self arquivo w))).
Proof.
  intros Hk.
  destruct (processar_xml_bd self arquivo w) as [-> | (cab & itens & _ & ->)]; [done |].
  apply efeito_salvar_chaves. by left.
Qed.

Lemma processar_xml_chaves_crescem_exemplo :
  cab_chave_acesso cab_dois_itens
  ∈ chaves (bd (snd (processar_xml processador_exemplo ["xml_nfe"; "nota.xml"]
                       mundo_com_dois))).
Proof.
  apply (processar_xml_chaves_crescem processador_exemplo ["xml_nfe"; "nota.xml"]
           mundo_com_dois (cab_chave_acesso cab_dois_itens)).
  apply (bool_decide_unpack _). vm_compute. exact I.
Defined.

Lemma documento_de_lookup (f f' : sistema_arquivos) (p : caminho) :
  f' !! p = f !! p -> documento_de f' p = documento_de f p.
Proof. intros H. unfold documento_de, ler. by rewrite H. Qed.

Lemma ingere_chave (self : processador) (w : mundo) (a : caminho) (cab : cabecalho)
    (itens : list item) :
  documento_de (fs w) a = inr (cab, itens) -> tudo_vinculavel cab itens = true ->
  cab_chave_acesso cab ∈ chaves (bd (ingere self w a)).
Proof.
  intros Hdoc Hv. unfold ingere.
  set (w0 := com_evento (EvLog INFO (MsgProcessandoExistente (caminho_relativo self a))) w).
  assert (Hac : documento_aceito (fs w0) a = true).
  { unfold documento_aceito. cbn [w0 com_evento fs]. by rewrite Hdoc. }
  destruct (processar_xml_aceito self a w0 Hac) as (cab' & itens' & c & Hdoc' & _ & ->).
  cbn [w0 com_evento fs] in Hdoc'. rewrite Hdoc in Hdoc'. injection Hdoc' as <- <-.
  assert (Hk : cab_chave_acesso cab
               ∈ chaves (efeito_salvar cab itens (nome a) (caminho_relativo self a) (bd w0))).
  { apply efeito_salvar_chaves. by right. }
  by repeat case_match.
Qed.

Lemma foldl_ingere_chaves (self : processador) (l : list caminho) (w : mundo) (k : string) :
  k ∈ chaves (bd w) -> k ∈ chaves (bd (foldl (ingere self) w l)).
Proof.
  revert w. induction l as [| a l IH]; intros w Hk; [done |].
  cbn [foldl]. apply IH. unfold ingere.
  match goal with |- context [processar_xml self a ?w0] =>
    destruct (processar_xml_bd self a w0) as [-> | (cab & itens & _ & ->)]; [done |]
  end.
  apply efeito_salvar_chaves. by left.
Qed.

Lemma foldl_ingere_guarda (self : processador) (l : list caminho) (w : mundo)
    (p : caminho) (cab : cabecalho) (itens : list item) :
  NoDup l -> (forall q, q ∈ l -> eh_arquivo (fs w) q = true) -> p ∈ l ->
  documento_de (fs w) p = inr (cab, itens) -> tudo_vinculavel cab itens = true ->
  cab_chave_acesso cab ∈ chaves (bd (foldl (ingere self) w l)).
Proof.
  revert w. induction l as [| a l IH]; intros w Hnd Hfiles Hp Hdoc Hv.
  { by apply elem_of_nil in Hp. }
  apply NoDup_cons in Hnd as [Ha Hnd]. cbn [foldl].
  assert (Hsame : forall q, q ∈ l -> fs (ingere self w a) !! q = fs w !! q).
  { intros q Hq. apply ingere_outros.
    - apply Hfiles. by left.
    - assert (Hfile : eh_arquivo (fs w) q = true) by (apply Hfiles; by right).
      unfold eh_arquivo in Hfile. by destruct (fs w !! q).
    - by intros ->. }
  apply elem_of_cons in Hp as [-> | Hp].
  - apply foldl_ingere_chaves. by apply (ingere_chave self w a cab itens).
  - apply (IH (ingere self w a)); try done.
    + intros q Hq. unfold eh_arquivo. rewrite Hsame by done. apply Hfiles. by right.
    + by rewrite (documento_de_lookup (fs w)) by (by apply Hsame).
Qed.

(** X20.  After the sweep the store has a header row for the access key
    of every backlog file that could be read, parsed, extracted and bound
    when the sweep started, whatever the other files did. *)
Theorem varredura_guarda_aceitos (self : processador) (w : mundo) (p : list string)
    (cab : cabecalho) (itens : list item) :
  p ∈ arquivos_da_varredura self (fs w) ->
  documento_de (fs w) p = inr (cab, itens) ->
  tudo_vinculavel cab itens = true ->
  cab_chave_acesso cab ∈ chaves (bd (snd (processar_arquivos_existentes self w))).
Proof.
  intros Hp Hdoc Hv. rewrite processar_arquivos_existentes_passos.
  cbn [snd com_evento bd].
  apply (foldl_ingere_guarda self _ _ p cab itens); try done.
  - apply NoDup_filter, arquivos_existentes_NoDup.
  - intros q Hq. by apply list_elem_of_filter in Hq as [? _].
Qed.

Lemma varredura_guarda_aceitos_exemplo :
  cab_chave_acesso cab_exemplo
  ∈ chaves (bd (snd (processar_arquivos_existentes processador_exemplo mundo_com_dois))).
Proof.
  apply (varredura_guarda_aceitos processador_exemplo mundo_com_dois
           ["xml_nfe"; "nota.xml"] cab_exemplo itens_exemplo).
  - apply (bool_decide_unpack _). vm_compute. exact I.
  - vm_compute. reflexivity.
  - vm_compute. reflexivity.
Defined.

(** X21.  After [processar_xml] on a file that is read, parsed, extracted
    and bound, the store holds the document of the file under its access
    key and nothing older: one header row, the new one, with the name and
    the relative path of the file, and as items exactly the items
    extracted, in the order of the document. *)
Theorem processar_xml_guarda_documento (self : processador) (arquivo : list string)
    (cab : cabecalho) (itens : list item) (w : mundo) :
  documento_de (fs w) arquivo = inr (cab, itens) ->
  tudo_vinculavel cab itens = true ->
  let b' := bd (snd (processar_xml self arquivo w)) in
  cabecalhos_de (cab_chave_acesso cab) b'
  = [LinhaCabecalho (seq_cabecalho (bd w) + 1) cab (nome arquivo)
       (caminho_relativo self arquivo)]
  /\ itens_de (cab_chave_acesso cab) b' = itens.
Proof.
  intros Hdoc Hv b'. subst b'.
  assert (Hac : documento_aceito (fs w) arquivo = true).
  { unfold documento_aceito. by rewrite Hdoc. }
  destruct (processar_xml_aceito self arquivo w Hac) as (cab' & itens' & c & Hdoc' & _ & Heq).
  rewrite Hdoc in Hdoc'. injection Hdoc' as <- <-.
  assert (Hbd : bd (snd (processar_xml self arquivo w))
                = efeito_salvar cab itens (nome arquivo) (caminho_relativo self arquivo)
                    (bd w)).
  { rewrite Heq. by repeat case_match. }
  rewrite Hbd.
  destruct (efeito_salvar_linhas cab itens (nome arquivo) (caminho_relativo self arquivo)
              (bd w)) as (Hcab & Hitens & _).
  split; [done |]. rewrite Hitens. apply filter_todos.
  by apply (documento_de_chaves (fs w) arquivo).
Qed.

Lemma processar_xml_guarda_documento_exemplo :
  let b' := bd (snd (processar_xml processador_exemplo ["xml_nfe"; "nota.xml"]
                       mundo_com_dois)) in
  cabecalhos_de (cab_chave_acesso cab_exemplo) b'
  = [LinhaCabecalho (seq_cabecalho (bd mundo_com_dois) + 1) cab_exemplo
       (nome ["xml_nfe"; "nota.xml"])
       (caminho_relativo processador_exemplo ["xml_nfe"; "nota.xml"])]
  /\ itens_de (cab_chave_acesso cab_exemplo) b' = itens_exemplo.
Proof.
  apply (processar_xml_guarda_documento processador_exemplo ["xml_nfe"; "nota.xml"]
           cab_exemplo itens_exemplo mundo_com_dois).
  - vm_compute. reflexivity.
  - vm_compute. reflexivity.
Defined.
